(** * Query resolution, confidence scoring and result caching of the
      Spotify skill

    A shallow embedding of the decision logic of four source files:

    - [src/spotify.py]                 (module [Ocp]:      confidences on the 0-100 scale),
    - [src/__init__.py]                (module [OcpSkill]: the search handlers),
    - [src/skill_spotify/spotify.py]   (module [Client]:   confidences on the unit scale;
                                        module [Connect]:  credentials and Connect client),
    - [src/skill_spotify/__init__.py]  (modules [Skill] and [Legacy]: the legacy skill class).

    Python floats are modelled as rationals ([Q]); Python dictionaries keyed
    by strings as [gmap string _]; the instance attributes of the three
    classes as one record [Self] threaded through a state-and-exception
    monad.  The fuzzy matching library ([fuzzy_match], [match_one]) and the
    locale resources are external to the repository and enter as the
    interface [FuzzyLib] and as section variables. *)

From Stdlib Require Import QArith Qminmax Qround Lqa ZArith String Ascii List Lia Sorted.
From stdpp Require Import gmap strings list.
Import ListNotations.
Open Scope string_scope.

(** ** Python strings *)

(** [str.lower()] on the ASCII range. *)
Definition lower_ascii (c : ascii) : ascii :=
  let n := N_of_ascii c in
  if ((65 <=? n) && (n <=? 90))%N then ascii_of_N (n + 32) else c.

Fixpoint lower (s : string) : string :=
  match s with
  | EmptyString => EmptyString
  | String c s' => String (lower_ascii c) (lower s')
  end.

(** Whitespace as understood by [str.strip()] on the ASCII range:
    TAB, LF, VT, FF, CR, FS, GS, RS, US and SPACE. *)
Definition is_space (c : ascii) : bool :=
  let n := N_of_ascii c in
  (((9 <=? n) && (n <=? 13)) || ((28 <=? n) && (n <=? 32)))%N.

Fixpoint lstrip (s : string) : string :=
  match s with
  | EmptyString => EmptyString
  | String c s' => if is_space c then lstrip s' else s
  end.

(** [rstrip] keeps a character when it is not a space or when something
    that is kept follows it. *)
Fixpoint rstrip (s : string) : string :=
  match s with
  | EmptyString => EmptyString
  | String c s' =>
      match rstrip s' with
      | EmptyString => if is_space c then EmptyString else String c EmptyString
      | r => String c r
      end
  end.

Definition strip (s : string) : string := rstrip (lstrip s).

(** [sub in s] *)
Fixpoint contains (sub s : string) : bool :=
  String.prefix sub s ||
  match s with
  | EmptyString => false
  | String _ s' => contains sub s'
  end.

(** [s.split(sep)] for a non-empty separator: [skip] counts the characters
    of a separator just recognised that are still to be dropped, [cur] is the
    part being collected. *)
Fixpoint split_go (sep : string) (skip : nat) (cur s : string) : list string :=
  match s with
  | EmptyString => [cur]
  | String c s' =>
      match skip with
      | S k => split_go sep k cur s'
      | O =>
          if String.prefix sep s
          then cur :: split_go sep (String.length sep - 1) EmptyString s'
          else split_go sep 0 (cur ++ String c EmptyString) s'
      end
  end.

Definition split (sep s : string) : list string := split_go sep 0 EmptyString s.

(** *** The qualifier pattern [(\(.+\)|-.+)$]

    [re.sub(r'(\(.+\)|-.+)$', '', best)] removes the leftmost match.  A match
    starts at an opening parenthesis followed by at least one character and a
    closing parenthesis that ends the string, or at a dash followed by at
    least one character up to the end of the string; [.] does not match a
    line feed and [$] also matches just before a final line feed, which is
    then kept. *)
Definition LF : ascii := ascii_of_N 10.

Fixpoint no_newline (s : string) : bool :=
  match s with
  | EmptyString => true
  | String c s' => negb (Ascii.eqb c LF) && no_newline s'
  end.

Fixpoint last_char (s : string) : option ascii :=
  match s with
  | EmptyString => None
  | String c EmptyString => Some c
  | String _ s' => last_char s'
  end.

Fixpoint drop_last (s : string) : string :=
  match s with
  | EmptyString => EmptyString
  | String _ EmptyString => EmptyString
  | String c s' => String c (drop_last s')
  end.

(** The text matched so far is followed by [rest]; [body] is [rest] without a
    final line feed, if it has one. *)
Definition body (rest : string) : string :=
  match last_char rest with
  | Some c => if Ascii.eqb c LF then drop_last rest else rest
  | None => rest
  end.

Definition ends_with_newline (rest : string) : bool :=
  match last_char rest with
  | Some c => Ascii.eqb c LF
  | None => false
  end.

(** [\(.+\)$] after the opening parenthesis. *)
Definition paren_tail (rest : string) : bool :=
  let b := body rest in
  no_newline b && (2 <=? String.length b)%nat &&
  match last_char b with Some c => Ascii.eqb c ")" | None => false end.

(** [-.+$] after the dash. *)
Definition dash_tail (rest : string) : bool :=
  let b := body rest in
  no_newline b && (1 <=? String.length b)%nat.

Fixpoint strip_qualifier (s : string) : string :=
  match s with
  | EmptyString => EmptyString
  | String c rest =>
      if (Ascii.eqb c "(" && paren_tail rest) || (Ascii.eqb c "-" && dash_tail rest)
      then (if ends_with_newline rest then String LF EmptyString else EmptyString)
      else String c (strip_qualifier rest)
  end.

(** ** Numbers *)

Definition Qltb (x y : Q) : bool := negb (Qle_bool y x).

(** [int(x)]: truncation towards zero. *)
Definition py_int (x : Q) : Z :=
  if Qltb x 0 then Qceiling x else Qfloor x.

(** ** Stable sorting

    [list.sort(key=...)] and [sorted(..., key=...)] are stable: elements
    with equal keys keep their relative order.  [ltb] is [<] on keys. *)
Section Sorting.
Context {A K : Type} (ltb : K -> K -> bool) (key : A -> K).

Fixpoint insert_by (x : A) (l : list A) : list A :=
  match l with
  | [] => [x]
  | y :: l' => if ltb (key y) (key x) then y :: insert_by x l' else x :: l
  end.

Fixpoint sort_by (l : list A) : list A :=
  match l with
  | [] => []
  | x :: l' => insert_by x (sort_by l')
  end.
End Sorting.

(** ** Python values and results

    A search response is a dictionary [data] with a list of items under
    [data[kind]['items']]; an item carries the keys the resolver reads. *)
Record Item := {
  it_name : string;            (* item['name'] *)
  it_uri : string;             (* item['uri'] *)
  it_popularity : Z;           (* track['popularity'] *)
  it_artists : list string     (* [a['name'] for a in item['artists']] *)
}.

Record Device := { dev_id : string; dev_name : string; dev_is_active : bool }.

(** What a result dictionary holds under ['data']. *)
Inductive payload :=
| DNone                          (* None *)
| DSearch (items : list Item)    (* a search response, by its item list *)
| DItem (i : Item).              (* one item of a response or one playlist *)

(** [{'data': ..., 'name': ..., 'type': ...}]; a missing ['name'] is [None]. *)
Record media := { m_data : payload; m_name : option string; m_type : string }.

Inductive value :=
| VNone
| VNum (q : Q)
| VStr (s : string)
| VEmptyDict
| VMedia (m : media)
| VItem (i : Item).

(** A two-element tuple, [(confidence, data)] for the query methods and
    [(playlist, confidence)] for [get_best_user_playlist]. *)
Definition result : Type := value * value.

(** Truth value of an object. *)
Definition truthy (v : value) : bool :=
  match v with
  | VNone => false
  | VNum q => negb (Qeq_bool q 0)
  | VStr s => negb (String.eqb s EmptyString)
  | VEmptyDict => false
  | VMedia _ => true
  | VItem _ => true
  end.

Inductive exn :=
| ValueError | TypeError | KeyError | IndexError | AttributeError | NameError
| UnboundLocalError
| OutOfFuel.   (* not a Python exception: a loop of the model ran out of fuel *)

Inductive outcome (A : Type) :=
| Ret (a : A)
| Raise (e : exn).
Arguments Ret {A} a.
Arguments Raise {A} e.

(** [conf and conf > threshold], as a condition: a falsy [conf] decides
    without comparing; a number is compared; anything else cannot be compared
    with a float. *)
Definition exceeds (conf : value) (threshold : Q) : outcome bool :=
  match conf with
  | VNum q => Ret (truthy conf && Qltb threshold q)
  | _ => if truthy conf then Raise TypeError else Ret false
  end.

(** [<] on tuple keys; only numbers are ordered here. *)
Definition value_ltb (a b : value) : bool :=
  match a, b with
  | VNum x, VNum y => Qltb x y
  | _, _ => false
  end.

(** A result tuple with a numeric confidence. *)
Definition numeric (r : Q * value) : result := (VNum (fst r), snd r).

(** ** The backend and the instance state *)

Inductive SearchType := TArtist | TAlbum | TTrack | TPlaylist | TShow.

(** Requests sent to the Web API. *)
Inductive Call :=
| CallSearch (q : string) (ty : SearchType)
| CallCurrentUserPlaylists
| CallDevices
| CallSavedTracks (limit offset : nat).

(** One page of [current_user_saved_tracks]: its tracks and whether
    [batch['next']] is set. *)
Record Batch := { b_items : list Item; b_next : bool }.

(** The Web API client.  Every answer may depend on the requests made so
    far, so that two fetches of one collection can differ.  A search answers
    [None] for a falsy response and [Some items] for a response whose item
    list is [items]. *)
Record Backend := {
  api_search : list Call -> string -> SearchType -> option (list Item);
  api_current_user_playlists : list Call -> list Item;
  api_devices : list Call -> list Device;
  api_current_user_saved_tracks : list Call -> nat -> nat -> Batch
}.

(** The attributes of [self] that the modelled methods read or write, the
    clock read by [time.time()], and the requests issued so far. *)
Record Self := {
  spotify : option Backend;                 (* self.spotify, None when not connected *)
  _playlists : option (gmap string Item);   (* self._playlists *)
  playlists_fetched : Q;                    (* self.__playlists_fetched *)
  device_list : option (list Device);       (* self.__device_list *)
  devices_fetched : Q;                      (* self.__devices_fetched *)
  saved_tracks : option (list Item);        (* self.saved_tracks *)
  saved_tracks_fetched : Q;                 (* self.__saved_tracks_fetched *)
  now : Q;                                  (* time.time() *)
  calls : list Call
}.

Definition set_playlists (v : option (gmap string Item)) (s : Self) : Self :=
  {| spotify := spotify s; _playlists := v; playlists_fetched := playlists_fetched s;
     device_list := device_list s; devices_fetched := devices_fetched s;
     saved_tracks := saved_tracks s; saved_tracks_fetched := saved_tracks_fetched s;
     now := now s; calls := calls s |}.

Definition set_playlists_fetched (t : Q) (s : Self) : Self :=
  {| spotify := spotify s; _playlists := _playlists s; playlists_fetched := t;
     device_list := device_list s; devices_fetched := devices_fetched s;
     saved_tracks := saved_tracks s; saved_tracks_fetched := saved_tracks_fetched s;
     now := now s; calls := calls s |}.

Definition set_device_list (v : option (list Device)) (s : Self) : Self :=
  {| spotify := spotify s; _playlists := _playlists s; playlists_fetched := playlists_fetched s;
     device_list := v; devices_fetched := devices_fetched s;
     saved_tracks := saved_tracks s; saved_tracks_fetched := saved_tracks_fetched s;
     now := now s; calls := calls s |}.

Definition set_devices_fetched (t : Q) (s : Self) : Self :=
  {| spotify := spotify s; _playlists := _playlists s; playlists_fetched := playlists_fetched s;
     device_list := device_list s; devices_fetched := t;
     saved_tracks := saved_tracks s; saved_tracks_fetched := saved_tracks_fetched s;
     now := now s; calls := calls s |}.

Definition set_saved_tracks (v : option (list Item)) (s : Self) : Self :=
  {| spotify := spotify s; _playlists := _playlists s; playlists_fetched := playlists_fetched s;
     device_list := device_list s; devices_fetched := devices_fetched s;
     saved_tracks := v; saved_tracks_fetched := saved_tracks_fetched s;
     now := now s; calls := calls s |}.

Definition set_saved_tracks_fetched (t : Q) (s : Self) : Self :=
  {| spotify := spotify s; _playlists := _playlists s; playlists_fetched := playlists_fetched s;
     device_list := device_list s; devices_fetched := devices_fetched s;
     saved_tracks := saved_tracks s; saved_tracks_fetched := t;
     now := now s; calls := calls s |}.

Definition set_now (t : Q) (s : Self) : Self :=
  {| spotify := spotify s; _playlists := _playlists s; playlists_fetched := playlists_fetched s;
     device_list := device_list s; devices_fetched := devices_fetched s;
     saved_tracks := saved_tracks s; saved_tracks_fetched := saved_tracks_fetched s;
     now := t; calls := calls s |}.

Definition log (c : Call) (s : Self) : Self :=
  {| spotify := spotify s; _playlists := _playlists s; playlists_fetched := playlists_fetched s;
     device_list := device_list s; devices_fetched := devices_fetched s;
     saved_tracks := saved_tracks s; saved_tracks_fetched := saved_tracks_fetched s;
     now := now s; calls := calls s ++ [c] |}.

(** ** The state-and-exception monad *)

Definition M (A : Type) : Type := Self -> outcome A * Self.

Definition ret {A} (a : A) : M A := fun s => (Ret a, s).

Definition bind {A B} (m : M A) (f : A -> M B) : M B := fun s =>
  match m s with
  | (Ret a, s') => f a s'
  | (Raise e, s') => (Raise e, s')
  end.

Notation "x <- c ;; k" := (bind c (fun x => k))
  (at level 100, c at next level, k at level 200, right associativity).

Definition raise {A} (e : exn) : M A := fun s => (Raise e, s).

Definition lift {A} (o : outcome A) : M A := fun s => (o, s).

(** [self.spotify.search(q, type=ty)] *)
Definition search (q : string) (ty : SearchType) : M (option (list Item)) :=
  fun s =>
    match spotify s with
    | None => (Raise AttributeError, s)
    | Some api => (Ret (api_search api (calls s) q ty), log (CallSearch q ty) s)
    end.

(** [a, b = s.split(sep)] *)
Definition unpack2 (parts : list string) : M (string * string) :=
  match parts with
  | [a; b] => ret (a, b)
  | _ => raise ValueError
  end.

(** A search response without items: a falsy response or an empty list. *)
Definition no_items (o : option (list Item)) : Prop := o = None \/ o = Some [].

(** ** The fuzzy matching library (ovos_utils.parse, rapidfuzz) *)

Inductive MatchStrategy :=
| SIMPLE_RATIO                         (* the default strategy *)
| DAMERAU_LEVENSHTEIN_SIMILARITY
| TOKEN_SET_RATIO.

Class FuzzyLib := {
  (** [fuzzy_match(x, against, strategy)], a similarity in [0, 1] *)
  fuzzy_match : string -> string -> MatchStrategy -> Q;
  (** [match_one(query, choices, strategy)] on a non-empty dictionary: the
      best choice and its score *)
  match_one : string -> gmap string Item -> MatchStrategy -> value * Q;
  (** [fuzz.ratio(a, b)] of rapidfuzz, a similarity in [0, 100] *)
  fuzz_ratio : string -> string -> Q
}.

(** The library's scores lie in the unit interval. *)
Class FuzzyRange `{FuzzyLib} := {
  fuzzy_match_range : forall a b st, (0 <= fuzzy_match a b st <= 1)%Q;
  match_one_range : forall q m st, (0 <= snd (match_one q m st) <= 1)%Q
}.

(** Truth value of a cached list or dictionary attribute: [None] and the
    empty collection are falsy. *)
Definition truthy_list {A} (l : option (list A)) : bool :=
  match l with
  | Some (_ :: _) => true
  | _ => false
  end.

Definition truthy_dict {V} (d : option (gmap string V)) : bool :=
  match d with
  | Some m => negb (bool_decide (m = ∅))
  | None => false
  end.

(** [for p in playlists: d[p['name'].lower()] = p] starting from [{}] *)
Definition by_lower_name (items : list Item) : gmap string Item :=
  foldl (fun d p => <[lower (it_name p) := p]> d) ∅ items.

(** [{'data': data, 'name': None, 'type': ty}] *)
Definition media_of (items : list Item) (ty : string) : value :=
  VMedia {| m_data := DSearch items; m_name := None; m_type := ty |}.

(** ** src/spotify.py: class SpotifyClient (confidences from 0 to 100) *)
Module Ocp.
Section WithFuzzyLib.
Context `{FuzzyLib}.

Definition NOTHING_FOUND : result := (VNum 0, VNone).
Definition DIRECT_RESPONSE_CONFIDENCE : Q := 8 # 10.
Definition MATCH_CONFIDENCE : Q := 5 # 10.

Definition best_result (results : list result) : result :=
  match results with
  | [] => NOTHING_FOUND
  | _ =>
      let results := rev results in
      default NOTHING_FOUND (last (sort_by value_ltb fst results))
  end.

Definition best_confidence (title query : string) : Z :=
  let best := lower title in
  let best_stripped := strip (strip_qualifier best) in
  py_int (Qmax (fuzzy_match best query DAMERAU_LEVENSHTEIN_SIMILARITY)
               (fuzzy_match best_stripped query DAMERAU_LEVENSHTEIN_SIMILARITY) * 100).

(** Devices, cached for 60 seconds *)
Definition devices : M (list Device) := fun self =>
  match spotify self with
  | None => (Ret [], self)
  | Some api =>
      let now := now self in
      if negb (truthy_list (device_list self)) || Qltb 60 (now - devices_fetched self)
      then
        let fetched := api_devices api (calls self) in
        let self := set_device_list (Some fetched) (log CallDevices self) in
        let self := set_devices_fetched now self in
        (Ret fetched, self)
      else (Ret (default [] (device_list self)), self)
  end.

(** Playlists, cached for 5 minutes *)
Definition playlists : M (gmap string Item) := fun self =>
  match spotify self with
  | None => (Ret ∅, self)
  | Some api =>
      let now := now self in
      if negb (truthy_dict (_playlists self)) || Qltb (5 * 60) (now - playlists_fetched self)
      then
        let self := set_playlists (Some ∅) self in
        let playlists := api_current_user_playlists api (calls self) in
        let self := set_playlists (Some (by_lower_name playlists)) (log CallCurrentUserPlaylists self) in
        let self := set_playlists_fetched now self in
        (Ret (by_lower_name playlists), self)
      else (Ret (default ∅ (_playlists self)), self)
  end.

Definition query_artist (artist : string) : M result :=
  data <- search artist TArtist ;;
  match data with
  | Some ((top :: _) as items) =>
      let best := it_name top in
      let confidence :=
        (fuzzy_match best (lower artist) DAMERAU_LEVENSHTEIN_SIMILARITY * 100)%Q in
      let confidence := Qmin confidence 100 in
      ret (VNum confidence, media_of items "artist")
  | _ => ret NOTHING_FOUND
  end.

Definition query_album (album : string) : M result :=
  let by_word := " by " in
  sp <- (if (1 <? length (split by_word album))%nat
        then
          parts <- unpack2 (split by_word album) ;;
          let '(album, artist) := parts in
          ret (album, "*" ++ album ++ "* artist:" ++ artist, 10%Z)
        else ret (album, album, 0%Z)) ;;
  let '(album, album_search, bonus) := sp in
  data <- search album_search TAlbum ;;
  match data with
  | Some ((top :: _) as items) =>
      let best := lower (it_name top) in
      let confidence := best_confidence best album in
      let confidence := Z.min (confidence + bonus) 100 in
      ret (VNum (inject_Z confidence), media_of items "album")
  | _ => ret NOTHING_FOUND
  end.

Definition query_song (song : string) : M result :=
  let by_word := " by " in
  sp <- (if (1 <? length (split by_word song))%nat
        then
          parts <- unpack2 (split by_word song) ;;
          let '(song, artist) := parts in
          ret (song, "*" ++ song ++ "* artist:" ++ artist)
        else ret (song, song)) ;;
  let '(song, song_search) := sp in
  data <- search song_search TTrack ;;
  match data with
  | Some ((_ :: _) as items) =>
      let tracks := map (fun d => (best_confidence (it_name d) song, d)) items in
      let tracks := sort_by Z.ltb fst tracks in
      let tracks := rev tracks in
      match tracks with
      | [] => raise IndexError
      | first :: _ =>
          let tracks :=
            filter (fun t => Qltb (inject_Z (fst first) - (1 # 10)) (inject_Z (fst t)) = true)
                   tracks in
          let tracks := sort_by Z.ltb (fun x => it_popularity (snd x)) tracks in
          match last tracks with
          | None => raise IndexError
          | Some winner =>
              match it_artists (snd winner) with
              | [] => raise IndexError
              | artist_name :: _ =>
                  let bonus := py_int (fuzzy_match song_search artist_name TOKEN_SET_RATIO * 100) in
                  ret (VNum (inject_Z (Z.min 100 (fst winner + bonus))),
                        media_of [snd winner] "track")
              end
          end
      end
  | _ => ret NOTHING_FOUND
  end.

Definition get_best_user_playlist (playlist : string) : M result :=
  playlists <- playlists ;;
  if (0 <? size playlists)%nat
  then
    let '(key, confidence) := match_one (lower playlist) playlists TOKEN_SET_RATIO in
    if Qltb (7 # 10) confidence
    then ret (key, VNum (inject_Z (py_int (confidence * 100))))
    else ret NOTHING_FOUND
  else ret NOTHING_FOUND.

End WithFuzzyLib.
End Ocp.

(** ** src/skill_spotify/spotify.py: class SpotifyClient (unit scale) *)
Module Client.
Section WithFuzzyLib.
Context `{FuzzyLib}.

(** [SpotifyClient] calls [self.get_best_public_playlist] without defining
    it; the method is whatever the instance provides. *)
Variable get_best_public_playlist : string -> M result.

Definition NOTHING_FOUND : result := (VNone, VNum 0).
Definition DIRECT_RESPONSE_CONFIDENCE : Q := 8 # 10.
Definition MATCH_CONFIDENCE : Q := 5 # 10.

Definition best_result (results : list result) : result :=
  match results with
  | [] => NOTHING_FOUND
  | _ =>
      let results := rev results in
      default NOTHING_FOUND (last (sort_by value_ltb fst results))
  end.

Definition best_confidence (title query : string) : Q :=
  let best := lower title in
  let best_stripped := strip (strip_qualifier best) in
  Qmax (fuzzy_match best query SIMPLE_RATIO)
       (fuzzy_match best_stripped query SIMPLE_RATIO).

(** Playlists, cached for 5 minutes: the text of the property is that of
    [src/spotify.py]. *)
Definition playlists : M (gmap string Item) := Ocp.playlists.

(** [self.playlists[key]] *)
Definition playlists_getitem (key : value) : M Item :=
  d <- playlists ;;
  match key with
  | VStr k =>
      match d !! k with
      | Some p => ret p
      | None => raise KeyError
      end
  | VNone | VNum _ => raise KeyError
  | VEmptyDict | VMedia _ | VItem _ => raise TypeError   (* unhashable *)
  end.

Definition query_artist (artist : string) (bonus : Q) : M result :=
  let bonus := (bonus + (1 # 10))%Q in
  data <- search artist TArtist ;;
  match data with
  | Some ((top :: _) as items) =>
      let best := it_name top in
      let confidence := (fuzzy_match best (lower artist) SIMPLE_RATIO + bonus)%Q in
      let confidence := Qmin confidence 1 in
      ret (VNum confidence, media_of items "artist")
  | _ => ret NOTHING_FOUND
  end.

Definition query_album (album : string) (bonus : Q) : M result :=
  let by_word := " by " in
  sp <- (if (1 <? length (split by_word album))%nat
        then
          parts <- unpack2 (split by_word album) ;;
          let '(album, artist) := parts in
          ret (album, "*" ++ album ++ "* artist:" ++ artist, (bonus + (1 # 10))%Q)
        else ret (album, album, bonus)) ;;
  let '(album, album_search, bonus) := sp in
  data <- search album_search TAlbum ;;
  match data with
  | Some ((top :: _) as items) =>
      let best := lower (it_name top) in
      let confidence := best_confidence best album in
      let confidence := Qmin (confidence + bonus) 1 in
      ret (VNum confidence, media_of items "album")
  | _ => ret NOTHING_FOUND
  end.

Definition query_song (song : string) (bonus : Q) : M result :=
  let by_word := " by " in
  sp <- (if (1 <? length (split by_word song))%nat
        then
          parts <- unpack2 (split by_word song) ;;
          let '(song, artist) := parts in
          ret (song, "*" ++ song ++ "* artist:" ++ artist)
        else ret (song, song)) ;;
  let '(song, song_search) := sp in
  data <- search song_search TTrack ;;
  match data with
  | Some ((_ :: _) as items) =>
      let tracks := map (fun d => (best_confidence (it_name d) song, d)) items in
      let tracks := sort_by Qltb fst tracks in
      let tracks := rev tracks in
      match tracks with
      | [] => raise IndexError
      | first :: _ =>
          let tracks :=
            filter (fun t => Qltb (fst first - (1 # 10)) (fst t) = true) tracks in
          let tracks := sort_by Z.ltb (fun x => it_popularity (snd x)) tracks in
          match last tracks with
          | None => raise IndexError
          | Some winner =>
              ret (VNum (fst winner + bonus), media_of [snd winner] "track")
          end
      end
  | _ => ret NOTHING_FOUND
  end.

Definition get_best_user_playlist (playlist : string) : M result :=
  playlists <- playlists ;;
  if (0 <? size playlists)%nat
  then
    let '(key, confidence) := match_one (lower playlist) playlists SIMPLE_RATIO in
    if Qltb (7 # 10) confidence
    then ret (key, VNum confidence)
    else ret NOTHING_FOUND
  else ret NOTHING_FOUND.

Definition generic_query (phrase : string) (bonus : Q) : M result :=
  let results : list result := [] in
  let data := VEmptyDict in
  r <- get_best_user_playlist phrase ;;
  let '(playlist, conf) := r in
  data <- (if truthy playlist
          then
            uri <- playlists_getitem playlist ;;
            ret (VMedia {| m_data := DItem uri;
                            m_name := match playlist with VStr k => Some k | _ => None end;
                            m_type := "playlist" |})
          else ret data) ;;
  direct <- lift (exceeds conf DIRECT_RESPONSE_CONFIDENCE) ;;
  if direct then ret (conf, data) else
  matched <- lift (exceeds conf MATCH_CONFIDENCE) ;;
  let results := if matched then (results ++ [(conf, data)])%list else results in
  (* Check for artist *)
  r <- query_artist phrase 0 ;;
  let '(conf, data) := r in
  direct <- lift (exceeds conf DIRECT_RESPONSE_CONFIDENCE) ;;
  if direct then ret (conf, data) else
  matched <- lift (exceeds conf MATCH_CONFIDENCE) ;;
  let results := if matched then (results ++ [(conf, data)])%list else results in
  (* Check for track *)
  r <- query_song phrase 0 ;;
  let '(conf, data) := r in
  direct <- lift (exceeds conf DIRECT_RESPONSE_CONFIDENCE) ;;
  if direct then ret (conf, data) else
  matched <- lift (exceeds conf MATCH_CONFIDENCE) ;;
  let results := if matched then (results ++ [(conf, data)])%list else results in
  (* Check for album *)
  r <- query_album phrase 0 ;;
  let '(conf, data) := r in
  direct <- lift (exceeds conf DIRECT_RESPONSE_CONFIDENCE) ;;
  if direct then ret (conf, data) else
  matched <- lift (exceeds conf MATCH_CONFIDENCE) ;;
  let results := if matched then (results ++ [(conf, data)])%list else results in
  (* Check for public playlist *)
  r <- get_best_public_playlist phrase ;;
  let '(conf, data) := r in
  direct <- lift (exceeds conf DIRECT_RESPONSE_CONFIDENCE) ;;
  if direct then ret (conf, data) else
  matched <- lift (exceeds conf MATCH_CONFIDENCE) ;;
  let results := if matched then (results ++ [(conf, data)])%list else results in
  ret (best_result results).

End WithFuzzyLib.
End Client.

(** ** src/skill_spotify/__init__.py: module functions and class SkillSpotify *)
Module Skill.
Section WithFuzzyLib.
Context `{FuzzyLib}.

Definition NOTHING_FOUND : result := (VNone, VNum 0).
Definition DIRECT_RESPONSE_CONFIDENCE : Q := 8 # 10.
Definition MATCH_CONFIDENCE : Q := 5 # 10.

(** The second argument of [max] is written [fuzz-ratio(best_stripped,
    query)]: the first score is computed, then the name [ratio] is looked
    up and is not defined. *)
Definition best_confidence (title query : string) : M Q :=
  let best := lower title in
  let best_stripped := strip (strip_qualifier best) in
  let first := fuzz_ratio best query in
  raise NameError.

Definition fuzzy_match (compare input_string : string) : Q :=
  fuzz_ratio compare input_string.

Definition continue_playback (phrase : string) (bonus : Q) : result :=
  if String.eqb (strip phrase) "spotify"
  then (VNum 1, VMedia {| m_data := DNone; m_name := None; m_type := "continue" |})
  else NOTHING_FOUND.

(** A method that falls off its end returns [None]: the result is optional. *)
Definition query_show (podcast : string) : M (option result) :=
  data <- search podcast TShow ;;
  match data with
  | Some ((top :: _) as items) =>
      let best := lower (it_name top) in
      confidence <- best_confidence best podcast ;;
      ret (Some (VNum confidence,
                  VMedia {| m_data := DSearch items; m_name := None; m_type := "show" |}))
  | _ => ret None
  end.

Definition get_best_public_playlist (playlist : string) : M result :=
  data <- search playlist TPlaylist ;;
  match data with
  | Some (best :: _) =>
      let confidence := fuzzy_match (lower (it_name best)) playlist in
      if Qltb (7 # 10) confidence
      then ret (VNum confidence,
                 VMedia {| m_data := DItem best; m_name := Some (it_name best);
                           m_type := "playlist" |})
      else ret NOTHING_FOUND
  | _ => ret NOTHING_FOUND
  end.

(** Playlists, cached for 5 minutes, and devices, cached for 60 seconds:
    the text of both properties is that of [src/spotify.py]
    ([SpotifyConnect.get_devices] is [devices().get('devices', [])]). *)
Definition playlists : M (gmap string Item) := Ocp.playlists.
Definition devices : M (list Device) := Ocp.devices.

(** The [while True] loop of [refresh_saved_tracks]; [fuel] bounds the
    number of pages requested. *)
Fixpoint saved_tracks_loop (fuel : nat) (api : Backend) (offset : nat)
         (saved_tracks : list Item) : M (list Item) :=
  match fuel with
  | O => raise OutOfFuel
  | S fuel => fun self =>
      let batch := api_current_user_saved_tracks api (calls self) 50 offset in
      let self := log (CallSavedTracks 50 offset) self in
      let saved_tracks := (saved_tracks ++ b_items batch)%list in
      let offset := (offset + 50)%nat in
      if negb (b_next batch)
      then (Ret saved_tracks, self)
      else saved_tracks_loop fuel api offset saved_tracks self
  end.

(** Whether the loop, started with the requests [hist] behind it, meets a
    page without a successor among its first [n + 1] pages. *)
Fixpoint last_page_within (n : nat) (api : Backend) (hist : list Call)
         (offset : nat) : bool :=
  let batch := api_current_user_saved_tracks api hist 50 offset in
  if negb (b_next batch) then true
  else
    match n with
    | O => false
    | S n => last_page_within n api (hist ++ [CallSavedTracks 50 offset])%list
                              (offset + 50)%nat
    end.

(** Saved tracks are cached for 4 hours.  The method returns [[]] without
    a connection and [None] otherwise; the tracks are left in
    [self.saved_tracks]. *)
Definition refresh_saved_tracks (fuel : nat) : M (option (list Item)) := fun self =>
  match spotify self with
  | None => (Ret (Some []), self)
  | Some api =>
      let now := now self in
      if negb (truthy_list (saved_tracks self))
         || Qltb (4 * 60 * 60) (now - saved_tracks_fetched self)
      then
        match saved_tracks_loop fuel api 0 [] self with
        | (Ret tracks, self) =>
            let self := set_saved_tracks (Some tracks) self in
            let self := set_saved_tracks_fetched now self in
            (Ret None, self)
        | (Raise e, self) => (Raise e, self)
        end
      else (Ret None, self)
  end.

(** *** Lines 293-302 of [match_query_phrase]

    The resolution chain of the search handler, for a connected skill:
    the marker is removed, then continue, specific and generic queries are
    tried in turn.  [on_spotify] stands for
    [re.sub(self.translate_regex('on_spotify'), '', phrase, re.IGNORECASE)],
    whose pattern is a locale resource; [specific_query] and
    [generic_query] are the methods of the same names.  The chain yields the
    pair [(confidence, data)] from which the response is then rendered. *)
Variable on_spotify : string -> string.
Variable specific_query : string -> Q -> M (option result).
Variable generic_query : string -> Q -> M result.

Definition match_query_phrase_resolution (phrase : string) : M result :=
  let spotify_specified := contains "spotify" phrase in
  let bonus := (if spotify_specified then 1 # 10 else 0)%Q in
  let phrase := on_spotify phrase in
  let '(confidence, data) := continue_playback phrase bonus in
  if negb (truthy data)
  then
    r <- specific_query phrase bonus ;;
    match r with
    | None => raise TypeError          (* cannot unpack None *)
    | Some (confidence, data) =>
        if negb (truthy data)
        then generic_query phrase bonus
        else ret (confidence, data)
    end
  else ret (confidence, data).

End WithFuzzyLib.
End Skill.

(** ** Two callers of the playlists property

    The property of [src/spotify.py] (lines 153-165), statement by
    statement, for callers that share [self].  A caller keeps its program
    counter and its locals [now] and [playlists]; [t_calls] counts the
    requests it has sent.  The property takes no lock. *)
Inductive Pc :=
| PcConnected    (* if not self.spotify: return [] *)
| PcNow          (* now = time.time() *)
| PcTest         (* if not self._playlists or (now - self.__playlists_fetched > 5 * 60): *)
| PcClear        (* self._playlists = {} *)
| PcFetch        (* playlists = self.spotify.current_user_playlists().get('items', []) *)
| PcFill         (* for p in playlists: self._playlists[p['name'].lower()] = p *)
| PcStamp        (* self.__playlists_fetched = now *)
| PcReturn       (* return self._playlists *)
| PcDone.

Record Caller := {
  pc : Pc;
  t_now : Q;
  t_playlists : list Item;
  t_result : option (gmap string Item);
  t_calls : nat
}.

Definition enter : Caller :=
  {| pc := PcConnected; t_now := 0; t_playlists := []; t_result := None; t_calls := 0 |}.

Definition at_pc (p : Pc) (t : Caller) : Caller :=
  {| pc := p; t_now := t_now t; t_playlists := t_playlists t;
     t_result := t_result t; t_calls := t_calls t |}.

(** One statement of one caller. *)
Definition step (t : Caller) (self : Self) : Caller * Self :=
  match pc t with
  | PcConnected =>
      match spotify self with
      | None =>
          ({| pc := PcDone; t_now := t_now t; t_playlists := t_playlists t;
              t_result := Some ∅; t_calls := t_calls t |}, self)
      | Some _ => (at_pc PcNow t, self)
      end
  | PcNow =>
      ({| pc := PcTest; t_now := now self; t_playlists := t_playlists t;
          t_result := t_result t; t_calls := t_calls t |}, self)
  | PcTest =>
      if negb (truthy_dict (_playlists self))
         || Qltb (5 * 60) (t_now t - playlists_fetched self)
      then (at_pc PcClear t, self)
      else (at_pc PcReturn t, self)
  | PcClear => (at_pc PcFetch t, set_playlists (Some ∅) self)
  | PcFetch =>
      match spotify self with
      | None => (at_pc PcDone t, self)      (* unreachable: the connection was tested *)
      | Some api =>
          ({| pc := PcFill; t_now := t_now t;
              t_playlists := api_current_user_playlists api (calls self);
              t_result := t_result t; t_calls := S (t_calls t) |},
           log CallCurrentUserPlaylists self)
      end
  | PcFill =>
      (at_pc PcStamp t,
       set_playlists
         (Some (foldl (fun d p => <[lower (it_name p) := p]> d)
                      (default ∅ (_playlists self)) (t_playlists t)))
         self)
  | PcStamp => (at_pc PcReturn t, set_playlists_fetched (t_now t) self)
  | PcReturn =>
      ({| pc := PcDone; t_now := t_now t; t_playlists := t_playlists t;
          t_result := Some (default ∅ (_playlists self)); t_calls := t_calls t |}, self)
  | PcDone => (t, self)
  end.

(** Two callers and the object they share. *)
Record Config := { first : Caller; second : Caller; shared : Self }.

(** A schedule names the caller that runs next: [false] the first, [true]
    the second. *)
Definition sched_step (who : bool) (c : Config) : Config :=
  if who
  then let '(t, s) := step (second c) (shared c) in
       {| first := first c; second := t; shared := s |}
  else let '(t, s) := step (first c) (shared c) in
       {| first := t; second := second c; shared := s |}.

Definition run (schedule : list bool) (c : Config) : Config :=
  foldl (fun c who => sched_step who c) c schedule.

(** Requests for the user's playlists among the requests sent. *)
Definition is_playlist_fetch (c : Call) : bool :=
  match c with
  | CallCurrentUserPlaylists => true
  | _ => false
  end.

Definition playlist_fetches (l : list Call) : nat :=
  length (List.filter is_playlist_fetch l).

(** The statements a caller still has to run once the test found the slot
    stale, and whether its request is still to be sent. *)
Definition statements_left (p : Pc) : nat :=
  match p with
  | PcConnected => 9 | PcNow => 8 | PcTest => 7
  | PcClear => 5 | PcFetch => 4 | PcFill => 3 | PcStamp => 2 | PcReturn => 1
  | PcDone => 0
  end.

Definition past_test (p : Pc) : bool :=
  match p with
  | PcConnected | PcNow | PcTest => false
  | _ => true
  end.

Definition owes_fetch (p : Pc) : nat :=
  match p with
  | PcClear | PcFetch => 1
  | _ => 0
  end.

(** ** The lookups of [generic_query], by kind

    The five lookups in the order of the source text, each as the action
    [generic_query] performs, and the resolution in the words of the
    specification: run the lookups in order, return at once a result whose
    confidence exceeds the direct-response threshold, accumulate a result
    whose confidence exceeds the match threshold, and return the best
    accumulated result at the end. *)
Inductive LookupKind := UserPlaylist | Artist | Track | Album | PublicPlaylist.

Definition lookup_order : list LookupKind :=
  [UserPlaylist; Artist; Track; Album; PublicPlaylist].

Inductive verdict := Direct | Candidate | Discard.

Definition classify (conf : value) : outcome verdict :=
  match exceeds conf Client.DIRECT_RESPONSE_CONFIDENCE with
  | Raise e => Raise e
  | Ret true => Ret Direct
  | Ret false =>
      match exceeds conf Client.MATCH_CONFIDENCE with
      | Raise e => Raise e
      | Ret true => Ret Candidate
      | Ret false => Ret Discard
      end
  end.

(** The confidence of a result is a number above [threshold]. *)
Definition conf_above (threshold : Q) (r : result) : bool :=
  match fst r with
  | VNum c => Qltb threshold c
  | _ => false
  end.

(** The confidence of a result is [None] or a number. *)
Definition conf_comparable (r : result) : bool :=
  match fst r with
  | VNone | VNum _ => true
  | _ => false
  end.

(** A result after which [generic_query] goes on to the next lookup. *)
Definition undecided (r : result) : Prop :=
  conf_comparable r = true /\ conf_above Client.DIRECT_RESPONSE_CONFIDENCE r = false.

Section Lookups.
Context `{FuzzyLib}.
Variable get_best_public_playlist : string -> M result.

(** The user-playlist lookup with the result dictionary built from it. *)
Definition user_playlist_lookup (phrase : string) : M result :=
  r <- Client.get_best_user_playlist phrase ;;
  let '(playlist, conf) := r in
  if truthy playlist
  then
    uri <- Client.playlists_getitem playlist ;;
    ret (conf, VMedia {| m_data := DItem uri;
                         m_name := match playlist with VStr k => Some k | _ => None end;
                         m_type := "playlist" |})
  else ret (conf, VEmptyDict).

Definition lookup (phrase : string) (k : LookupKind) : M result :=
  match k with
  | UserPlaylist => user_playlist_lookup phrase
  | Artist => Client.query_artist phrase 0
  | Track => Client.query_song phrase 0
  | Album => Client.query_album phrase 0
  | PublicPlaylist => get_best_public_playlist phrase
  end.

(** Run lookups one after the other and collect what they return. *)
Fixpoint run_lookups (phrase : string) (kinds : list LookupKind) : M (list result) :=
  match kinds with
  | [] => ret []
  | k :: kinds =>
      r <- lookup phrase k ;;
      rs <- run_lookups phrase kinds ;;
      ret (r :: rs)
  end.

(** The resolution as the specification words it. *)
Fixpoint resolve_in_order (phrase : string) (kinds : list LookupKind)
         (accumulated : list result) : M result :=
  match kinds with
  | [] => ret (Client.best_result accumulated)
  | k :: kinds =>
      r <- lookup phrase k ;;
      v <- lift (classify (fst r)) ;;
      match v with
      | Direct => ret r
      | Candidate => resolve_in_order phrase kinds (accumulated ++ [r])%list
      | Discard => resolve_in_order phrase kinds accumulated
      end
  end.
End Lookups.

(** ** A scorer and a backend to run the model on

    An edit-distance similarity [1 - d / max(|a|, |b|)] stands for the
    library's scorers in the examples; on strings that differ by insertions,
    deletions and substitutions it is the normalised Damerau-Levenshtein
    similarity. *)
Module Sample.

(** The edit distance, one row of the table at a time: [prev] is the row of
    the prefix read so far, [left] the cell before the one computed. *)
Fixpoint lev_row (x : ascii) (b : string) (prev : list nat) (left : nat) : list nat :=
  match b, prev with
  | String y b', diag :: ((up :: _) as prev') =>
      let cell := if Ascii.eqb x y then diag else S (Nat.min up (Nat.min left diag)) in
      cell :: lev_row x b' prev' cell
  | _, _ => []
  end.

Fixpoint lev_rows (a b : string) (prev : list nat) : list nat :=
  match a with
  | EmptyString => prev
  | String x a' =>
      let first := S (hd 0%nat prev) in
      lev_rows a' b (first :: lev_row x b prev first)
  end.

Definition lev (a b : string) : nat :=
  default 0%nat (last (lev_rows a b (seq 0 (S (String.length b))))).

Definition similarity (a b : string) : Q :=
  let n := Nat.max (String.length a) (String.length b) in
  match n with
  | O => 1
  | S _ => 1 - (Z.of_nat (lev a b) # Pos.of_nat n)
  end.

(** The best key of a dictionary and its score. *)
Definition best_key (query : string) (choices : gmap string Item) : value * Q :=
  fold_right
    (fun kv best => if Qltb (snd best) (similarity query (fst kv))
                    then (VStr (fst kv), similarity query (fst kv)) else best)
    (VNone, 0%Q) (map_to_list choices).

#[export] Instance scorer : FuzzyLib := {|
  fuzzy_match := fun a b _ => similarity a b;
  match_one := fun q m _ => best_key q m;
  fuzz_ratio := fun a b => (similarity a b * 100)%Q
|}.

Definition item (name : string) (popularity : Z) (artist : string) : Item :=
  {| it_name := name; it_uri := "spotify:" ++ name; it_popularity := popularity;
     it_artists := [artist] |}.

(** A backend that answers every search of a kind with the same items. *)
Definition backend (artists albums tracks playlists shows my_playlists : list Item)
           (my_devices : list Device) : Backend :=
  {| api_search := fun _ _ ty =>
       Some match ty with
            | TArtist => artists | TAlbum => albums | TTrack => tracks
            | TPlaylist => playlists | TShow => shows
            end;
     api_current_user_playlists := fun _ => my_playlists;
     api_devices := fun _ => my_devices;
     api_current_user_saved_tracks := fun _ _ _ => {| b_items := tracks; b_next := false |} |}.

(** A fresh instance connected to [api] at time [t]. *)
Definition connected (api : Backend) (t : Q) : Self :=
  {| spotify := Some api; _playlists := None; playlists_fetched := 0;
     device_list := None; devices_fetched := 0;
     saved_tracks := None; saved_tracks_fetched := 0;
     now := t; calls := [] |}.

(** Two instances for the generic query: one whose artist search answers
    "Metallica", one with an artist and a track that are near matches of
    "hello". *)
Definition metallica : Self :=
  connected (backend [item "Metallica" 80 "Metallica"] [] [] [] []
                     [item "Workout" 0 ""] []) 0.

Definition hello : Self :=
  connected (backend [item "helloween" 80 "helloween"] [] [item "hallo" 5 "x"] [] []
                     [item "Workout" 0 ""] []) 0.

(** An account without devices and playlists, and one with a device, a
    playlist and two pages of saved tracks. *)
Definition nothing : Backend := backend [] [] [] [] [] [] [].

Definition empty_account : Self := connected nothing 0.

Definition phone : Device :=
  {| dev_id := "d1"; dev_name := "phone"; dev_is_active := true |}.

Definition household : Backend :=
  {| api_search := fun _ _ _ => Some [];
     api_current_user_playlists := fun _ => [item "Workout" 0 ""];
     api_devices := fun _ => [phone];
     api_current_user_saved_tracks := fun _ _ offset =>
       if (offset =? 0)%nat
       then {| b_items := [item "one" 1 "a"]; b_next := true |}
       else {| b_items := [item "two" 2 "b"]; b_next := false |} |}.

Definition home : Self := connected household 0.

(** A catalogue with one track "Hello", and one with an exact and a more
    popular near match of "the gods made heavy metal". *)
Definition adele : Self :=
  connected (backend [] [] [item "Hello" 10 "Adele"] [] [] [] []) 0.

Definition exact_title : Item := item "The Gods Made Heavy Metal" 10 "Manowar".
Definition popular_cover : Item := item "The Gods Made Heavy Metals" 90 "Cover Band".

Definition gods : Self :=
  connected (backend [] [] [exact_title; popular_cover] [] [] [] []) 0.

End Sample.


(** ** Requests and pages

    What a method may change besides the request log, and the requests of
    the page loop of [refresh_saved_tracks] in closed form. *)

(** [s'] differs from [s] in the request log at most. *)
Definition frame (s s' : Self) : Prop :=
  spotify s' = spotify s
  /\ _playlists s' = _playlists s /\ playlists_fetched s' = playlists_fetched s
  /\ device_list s' = device_list s /\ devices_fetched s' = devices_fetched s
  /\ saved_tracks s' = saved_tracks s /\ saved_tracks_fetched s' = saved_tracks_fetched s
  /\ now s' = now s.

(** One search: at most one request, of the type asked for, and nothing
    else changes. *)
Definition one_search (ty : SearchType) (s s' : Self) : Prop :=
  frame s s' /\ (calls s' = calls s \/ exists q, calls s' = (calls s ++ [CallSearch q ty])%list).

Definition log_all (cs : list Call) (s : Self) : Self :=
  foldl (fun s c => log c s) s cs.

(** The first [k] requests of the page loop started at [offset]. *)
Definition page_requests (offset k : nat) : list Call :=
  map (fun i => CallSavedTracks 50 (offset + 50 * i)) (seq 0 k).

(** The answer to request number [i] of the loop, sent after the requests
    [hist] and the [i] requests before it. *)
Definition page (api : Backend) (hist : list Call) (offset i : nat) : Batch :=
  api_current_user_saved_tracks api (hist ++ page_requests offset i) 50 (offset + 50 * i).

(** The tracks of the first [k] pages. *)
Definition pages_items (api : Backend) (hist : list Call) (offset k : nat) : list Item :=
  concat (map (fun i => b_items (page api hist offset i)) (seq 0 k)).

(** ** A scorer with scores in the unit interval

    The edit-distance similarity of [Sample], cut off at 0 and 1. *)
Module Bounded.

Definition similarity (a b : string) : Q := Qmax 0 (Qmin 1 (Sample.similarity a b)).

Definition best_key (query : string) (choices : gmap string Item) : value * Q :=
  fold_right
    (fun kv best => if Qltb (snd best) (similarity query (fst kv))
                    then (VStr (fst kv), similarity query (fst kv)) else best)
    (VNone, 0%Q) (map_to_list choices).

Definition scorer : FuzzyLib := {|
  fuzzy_match := fun a b _ => similarity a b;
  match_one := fun q m _ => best_key q m;
  fuzz_ratio := fun a b => (similarity a b * 100)%Q
|}.

End Bounded.

(** ** src/skill_spotify/spotify.py: credentials and the Spotify Connect client

    [OVOSSpotifyCredentials], the decorator [refresh_spotify_oauth] and the
    methods of [SpotifyConnect] that decide something.  Answers of the token
    service and of the Web API are Python objects read from JSON. *)
Module Connect.

#[warnings="-register-all"]
Inductive json :=
| JNull                               (* None *)
| JBool (b : bool)
| JNum (q : Q)
| JStr (s : string)
| JList (l : list json)
| JDict (d : list (string * json)).   (* the items of a dictionary, each key once *)

(** Truth value of an object. *)
Definition jtruthy (j : json) : bool :=
  match j with
  | JNull => false
  | JBool b => b
  | JNum q => negb (Qeq_bool q 0)
  | JStr s => negb (String.eqb s EmptyString)
  | JList l => match l with [] => false | _ :: _ => true end
  | JDict d => match d with [] => false | _ :: _ => true end
  end.

Fixpoint assoc (key : string) (d : list (string * json)) : option json :=
  match d with
  | [] => None
  | (k, v) :: d' => if String.eqb key k then Some v else assoc key d'
  end.

(** What is raised here: an exception of the language, an HTTP error with
    the status code of its response, or the skill's own error. *)
Inductive failure :=
| Py (e : exn)
| HTTPError (status_code : Z)
| SpotifyNotAuthorizedError.

Inductive reply (A : Type) :=
| Answer (a : A)
| Fails (e : failure).
Arguments Answer {A} a.
Arguments Fails {A} e.

(** [x[key]] for a string [key]: only a dictionary can be subscripted by a
    string. *)
Definition getitem (x : json) (key : string) : reply json :=
  match x with
  | JDict d =>
      match assoc key d with
      | Some v => Answer v
      | None => Fails (Py KeyError)
      end
  | _ => Fails (Py TypeError)
  end.

(** [x[0]] *)
Definition getitem0 (x : json) : reply json :=
  match x with
  | JList (v :: _) => Answer v
  | JList [] => Fails (Py IndexError)
  | JStr (String c _) => Answer (JStr (String c EmptyString))
  | JStr EmptyString => Fails (Py IndexError)
  | JDict _ => Fails (Py KeyError)        (* the keys are strings *)
  | _ => Fails (Py TypeError)
  end.

(** [x.get(key)] *)
Definition jget (x : json) (key : string) : reply json :=
  match x with
  | JDict d => Answer (default JNull (assoc key d))
  | _ => Fails (Py AttributeError)
  end.

(** Requests, to the token service and to the Web API. *)
Inductive Request :=
| ReqToken                                             (* get_oauth_token(OAUTH_TOKEN_ID) *)
| ReqDevices                                           (* devices() *)
| ReqPlaying                                           (* current_user_playing_track() *)
| ReqTransfer (device_id : string) (force_play : bool) (* transfer_playback(...) *)
| ReqShuffle (state : bool).                           (* shuffle(state) *)

(** The services.  An answer may depend on the requests sent so far.
    [web_devices] is [devices().get('devices', [])]. *)
Record Account := {
  oauth_token : list Request -> reply json;
  web_devices : list Request -> reply (list Device);
  playing_track : list Request -> reply json;
  web_command : list Request -> Request -> reply unit
}.

(** The credentials manager ([self.access_token], [self.expiration_time]),
    the clock read by [time.time()] and the requests sent. *)
Record Conn := {
  access_token : json;
  expiration_time : json;
  clock : Q;
  sent : list Request
}.

Definition set_access_token (v : json) (c : Conn) : Conn :=
  {| access_token := v; expiration_time := expiration_time c;
     clock := clock c; sent := sent c |}.

Definition set_expiration_time (v : json) (c : Conn) : Conn :=
  {| access_token := access_token c; expiration_time := v;
     clock := clock c; sent := sent c |}.

Definition set_clock (t : Q) (c : Conn) : Conn :=
  {| access_token := access_token c; expiration_time := expiration_time c;
     clock := t; sent := sent c |}.

Definition C (A : Type) : Type := Conn -> reply A * Conn.

Definition cret {A} (a : A) : C A := fun c => (Answer a, c).

Definition cbind {A B} (m : C A) (f : A -> C B) : C B := fun c =>
  match m c with
  | (Answer a, c') => f a c'
  | (Fails e, c') => (Fails e, c')
  end.

Local Notation "x <~ m ;; k" := (cbind m (fun x => k))
  (at level 100, m at next level, k at level 200, right associativity).

Definition cfail {A} (e : failure) : C A := fun c => (Fails e, c).

Definition clift {A} (r : reply A) : C A := fun c => (r, c).

(** One request: the answer depends on what was sent before. *)
Definition request {A} (r : Request) (answer : list Request -> reply A) : C A := fun c =>
  (answer (sent c),
   {| access_token := access_token c; expiration_time := expiration_time c;
      clock := clock c; sent := sent c ++ [r] |}).

Section WithAccount.
Variable acct : Account.

(** [OVOSSpotifyCredentials.get_token]: get token with a single retry. *)
Definition get_token : C json := fun c =>
  let retry := false in
  let d := JNull in
  let '(first, c) := request ReqToken (oauth_token acct) c in
  let attempt : reply (bool * json) :=
    match first with
    | Answer d => Answer (retry, d)
    | Fails (HTTPError status_code) =>
        if (status_code =? 404)%Z then Fails SpotifyNotAuthorizedError
        else if (status_code =? 401)%Z then Fails SpotifyNotAuthorizedError
        else Answer (true, d)
    | Fails e => Fails e
    end in
  match attempt with
  | Fails e => (Fails e, c)
  | Answer (retry, d) =>
      let '(second, c) :=
        if retry then request ReqToken (oauth_token acct) c else (Answer d, c) in
      match second with
      | Fails e => (Fails e, c)
      | Answer d =>
          if negb (jtruthy d) then (Fails SpotifyNotAuthorizedError, c)
          else (Answer d, c)
      end
  end.

(** [time.time() > self.expiration_time] *)
Definition after (now : Q) (expiration : json) : reply bool :=
  match expiration with
  | JNum t => Answer (Qltb t now)
  | JBool b => Answer (Qltb (if b then 1 else 0) now)
  | _ => Fails (Py TypeError)
  end.

(** [OVOSSpotifyCredentials.get_access_token] *)
Definition get_access_token (force : bool) : C json := fun c =>
  let stale : reply bool :=
    if negb (jtruthy (access_token c)) then Answer true
    else
      match after (clock c) (expiration_time c) with
      | Fails e => Fails e
      | Answer true => Answer true
      | Answer false => Answer force
      end in
  match stale with
  | Fails e => (Fails e, c)
  | Answer false => (Answer (access_token c), c)
  | Answer true =>
      (d <~ get_token ;;
       token <~ clift (getitem d "access_token") ;;
       fun c =>
         let c := set_access_token token c in
         (* get expiration time from message, if missing assume 1 hour *)
         match jget d "expiration" with
         | Fails e => (Fails e, c)
         | Answer expiration =>
             let c :=
               set_expiration_time
                 (if jtruthy expiration then expiration else JNum (clock c + 3600)) c in
             (Answer (access_token c), c)
         end) c
  end.

(** The decorator [refresh_spotify_oauth]: on an HTTP error 401 the token
    is refreshed and the function is called once more. *)
Definition refresh_spotify_oauth {A} (func : C A) : C A := fun c =>
  match func c with
  | (Fails (HTTPError status_code), c) =>
      if (status_code =? 401)%Z
      then (_ <~ get_access_token true ;; func) c
      else (Fails (HTTPError status_code), c)
  | other => other
  end.

(** [SpotifyConnect.get_devices] *)
Definition get_devices : C (list Device) :=
  refresh_spotify_oauth (request ReqDevices (web_devices acct)).

(** [SpotifyConnect.get_device]: the first device with the id, or [None]. *)
Fixpoint first_with_id (device : string) (devices : list Device) : option Device :=
  match devices with
  | [] => None
  | d :: devices => if String.eqb (dev_id d) device then Some d else first_with_id device devices
  end.

Definition get_device (device : string) : C (option Device) :=
  devices <~ get_devices ;;
  cret (first_with_id device devices).

(** [SpotifyConnect.status] *)
Definition status : C json :=
  refresh_spotify_oauth (request ReqPlaying (playing_track acct)).

(** The body of [SpotifyConnect.is_playing]: whatever is raised inside is
    caught and answered [False].  [device] is [None] for playback on any
    device. *)
Definition is_playing_body (device : option string) : C json := fun c =>
  let attempt :=
    (status <~ status ;;
     playing <~ clift (getitem status "is_playing") ;;
     match device with
     | None => cret playing
     | Some device =>
         if negb (jtruthy playing) then cret playing
         else
           (* Verify it is playing on the given device *)
           dev <~ get_device device ;;
           cret match dev with
                | None => JNull
                | Some dev => JBool (dev_is_active dev)
                end
     end) c in
  match attempt with
  | (Answer v, c) => (Answer v, c)
  | (Fails _, c) => (Answer (JBool false), c)   (* assume not playing *)
  end.

Definition is_playing (device : option string) : C json :=
  refresh_spotify_oauth (is_playing_body device).

(** [SpotifyConnect.transfer_playback] and [SpotifyConnect.shuffle] *)
Definition transfer_playback (device_id : string) (force_play : bool) : C unit :=
  refresh_spotify_oauth
    (request (ReqTransfer device_id force_play)
             (fun hist => web_command acct hist (ReqTransfer device_id force_play))).

Definition shuffle (state : bool) : C unit :=
  refresh_spotify_oauth
    (request (ReqShuffle state) (fun hist => web_command acct hist (ReqShuffle state))).

End WithAccount.

(** [status_info], the static method of [SpotifyConnect] and the function of
    [src/skill_spotify/__init__.py]: each of the three lookups has its own
    [try] and falls back to ['unknown']. *)
Definition or_unknown (r : reply json) : json :=
  match r with
  | Answer v => v
  | Fails _ => JStr "unknown"
  end.

Definition rbind {A B} (r : reply A) (f : A -> reply B) : reply B :=
  match r with
  | Answer a => f a
  | Fails e => Fails e
  end.

Definition status_info (status : json) : json * json * json :=
  let artist :=
    or_unknown (rbind (getitem status "item") (fun item =>
                rbind (getitem item "artists") (fun artists =>
                rbind (getitem0 artists) (fun first =>
                getitem first "name")))) in
  let track :=
    or_unknown (rbind (getitem status "item") (fun item => getitem item "name")) in
  let album :=
    or_unknown (rbind (getitem status "item") (fun item =>
                rbind (getitem item "album") (fun album =>
                getitem album "name"))) in
  (track, artist, album).

(** The number of requests equal to [r] among [l]. *)
Definition is_request (r x : Request) : bool :=
  match r, x with
  | ReqToken, ReqToken | ReqDevices, ReqDevices | ReqPlaying, ReqPlaying => true
  | ReqTransfer d f, ReqTransfer d' f' => String.eqb d d' && Bool.eqb f f'
  | ReqShuffle s, ReqShuffle s' => Bool.eqb s s'
  | _, _ => false
  end.

Definition count_requests (r : Request) (l : list Request) : nat :=
  length (List.filter (is_request r) l).

End Connect.

(** ** An account to run the Connect client on

    The token service answers a token without a time of expiry; the Web API
    refuses the first request for the devices with 401 until a token has
    been asked for, then answers one active device. *)
Module ConnectSample.
Import Connect.

Definition token : list (string * json) := [("access_token", JStr "fresh")].

Definition account : Account :=
  {| oauth_token := fun _ => Answer (JDict token);
     web_devices := fun hist =>
       match count_requests ReqToken hist with
       | O => Fails (HTTPError 401)
       | S _ => Answer [Sample.phone]
       end;
     playing_track := fun _ =>
       Answer (JDict [("is_playing", JBool true); ("item", JNull)]);
     web_command := fun _ _ => Answer tt |}.

(** The credentials before the first token, at time 10. *)
Definition fresh : Conn :=
  {| access_token := JNull; expiration_time := JNull; clock := 10; sent := [] |}.

(** A session whose token the Web API no longer accepts. *)
Definition session : Conn :=
  {| access_token := JStr "old"; expiration_time := JNum 5000; clock := 10; sent := [] |}.

End ConnectSample.

(** ** src/__init__.py: class SpotifySkill

    The search handlers of the skill.  A generator is run to its end: what
    it yields, in order, how it ends, and the state it leaves.  The track
    listings of the Web API ([artist_top_tracks], [album_tracks],
    [playlist_tracks]) answer by the id alone and are not entered in the
    request log; of a listed item the handlers read the keys of [Item], its
    last image and its duration. *)
Module OcpSkill.

(** [s.replace(old, '')] for a non-empty [old]: [skip] counts the characters
    of an occurrence just recognised that are still to be dropped. *)
Fixpoint remove_go (old : string) (skip : nat) (s : string) : string :=
  match s with
  | EmptyString => EmptyString
  | String c s' =>
      match skip with
      | S k => remove_go old k s'
      | O =>
          if String.prefix old s
          then remove_go old (String.length old - 1) s'
          else String c (remove_go old 0 s')
      end
  end.

Definition remove (old s : string) : string := remove_go old 0 s.

(** An entry of [config_core["Audio"]["backends"]]: the keys may be
    missing. *)
Record AudioBackend := {
  ab_identifier : option string;   (* d["identifier"] *)
  ab_type : option string;         (* d.get("type", "other") *)
  ab_active : option bool          (* d.get('active', True) *)
}.

Inductive MediaType := GENERIC | MUSIC | OTHER_MEDIA.
Inductive PlaybackType := AUDIO_SERVICE.

Record MediaEntry := {
  me_media_type : MediaType;
  me_uri : string;
  me_title : string;
  me_playback : PlaybackType;
  me_image : string;
  me_skill_id : string;
  me_artist : option string;
  me_match_confidence : value;
  me_length : Q;
  me_skill_icon : string
}.

(** A [Playlist] is a list of entries with attributes of its own. *)
Record Playlist := {
  pl_title : string;
  pl_image : string;
  pl_match_confidence : value;
  pl_media_type : MediaType;
  pl_playback : PlaybackType;
  pl_skill_id : string;
  pl_skill_icon : string;
  pl_entries : list MediaEntry
}.

Definition set_pl_match_confidence (v : value) (p : Playlist) : Playlist :=
  {| pl_title := pl_title p; pl_image := pl_image p; pl_match_confidence := v;
     pl_media_type := pl_media_type p; pl_playback := pl_playback p;
     pl_skill_id := pl_skill_id p; pl_skill_icon := pl_skill_icon p;
     pl_entries := pl_entries p |}.

Definition set_me_match_confidence (v : value) (e : MediaEntry) : MediaEntry :=
  {| me_media_type := me_media_type e; me_uri := me_uri e; me_title := me_title e;
     me_playback := me_playback e; me_image := me_image e; me_skill_id := me_skill_id e;
     me_artist := me_artist e; me_match_confidence := v; me_length := me_length e;
     me_skill_icon := me_skill_icon e |}.

(** The track listings of the Web API. *)
Record Listings := {
  artist_top_tracks : string -> list Item;   (* artist_top_tracks(id)["tracks"] *)
  album_tracks : string -> list Item;        (* album_tracks(id)["items"] *)
  playlist_tracks : string -> list Item      (* t["track"] for t in playlist_tracks(id)["items"] *)
}.

(** A generator run to its end. *)
Definition Gen (A : Type) : Type := Self -> (list A * outcome unit) * Self.

(** A number is needed: [min(100, v)] and [v + base_score]. *)
Definition num (v : value) : outcome Q :=
  match v with
  | VNum q => Ret q
  | _ => Raise TypeError
  end.

Section WithSkill.
Context `{FuzzyLib}.
Variable backends : list AudioBackend.       (* config_core["Audio"]["backends"].values() *)
Variable listings : Listings.
Variable image : Item -> string.             (* x["images"][-1]["url"] if x["images"] else "" *)
Variable duration_ms : Item -> Q.            (* t["duration_ms"] *)
Variables skill_id skill_icon : string.
Variable voc_match : string -> bool.         (* self.voc_match(phrase, "Spotify") *)
Variable remove_voc : string -> string.      (* self.remove_voc(phrase, "Spotify") *)

Definition is_spotify_backend (d : AudioBackend) : bool :=
  contains "spotify" (default "other" (ab_type d)) && default true (ab_active d).

(** [[d["identifier"] for d in backends.values() if ...]] *)
Fixpoint configured_devices (ds : list AudioBackend) : outcome (list string) :=
  match ds with
  | [] => Ret []
  | d :: ds =>
      if is_spotify_backend d
      then
        match ab_identifier d with
        | None => Raise KeyError
        | Some identifier =>
            match configured_devices ds with
            | Ret rest => Ret (identifier :: rest)
            | Raise e => Raise e
            end
        end
      else configured_devices ds
  end.

Definition has_configured_players : M bool :=
  configured <- lift (configured_devices backends) ;;
  match configured with
  | [] => ret false
  | _ :: _ =>
      devices <- Ocp.devices ;;
      ret (existsb (fun d => existsb (String.eqb (dev_name d)) configured) devices)
  end.

(** The methods of [SpotifyClient] that list tracks. *)
Definition connection : M unit := fun s =>
  match spotify s with
  | None => (Raise AttributeError, s)
  | Some _ => (Ret tt, s)
  end.

Definition tracks_from_playlist (playlist_id : string) : M (list Item) :=
  let playlist_id := remove "spotify:playlist:" playlist_id in
  _ <- connection ;; ret (playlist_tracks listings playlist_id).

Definition tracks_from_artist (artist_id : string) : M (list Item) :=
  _ <- connection ;; ret (artist_top_tracks listings artist_id).

Definition tracks_from_album (artist_id : string) : M (list Item) :=
  _ <- connection ;; ret (album_tracks listings artist_id).

(** [for t in tracks: playlist.append(entry(t)); if len(playlist) > 25: break]:
    the entries are built one by one, and building one may raise. *)
Fixpoint fill (entry : Item -> outcome MediaEntry) (playlist : list MediaEntry)
         (tracks : list Item) : list MediaEntry * outcome unit :=
  match tracks with
  | [] => (playlist, Ret tt)
  | t :: tracks =>
      match entry t with
      | Raise e => (playlist, Raise e)
      | Ret e =>
          let playlist := (playlist ++ [e])%list in
          if (25 <? length playlist)%nat then (playlist, Ret tt)
          else fill entry playlist tracks
      end
  end.

Definition new_playlist (title : string) (img : string) (score : value) : Playlist :=
  {| pl_title := title; pl_image := img; pl_match_confidence := score;
     pl_media_type := MUSIC; pl_playback := AUDIO_SERVICE;
     pl_skill_id := skill_id; pl_skill_icon := skill_icon; pl_entries := [] |}.

Definition with_entries (entries : list MediaEntry) (p : Playlist) : Playlist :=
  {| pl_title := pl_title p; pl_image := pl_image p;
     pl_match_confidence := pl_match_confidence p;
     pl_media_type := pl_media_type p; pl_playback := pl_playback p;
     pl_skill_id := pl_skill_id p; pl_skill_icon := pl_skill_icon p;
     pl_entries := entries |}.

(** [MediaEntry(..., match_confidence=min(100, score), ...)] *)
Definition new_entry (t : Item) (img : string) (artist : option string) (score : value)
  : outcome MediaEntry :=
  match num score with
  | Raise e => Raise e
  | Ret q =>
      Ret {| me_media_type := MUSIC; me_uri := it_uri t; me_title := it_name t;
             me_playback := AUDIO_SERVICE; me_image := img; me_skill_id := skill_id;
             me_artist := artist; me_match_confidence := VNum (Qmin 100 q);
             me_length := (duration_ms t / 1000)%Q; me_skill_icon := skill_icon |}
  end.

(** [t["artists"][0]["name"]] *)
Definition first_artist (t : Item) : outcome string :=
  match it_artists t with
  | [] => Raise IndexError
  | a :: _ => Ret a
  end.

(** The items of [data["data"][kind]["items"]] for a truthy [data]. *)
Definition items_of (data : value) : outcome (list Item) :=
  match data with
  | VMedia {| m_data := DSearch items |} => Ret items
  | VMedia _ => Raise TypeError
  | _ => Raise TypeError
  end.

(** The loop over the artists (albums) of a response: one playlist each. *)
Fixpoint playlists_of (build : Item -> M (list MediaEntry * outcome unit))
         (title : Item -> string) (score : value) (items : list Item) : Gen Playlist :=
  fun s =>
    match items with
    | [] => (([], Ret tt), s)
    | x :: items =>
        let playlist := new_playlist (title x) (image x) score in
        match build x s with
        | (Raise e, s) => (([], Raise e), s)
        | (Ret (entries, Raise e), s) => (([], Raise e), s)
        | (Ret (entries, Ret _), s) =>
            let '((rest, ending), s) := playlists_of build title score items s in
            ((with_entries entries playlist :: rest, ending), s)
        end
    end.

Definition search_artists (query : string) : Gen Playlist := fun s =>
  match Ocp.query_artist query s with
  | (Raise e, s) => (([], Raise e), s)
  | (Ret (score, data), s) =>
      if negb (truthy data) then (([], Ret tt), s)
      else
        match items_of data with
        | Raise e => (([], Raise e), s)
        | Ret items =>
            playlists_of
              (fun artist =>
                 tracks <- tracks_from_artist (it_uri artist) ;;
                 ret (fill (fun t => new_entry t (image artist) (Some (it_name artist)) score)
                           [] tracks))
              (fun artist => it_name artist ++ " (Featured Tracks)") score items s
        end
  end.

Definition search_albums (query : string) : Gen Playlist := fun s =>
  match Ocp.query_album query s with
  | (Raise e, s) => (([], Raise e), s)
  | (Ret (score, data), s) =>
      if negb (truthy data) then (([], Ret tt), s)
      else
        match items_of data with
        | Raise e => (([], Raise e), s)
        | Ret items =>
            playlists_of
              (fun album =>
                 tracks <- tracks_from_album (it_uri album) ;;
                 ret (fill (fun t =>
                              match first_artist t with
                              | Raise e => Raise e
                              | Ret artist => new_entry t (image album) (Some artist) score
                              end)
                           [] tracks))
              (fun album => it_name album ++ " (Full Album)") score items s
        end
  end.

(** [for track in items: yield MediaEntry(...)] *)
Fixpoint entries_of (score : value) (items : list Item) : list MediaEntry * outcome unit :=
  match items with
  | [] => ([], Ret tt)
  | track :: items =>
      match new_entry track (image track) None score with
      | Raise e => ([], Raise e)
      | Ret entry =>
          let '(rest, ending) := entries_of score items in (entry :: rest, ending)
      end
  end.

Definition search_tracks (query : string) : Gen MediaEntry := fun s =>
  match Ocp.query_song query s with
  | (Raise e, s) => (([], Raise e), s)
  | (Ret (score, data), s) =>
      if negb (truthy data) then (([], Ret tt), s)
      else
        match items_of data with
        | Raise e => (([], Raise e), s)
        | Ret items => (entries_of score items, s)
        end
  end.

(** [data, score = self.spotify.get_best_user_playlist(query)]: the first
    component is the playlist, a dictionary when it is truthy. *)
Definition search_playlists (query : string) : Gen Playlist := fun s =>
  match Ocp.get_best_user_playlist query s with
  | (Raise e, s) => (([], Raise e), s)
  | (Ret (data, score), s) =>
      if negb (truthy data) then (([], Ret tt), s)
      else
        match data with
        | VItem data =>
            let playlist := new_playlist (it_name data) (image data) score in
            match tracks_from_playlist (it_uri data) s with
            | (Raise e, s) => (([], Raise e), s)
            | (Ret tracks, s) =>
                match fill (fun t =>
                              match first_artist t with
                              | Raise e => Raise e
                              | Ret artist => new_entry t (image data) (Some artist) score
                              end) [] tracks with
                | (entries, Raise e) => (([], Raise e), s)
                | (entries, Ret _) => (([with_entries entries playlist], Ret tt), s)
                end
            end
        | VMedia _ => (([], Raise KeyError), s)     (* data["uri"] *)
        | _ => (([], Raise TypeError), s)
        end
  end.

Definition base_score (phrase : string) (media_type : MediaType) : Q :=
  let base_score := 0%Q in
  let base_score := if voc_match phrase then 30%Q else base_score in
  match media_type with
  | MUSIC => (base_score + 15)%Q
  | _ => base_score
  end.

(** [res.match_confidence += base_score;
     res.match_confidence = min(100, res.match_confidence); yield res]
    for the results of a generator, as far as it gets. *)
Fixpoint relay {A} (confidence : A -> value) (update : value -> A -> A) (base : Q)
         (results : list A) (ending : outcome unit) : list A * outcome unit :=
  match results with
  | [] => ([], ending)
  | res :: results =>
      match num (confidence res) with
      | Raise e => ([], Raise e)
      | Ret q =>
          let res := update (VNum (Qmin 100 (q + base))) res in
          let '(rest, ending) := relay confidence update base results ending in
          (res :: rest, ending)
      end
  end.

(** The text the four handlers share: the check for players, the base
    score, the phrase without the vocabulary, and the loop that raises the
    confidence of each result and yields it.  In three of them the loop is
    inside a [try] whose handler logs the exception ([guarded]); the artist
    handler lets it through. *)
Definition handler {A} (confidence : A -> value) (update : value -> A -> A)
           (search : string -> Gen A) (guarded : bool)
           (phrase : string) (media_type : MediaType) : Gen A := fun s =>
  match has_configured_players s with
  | (Raise e, s) => (([], Raise e), s)
  | (Ret false, s) => (([], Ret tt), s)
  | (Ret true, s) =>
      let base := base_score phrase media_type in
      let phrase := remove_voc phrase in
      let '((results, ending), s) := search phrase s in
      let '(yielded, ending) := relay confidence update base results ending in
      ((yielded, if guarded then Ret tt else ending), s)
  end.

Definition search_spotify_artist : string -> MediaType -> Gen Playlist :=
  handler pl_match_confidence set_pl_match_confidence search_artists false.

Definition search_spotify_album : string -> MediaType -> Gen Playlist :=
  handler pl_match_confidence set_pl_match_confidence search_albums true.

Definition search_spotify_tracks : string -> MediaType -> Gen MediaEntry :=
  handler me_match_confidence set_me_match_confidence search_tracks true.

Definition search_spotify_playlists : string -> MediaType -> Gen Playlist :=
  handler pl_match_confidence set_pl_match_confidence search_playlists true.

(** What [search_artists] builds for an artist and a numeric score [c]: the
    entry of a track and the playlist of the first 26 top tracks. *)
Definition featured_entry (artist : Item) (c : Q) (t : Item) : MediaEntry :=
  {| me_media_type := MUSIC; me_uri := it_uri t; me_title := it_name t;
     me_playback := AUDIO_SERVICE; me_image := image artist; me_skill_id := skill_id;
     me_artist := Some (it_name artist); me_match_confidence := VNum (Qmin 100 c);
     me_length := (duration_ms t / 1000)%Q; me_skill_icon := skill_icon |}.

Definition featured_playlist (c : Q) (artist : Item) : Playlist :=
  {| pl_title := it_name artist ++ " (Featured Tracks)"; pl_image := image artist;
     pl_match_confidence := VNum c; pl_media_type := MUSIC; pl_playback := AUDIO_SERVICE;
     pl_skill_id := skill_id; pl_skill_icon := skill_icon;
     pl_entries := map (featured_entry artist c)
                       (take 26 (artist_top_tracks listings (it_uri artist))) |}.

End WithSkill.
End OcpSkill.

(** ** A configuration to run the handlers on *)
Module OcpSkillSample.
Import OcpSkill.

(** Two audio backends: the spotify player named phone, and another one. *)
Definition speaker : AudioBackend :=
  {| ab_identifier := Some "phone"; ab_type := Some "ovos_spotify"; ab_active := None |}.

Definition vlc : AudioBackend :=
  {| ab_identifier := Some "vlc"; ab_type := Some "vlc"; ab_active := Some true |}.

(** Every artist has thirty top tracks. *)
Definition listings : Listings :=
  {| artist_top_tracks := fun _ => replicate 30 (Sample.item "Track" 1 "Metallica");
     album_tracks := fun _ => [];
     playlist_tracks := fun _ => [] |}.

Definition image (x : Item) : string := "".
Definition duration_ms (x : Item) : Q := 1000.

Definition catalogue : Backend :=
  Sample.backend [Sample.item "Metallica" 80 "Metallica"] [] [] [] [] [] [Sample.phone].

(** An instance with the device phone online. *)
Definition online : Self := Sample.connected catalogue 0.

Definition names_spotify (phrase : string) : bool := contains "spotify" phrase.
Definition keep (phrase : string) : string := phrase.

End OcpSkillSample.

(** ** src/skill_spotify/__init__.py: the search handler, the idle check and
       the regular expressions of class SkillSpotify *)
Module Legacy.

Inductive Playback := AUDIO.

(** The dictionary of a response. *)
Record Response := {
  r_match_confidence : value;
  r_uri : string;
  r_media_type : OcpSkill.MediaType;
  r_playback : Playback;
  r_skill_icon : string
}.

(** [data.get('type')]: [data] is truthy here.  A result dictionary has its
    type; an item of the Web API is a dictionary too and has no key ['data'],
    so that the response cannot be built from it whatever its type is. *)
Definition get_type (data : value) : outcome (option string) :=
  match data with
  | VMedia m => Ret (Some (m_type m))
  | VItem _ => Ret None
  | _ => Raise AttributeError
  end.

(** [data['data']['uri']] *)
Definition data_uri (data : value) : outcome string :=
  match data with
  | VMedia m =>
      match m_data m with
      | DNone => Raise TypeError           (* None is not subscriptable *)
      | DSearch _ => Raise KeyError        (* a search response has no key 'uri' *)
      | DItem i => Ret (it_uri i)
      end
  | VItem _ => Raise KeyError
  | _ => Raise TypeError
  end.

Definition playable : list string :=
  ["saved_tracks"; "album"; "artist"; "track"; "playlist"; "show"].

Section WithSkill.
Context `{FuzzyLib}.
Variable skill_icon : string.
Variable on_spotify : string -> string.
Variable specific_query : string -> Q -> M (option result).
Variable generic_query : string -> Q -> M result.

(** Handler for common play framework Query. *)
Definition match_query_phrase (phrase : string) : M (option (list Response)) := fun self =>
  (* Not ready to play *)
  match spotify self with
  | None =>
      if contains "spotify" phrase
      then (Raise UnboundLocalError, self)    (* level is read before it is assigned *)
      else (Ret None, self)
  | Some _ =>
      let spotify_specified := contains "spotify" phrase in
      (r <- Skill.match_query_phrase_resolution on_spotify specific_query generic_query phrase ;;
       let '(confidence, data) := r in
       if truthy data
       then
         type <- lift (get_type data) ;;
         let level :=
           if existsb (fun t => bool_decide (type = Some t)) playable
           then (if spotify_specified then VNum 100 else confidence)
           else if bool_decide (type = Some "continue")
           then (if spotify_specified then VNum 100 else VNum 70)
           else VNum 70 in
         uri <- lift (data_uri data) ;;
         ret (Some [{| r_match_confidence := level;
                       r_uri := "spotify://" ++ uri;
                       r_media_type := OcpSkill.MUSIC;
                       r_playback := AUDIO;
                       r_skill_icon := skill_icon |}])
       else ret None) self
  end.

End WithSkill.

(** *** The idle check of auto ducking *)

Inductive Event :=
| CancelIdleCheck    (* self.cancel_scheduled_event('IdleCheck') *)
| Resume.            (* self.resume() *)

Record Idle := {
  ducking : bool;          (* self.ducking *)
  idle_count : Z;          (* self.idle_count *)
  events : list Event
}.

(** [check_for_idle]; [active] is what
    [self.enclosure.display_manager.get_active()] answers. *)
Definition check_for_idle (active : string) (st : Idle) : Idle :=
  if negb (ducking st)
  then {| ducking := ducking st; idle_count := idle_count st;
          events := events st ++ [CancelIdleCheck] |}
  else
    if negb (String.eqb active "") || String.eqb active "SpotifySkill"
    then
      (* No activity, start to fall asleep *)
      let st := {| ducking := ducking st; idle_count := idle_count st + 1;
                   events := events st |} in
      if (5 <=? idle_count st)%Z
      then
        (* Resume playback after 5 seconds of being idle *)
        {| ducking := false; idle_count := idle_count st;
           events := events st ++ [CancelIdleCheck; Resume] |}
      else st
    else {| ducking := ducking st; idle_count := 0; events := events st |}.

(** The repeating event: one check for each answer of the display. *)
Definition idle_checks (actives : list string) (st : Idle) : Idle :=
  foldl (fun st active => check_for_idle active st) st actives.

Definition resumes (l : list Event) : nat :=
  length (List.filter (fun e => match e with Resume => true | _ => false end) l).

(** *** Regular expressions from the locale

    [self.regexes], and the resource files opened so far: what a file holds
    may depend on when it is opened. *)
Record Resources := {
  regexes : gmap string string;
  opened : list string
}.

Section WithFiles.
Variable find_resource : string -> option string.      (* self.find_resource(name) *)
Variable read : list string -> string -> string.       (* open(path).read() *)

Definition translate_regex (regex : string) : Resources -> outcome string * Resources :=
  fun self =>
    let self :=
      match regexes self !! regex with
      | Some _ => self
      | None =>
          match find_resource (regex ++ ".regex") with
          | Some path =>
              if negb (String.eqb path "")
              then
                let string := strip (read (opened self) path) in
                {| regexes := <[regex := string]> (regexes self);
                   opened := opened self ++ [path] |}
              else self
          | None => self
          end
      end in
    match regexes self !! regex with
    | Some string => (Ret string, self)
    | None => (Raise KeyError, self)
    end.

End WithFiles.
End Legacy.

(** ** Instances to run the search handler on *)
Module LegacySample.

(** A skill that is not connected. *)
Definition offline : Self :=
  {| spotify := None; _playlists := None; playlists_fetched := 0;
     device_list := None; devices_fetched := 0;
     saved_tracks := None; saved_tracks_fetched := 0;
     now := 0; calls := [] |}.

Definition workout : Item := Sample.item "Workout" 0 "".

(** A specific query that finds the playlist Workout, and queries that are
    not to be consulted. *)
Definition finds_workout : string -> Q -> M (option result) :=
  fun _ _ => ret (Some (VNum (9 # 10),
                        VMedia {| m_data := DItem workout; m_name := Some "Workout";
                                  m_type := "playlist" |})).

Definition unused_specific : string -> Q -> M (option result) :=
  fun _ _ => raise AttributeError.

Definition unused_generic : string -> Q -> M result :=
  fun _ _ => raise AttributeError.

Definition keep (phrase : string) : string := phrase.

End LegacySample.
(** * Facts *)

Local Open Scope list_scope.

(** ** Comparisons on rationals *)

Lemma Qltb_lt (x y : Q) : Qltb x y = true <-> (x < y)%Q.
Proof.
  unfold Qltb. rewrite negb_true_iff, <- not_true_iff_false, Qle_bool_iff.
  split; [apply Qnot_le_lt | apply Qlt_not_le].
Qed.

Lemma Qltb_ge (x y : Q) : Qltb x y = false <-> (y <= x)%Q.
Proof.
  unfold Qltb. rewrite negb_false_iff, Qle_bool_iff. reflexivity.
Qed.

(** ** Stable sorting: the last element of a sorted list *)
Section SortFacts.
Context {A K : Type} (ltb : K -> K -> bool) (key : A -> K).
Hypothesis ltb_asym : forall a b, ltb a b = true -> ltb b a = false.
Hypothesis ltb_trans : forall a b c, ltb a b = true -> ltb b c = true -> ltb a c = true.
Hypothesis geb_trans : forall a b c, ltb b a = false -> ltb c b = false -> ltb c a = false.
Hypothesis ltb_geb_trans : forall a b c, ltb b a = false -> ltb b c = true -> ltb a c = true.

(** [x] may stand before [y] in a sorted list. *)
Let before (x y : A) : Prop := ltb (key y) (key x) = false.

Lemma insert_by_elem_of (x y : A) (l : list A) :
  y ∈ insert_by ltb key x l <-> y = x \/ y ∈ l.
Proof.
  induction l as [|z l IH]; simpl.
  - rewrite list_elem_of_singleton, elem_of_nil. tauto.
  - destruct (ltb (key z) (key x)); rewrite !elem_of_cons; [rewrite IH|]; tauto.
Qed.

Lemma sort_by_elem_of (y : A) (l : list A) : y ∈ sort_by ltb key l <-> y ∈ l.
Proof.
  induction l as [|x l IH]; simpl; [reflexivity|].
  rewrite insert_by_elem_of, elem_of_cons, IH. reflexivity.
Qed.

Lemma insert_by_sorted (x : A) (l : list A) :
  StronglySorted before l -> StronglySorted before (insert_by ltb key x l).
Proof.
  induction 1 as [|z l Hs IH Hz]; simpl.
  - repeat constructor.
  - destruct (ltb (key z) (key x)) eqn:E.
    + constructor; [assumption|].
      apply Forall_forall. intros y Hy. apply insert_by_elem_of in Hy as [->|Hy].
      * apply ltb_asym, E.
      * rewrite Forall_forall in Hz. apply Hz, Hy.
    + constructor; [constructor; assumption|].
      constructor; [exact E|].
      rewrite Forall_forall in Hz |- *. intros y Hy.
      unfold before in *. eapply geb_trans; [exact E | apply Hz, Hy].
Qed.

Lemma sort_by_sorted (l : list A) : StronglySorted before (sort_by ltb key l).
Proof.
  induction l; simpl; [constructor | apply insert_by_sorted; assumption].
Qed.

Lemma last_insert_by (x : A) (l : list A) :
  StronglySorted before l ->
  last (insert_by ltb key x l) =
    match last l with
    | Some m => if ltb (key m) (key x) then Some x else Some m
    | None => Some x
    end.
Proof.
  induction 1 as [|z l Hs IH Hz]; simpl; [reflexivity|].
  destruct (ltb (key z) (key x)) eqn:E.
  - rewrite last_cons, IH, (last_cons z l).
    destruct (last l) as [m|]; [destruct (ltb (key m) (key x)); reflexivity|].
    rewrite E. reflexivity.
  - rewrite last_cons_cons.
    destruct (last (z :: l)) as [m|] eqn:El; [|apply last_None in El; discriminate].
    assert (Hm : ltb (key m) (key x) = false).
    { destruct l as [|z' l].
      - simpl in El. injection El as <-. exact E.
      - rewrite last_cons_cons in El. apply last_Some_elem_of in El.
        rewrite Forall_forall in Hz. eapply geb_trans; [exact E | apply Hz, El]. }
    rewrite Hm. reflexivity.
Qed.

Lemma last_sort_by_cons (x : A) (l : list A) :
  last (sort_by ltb key (x :: l)) =
    match last (sort_by ltb key l) with
    | Some m => if ltb (key m) (key x) then Some x else Some m
    | None => Some x
    end.
Proof. simpl. apply last_insert_by, sort_by_sorted. Qed.

(** The last element of the sorted list is the last greatest element of
    the list that was sorted. *)
Lemma last_sort_by_split (l : list A) (x : A) :
  last (sort_by ltb key l) = Some x ->
  exists l1 l2,
    l = l1 ++ x :: l2
    /\ Forall (fun y => ltb (key x) (key y) = false) l1
    /\ Forall (fun y => ltb (key y) (key x) = true) l2.
Proof.
  revert x. induction l as [|y l IH]; intros x; [discriminate|].
  rewrite last_sort_by_cons.
  destruct (last (sort_by ltb key l)) as [m|] eqn:El.
  - destruct (IH m eq_refl) as (l1 & l2 & -> & H1 & H2).
    destruct (ltb (key m) (key y)) eqn:E; intros [= <-].
    + exists [], (l1 ++ m :: l2). split; [reflexivity|]. split; [constructor|].
      apply Forall_app. split; [|constructor].
      * eapply Forall_impl; [exact H1|]. simpl. intros a Ha.
        eapply ltb_geb_trans; [exact Ha | exact E].
      * exact E.
      * eapply Forall_impl; [exact H2|]. simpl. intros a Ha.
        eapply ltb_trans; [exact Ha | exact E].
    + exists (y :: l1), l2. split; [reflexivity|]. split; [|exact H2].
      constructor; assumption.
  - intros [= <-]. apply last_None in El.
    assert (l = []) as ->.
    { destruct l as [|a l]; [reflexivity|]. exfalso.
      assert (Ha : a ∈ sort_by ltb key (a :: l)) by (apply sort_by_elem_of; left).
      rewrite El in Ha. inversion Ha. }
    exists [], []. repeat split; constructor.
Qed.

Lemma last_sort_by_is_Some (x : A) (l : list A) :
  is_Some (last (sort_by ltb key (x :: l))).
Proof.
  rewrite last_sort_by_cons. destruct (last (sort_by ltb key l)) as [m|]; [|eauto].
  destruct (ltb (key m) (key x)); eauto.
Qed.
End SortFacts.

Lemma Qltb_asym (a b : Q) : Qltb a b = true -> Qltb b a = false.
Proof. rewrite Qltb_lt, Qltb_ge. apply Qlt_le_weak. Qed.

Lemma Qltb_trans (a b c : Q) : Qltb a b = true -> Qltb b c = true -> Qltb a c = true.
Proof. rewrite !Qltb_lt. apply Qlt_trans. Qed.

Lemma Qgeb_trans (a b c : Q) : Qltb b a = false -> Qltb c b = false -> Qltb c a = false.
Proof. rewrite !Qltb_ge. apply Qle_trans. Qed.

Lemma Qltb_geb_trans (a b c : Q) : Qltb b a = false -> Qltb b c = true -> Qltb a c = true.
Proof. rewrite Qltb_ge, !Qltb_lt. apply Qle_lt_trans. Qed.

Lemma Zltb_asym (a b : Z) : (a <? b)%Z = true -> (b <? a)%Z = false.
Proof. lia. Qed.

Lemma Zltb_trans (a b c : Z) : (a <? b)%Z = true -> (b <? c)%Z = true -> (a <? c)%Z = true.
Proof. lia. Qed.

Lemma Zgeb_trans (a b c : Z) : (b <? a)%Z = false -> (c <? b)%Z = false -> (c <? a)%Z = false.
Proof. lia. Qed.

Lemma Zltb_geb_trans (a b c : Z) : (b <? a)%Z = false -> (b <? c)%Z = true -> (a <? c)%Z = true.
Proof. lia. Qed.

(** Sorting tuples with numeric confidences by [x[0]]. *)
Lemma sort_by_numeric (l : list (Q * value)) :
  sort_by value_ltb fst (map numeric l) = map numeric (sort_by Qltb fst l).
Proof.
  induction l as [|x l IH]; simpl; [reflexivity|]. rewrite IH. clear IH.
  induction (sort_by Qltb fst l) as [|y s IH]; simpl; [reflexivity|].
  destruct (Qltb (fst y) (fst x)); simpl; [rewrite IH|]; reflexivity.
Qed.

Lemma last_map {A B} (f : A -> B) (l : list A) : last (map f l) = option_map f (last l).
Proof.
  induction l as [|x [|y l] IH]; simpl in *; [reflexivity..|exact IH].
Qed.

(** The shared text of [best_result]: the first tuple with the greatest
    confidence. *)
Lemma last_sort_rev_first_max (r : Q * value) (rs : list (Q * value)) :
  exists l1 x l2,
    r :: rs = l1 ++ x :: l2
    /\ Forall (fun y => (fst y < fst x)%Q) l1
    /\ Forall (fun y => (fst y <= fst x)%Q) l2
    /\ last (sort_by value_ltb fst (rev (map numeric (r :: rs)))) = Some (numeric x).
Proof.
  rewrite <- map_rev, sort_by_numeric, last_map.
  destruct (last (sort_by Qltb fst (rev (r :: rs)))) as [x|] eqn:El.
  - destruct (last_sort_by_split Qltb fst Qltb_asym Qltb_trans Qgeb_trans Qltb_geb_trans _ _ El)
      as (l1 & l2 & Hl & H1 & H2).
    exists (rev l2), x, (rev l1). split; [|split; [|split]].
    + rewrite <- (rev_involutive (r :: rs)), Hl, rev_app_distr. simpl.
      rewrite <- app_assoc. reflexivity.
    + apply Forall_forall. intros y Hy. apply list_elem_of_In, in_rev, list_elem_of_In in Hy.
      rewrite Forall_forall in H2. apply Qltb_lt, H2, Hy.
    + apply Forall_forall. intros y Hy. apply list_elem_of_In, in_rev, list_elem_of_In in Hy.
      rewrite Forall_forall in H1. apply Qltb_ge, H1, Hy.
    + reflexivity.
  - exfalso. apply last_None in El.
    assert (Hin : r ∈ sort_by Qltb fst (rev (r :: rs))).
    { apply sort_by_elem_of, list_elem_of_In, in_rev. rewrite rev_involutive. left. reflexivity. }
    rewrite El in Hin. inversion Hin.
Qed.

(** C9.  [best_result] on the empty list is [NOTHING_FOUND]; on a non-empty
    list of tuples with numeric confidences it is the tuple with the greatest
    confidence, and among several with that confidence the one that comes
    first in the list: every tuple before it has a strictly smaller
    confidence, every tuple after it a confidence that is not greater.  Both
    copies of the function agree. *)
Theorem best_result_first_maximum :
  Client.best_result [] = Client.NOTHING_FOUND
  /\ Ocp.best_result [] = Ocp.NOTHING_FOUND
  /\ forall (r : Q * value) (rs : list (Q * value)),
      exists l1 x l2,
        r :: rs = l1 ++ x :: l2
        /\ Forall (fun y => (fst y < fst x)%Q) l1
        /\ Forall (fun y => (fst y <= fst x)%Q) l2
        /\ Client.best_result (map numeric (r :: rs)) = numeric x
        /\ Ocp.best_result (map numeric (r :: rs)) = numeric x.
Proof.
  split; [reflexivity|]. split; [reflexivity|]. intros r rs.
  destruct (last_sort_rev_first_max r rs) as (l1 & x & l2 & Hl & H1 & H2 & Hlast).
  exists l1, x, l2. repeat split; try assumption.
  - unfold Client.best_result. change (map numeric (r :: rs)) with (numeric r :: map numeric rs) at 1.
    cbv iota beta zeta. change (numeric r :: map numeric rs) with (map numeric (r :: rs)).
    rewrite Hlast. reflexivity.
  - unfold Ocp.best_result. change (map numeric (r :: rs)) with (numeric r :: map numeric rs) at 1.
    cbv iota beta zeta. change (numeric r :: map numeric rs) with (map numeric (r :: rs)).
    rewrite Hlast. reflexivity.
Qed.

(** ** The generic query *)

Lemma exceeds_above (t : Q) (r : result) :
  (0 <= t)%Q -> conf_above t r = true -> exceeds (fst r) t = Ret true.
Proof.
  unfold conf_above, exceeds. destruct (fst r) as [|c| | | |]; try discriminate.
  intros Ht Hc. simpl. rewrite Hc, andb_true_r. f_equal.
  apply negb_true_iff, not_true_iff_false. rewrite Qeq_bool_iff.
  apply Qltb_lt in Hc. intros E. rewrite E in Hc. lra.
Qed.

Lemma exceeds_not_above (t : Q) (r : result) :
  conf_comparable r = true -> conf_above t r = false -> exceeds (fst r) t = Ret false.
Proof.
  unfold conf_comparable, conf_above, exceeds. destruct (fst r) as [|c| | | |]; try discriminate.
  - reflexivity.
  - intros _ ->. rewrite andb_false_r. reflexivity.
Qed.

Lemma DIRECT_nonneg : (0 <= Client.DIRECT_RESPONSE_CONFIDENCE)%Q.
Proof. discriminate. Qed.

Lemma MATCH_nonneg : (0 <= Client.MATCH_CONFIDENCE)%Q.
Proof. discriminate. Qed.

Lemma classify_direct (r : result) :
  conf_above Client.DIRECT_RESPONSE_CONFIDENCE r = true -> classify (fst r) = Ret Direct.
Proof.
  intros Hd. unfold classify. rewrite (exceeds_above _ _ DIRECT_nonneg Hd).
  reflexivity.
Qed.

Lemma classify_undecided (r : result) :
  undecided r ->
  classify (fst r) =
    Ret (if conf_above Client.MATCH_CONFIDENCE r then Candidate else Discard).
Proof.
  intros [Hc Hd]. unfold classify. rewrite (exceeds_not_above _ _ Hc Hd).
  destruct (conf_above Client.MATCH_CONFIDENCE r) eqn:Hm.
  - rewrite (exceeds_above _ _ MATCH_nonneg Hm). reflexivity.
  - rewrite (exceeds_not_above _ _ Hc Hm). reflexivity.
Qed.

Section GenericQueryFacts.
Context `{FuzzyLib}.
Variable get_best_public_playlist : string -> M result.

Local Abbreviation generic_query := (Client.generic_query get_best_public_playlist).
Local Abbreviation resolve_in_order := (resolve_in_order get_best_public_playlist).
Local Abbreviation run_lookups := (run_lookups get_best_public_playlist).
Local Abbreviation lookup := (lookup get_best_public_playlist).

(** The source text and the resolution in the words of the specification
    are the same action. *)
Lemma generic_query_refines (phrase : string) (bonus : Q) (s : Self) :
  generic_query phrase bonus s = resolve_in_order phrase lookup_order [] s.
Proof.
  unfold Client.generic_query, lookup_order. simpl.
  unfold lookup, user_playlist_lookup, classify.
  generalize (Client.get_best_user_playlist phrase) (Client.query_artist phrase 0)
    (Client.query_song phrase 0) (Client.query_album phrase 0)
    (get_best_public_playlist phrase) Client.playlists_getitem
    Client.DIRECT_RESPONSE_CONFIDENCE Client.MATCH_CONFIDENCE.
  intros l1 l2 l3 l4 l5 getitem D T.
  unfold bind, ret, lift.
  destruct (l1 s) as [[[playlist conf]|e] s1]; [|reflexivity].
  destruct (truthy playlist);
    [destruct (getitem playlist s1) as [[uri|e] s1']; [|reflexivity]|];
    cbv beta iota; simpl fst;
    (destruct (exceeds conf D) as [[|]|]; [reflexivity| |reflexivity]);
    (destruct (exceeds conf T) as [[|]|]; [| |reflexivity]); cbv beta iota;
    (match goal with |- context [l2 ?s] => destruct (l2 s) as [[[conf2 data2]|e] s2]; [|reflexivity] end);
    cbv beta iota; simpl fst;
    (destruct (exceeds conf2 D) as [[|]|]; [reflexivity| |reflexivity]);
    (destruct (exceeds conf2 T) as [[|]|]; [| |reflexivity]); cbv beta iota;
    (match goal with |- context [l3 ?s] => destruct (l3 s) as [[[conf3 data3]|e] s3]; [|reflexivity] end);
    cbv beta iota; simpl fst;
    (destruct (exceeds conf3 D) as [[|]|]; [reflexivity| |reflexivity]);
    (destruct (exceeds conf3 T) as [[|]|]; [| |reflexivity]); cbv beta iota;
    (match goal with |- context [l4 ?s] => destruct (l4 s) as [[[conf4 data4]|e] s4]; [|reflexivity] end);
    cbv beta iota; simpl fst;
    (destruct (exceeds conf4 D) as [[|]|]; [reflexivity| |reflexivity]);
    (destruct (exceeds conf4 T) as [[|]|]; [| |reflexivity]); cbv beta iota;
    (match goal with |- context [l5 ?s] => destruct (l5 s) as [[[conf5 data5]|e] s5]; [|reflexivity] end);
    cbv beta iota; simpl fst;
    (destruct (exceeds conf5 D) as [[|]|]; [reflexivity| |reflexivity]);
    (destruct (exceeds conf5 T) as [[|]|]; reflexivity).
Qed.

Lemma run_lookups_cons (phrase : string) (k : LookupKind) (ks : list LookupKind)
      (s s' : Self) (rs : list result) :
  run_lookups phrase (k :: ks) s = (Ret rs, s') ->
  exists r0 rs0 s0,
    lookup phrase k s = (Ret r0, s0)
    /\ run_lookups phrase ks s0 = (Ret rs0, s') /\ rs = r0 :: rs0.
Proof.
  simpl. unfold bind at 1.
  destruct (lookup phrase k s) as [[r0|e] s0] eqn:El; [|discriminate].
  unfold bind, ret.
  destruct (run_lookups phrase ks s0) as [[rs0|e] s1] eqn:Er; [|discriminate].
  intros [= <- <-]. exists r0, rs0, s0. repeat split; assumption.
Qed.

Lemma resolve_step (phrase : string) (k : LookupKind) (ks : list LookupKind)
      (acc : list result) (s s0 : Self) (r0 : result) (v : verdict) :
  lookup phrase k s = (Ret r0, s0) ->
  classify (fst r0) = Ret v ->
  resolve_in_order phrase (k :: ks) acc s =
    match v with
    | Direct => (Ret r0, s0)
    | Candidate => resolve_in_order phrase ks (acc ++ [r0]) s0
    | Discard => resolve_in_order phrase ks acc s0
    end.
Proof.
  intros El Hc. simpl. unfold bind at 1. rewrite El.
  unfold bind, lift. rewrite Hc. destruct v; reflexivity.
Qed.

(** A lookup whose confidence exceeds the direct-response threshold ends
    the resolution. *)
Lemma resolve_direct (phrase : string) (kinds : list LookupKind) :
  forall (acc rs : list result) (r : result) (s s' : Self),
    run_lookups phrase (take (S (length rs)) kinds) s = (Ret (rs ++ [r]), s') ->
    Forall undecided rs ->
    conf_above Client.DIRECT_RESPONSE_CONFIDENCE r = true ->
    resolve_in_order phrase kinds acc s = (Ret r, s').
Proof.
  induction kinds as [|k ks IH]; intros acc rs r s s' Hrun Hund Hd.
  - simpl in Hrun. injection Hrun as Hnil _. destruct rs; discriminate.
  - change (take (S (length rs)) (k :: ks)) with (k :: take (length rs) ks) in Hrun.
    apply run_lookups_cons in Hrun as (r0 & rs0 & s0 & El & Er & Heq).
    destruct rs as [|r1 rs'].
    + simpl in Er, Heq. unfold ret in Er. injection Er as <- <-.
      injection Heq as <-.
      rewrite (resolve_step _ _ _ _ _ _ _ _ El (classify_direct _ Hd)). reflexivity.
    + simpl in Heq. injection Heq as <- <-.
      inversion Hund as [|? ? Hu Hund']; subst.
      rewrite (resolve_step _ _ _ _ _ _ _ _ El (classify_undecided _ Hu)).
      destruct (conf_above Client.MATCH_CONFIDENCE r1);
        eapply IH; eassumption.
Qed.

(** When no lookup is direct, the accumulated candidates are the results
    above the match threshold, in the order of the lookups. *)
Lemma resolve_all (phrase : string) (kinds : list LookupKind) :
  forall (acc rs : list result) (s s' : Self),
    run_lookups phrase kinds s = (Ret rs, s') ->
    Forall undecided rs ->
    resolve_in_order phrase kinds acc s =
      (Ret (Client.best_result
              (acc ++ List.filter (conf_above Client.MATCH_CONFIDENCE) rs)), s').
Proof.
  induction kinds as [|k ks IH]; intros acc rs s s' Hrun Hund.
  - simpl in Hrun. unfold ret in Hrun. injection Hrun as <- <-.
    simpl. rewrite app_nil_r. reflexivity.
  - apply run_lookups_cons in Hrun as (r0 & rs0 & s0 & El & Er & ->).
    inversion Hund as [|? ? Hu Hund']; subst.
    rewrite (resolve_step _ _ _ _ _ _ _ _ El (classify_undecided _ Hu)). simpl.
    destruct (conf_above Client.MATCH_CONFIDENCE r0).
    + rewrite (IH _ _ _ _ Er Hund'), <- app_assoc. reflexivity.
    + apply IH; assumption.
Qed.

Lemma candidates_numeric (rs : list result) :
  exists cands : list (Q * value),
    List.filter (conf_above Client.MATCH_CONFIDENCE) rs = map numeric cands
    /\ Forall (fun c => (Client.MATCH_CONFIDENCE < fst c)%Q) cands.
Proof.
  induction rs as [|[c d] rs (cands & IH & Hall)]; [exists []; split; [reflexivity|constructor]|].
  simpl. destruct (conf_above Client.MATCH_CONFIDENCE (c, d)) eqn:E.
  - unfold conf_above in E. simpl in E. destruct c as [|q| | | |]; try discriminate.
    exists ((q, d) :: cands). split; [simpl; rewrite IH; reflexivity|].
    constructor; [apply Qltb_lt, E | exact Hall].
  - exists cands. split; assumption.
Qed.

End GenericQueryFacts.

(** ** The title score *)

Lemma Qmax_cases (x y : Q) : Qmax x y = x \/ Qmax x y = y.
Proof.
  unfold Qmax, GenericMinMax.gmax. destruct (x ?= y)%Q; auto.
Qed.

Lemma py_int_mono (x y : Q) : (x <= y)%Q -> (py_int x <= py_int y)%Z.
Proof.
  intros Hxy. unfold py_int.
  destruct (Qltb x 0) eqn:Ex; destruct (Qltb y 0) eqn:Ey.
  - apply Qceiling_resp_le, Hxy.
  - apply Qltb_lt in Ex. apply Qltb_ge in Ey.
    transitivity 0%Z.
    + change 0%Z with (Qceiling 0). apply Qceiling_resp_le. lra.
    + change 0%Z with (Qfloor 0). apply Qfloor_resp_le, Ey.
  - apply Qltb_ge in Ex. apply Qltb_lt in Ey. lra.
  - apply Qfloor_resp_le, Hxy.
Qed.

Lemma py_int_Qmax (x y : Q) :
  py_int (Qmax x y * 100) = Z.max (py_int (x * 100)) (py_int (y * 100)).
Proof.
  unfold Qmax, GenericMinMax.gmax. destruct (x ?= y)%Q eqn:E.
  - apply Qeq_alt in E. rewrite Z.max_l by (apply py_int_mono; lra). reflexivity.
  - apply Qlt_alt in E. rewrite Z.max_r by (apply py_int_mono; lra). reflexivity.
  - apply Qgt_alt in E. rewrite Z.max_l by (apply py_int_mono; lra). reflexivity.
Qed.


(** ** The cached collections *)

Lemma truthy_list_cons {A} (l : option (list A)) :
  truthy_list l = true <-> exists x l', l = Some (x :: l').
Proof.
  destruct l as [[|x l']|]; simpl; split; try discriminate; eauto.
  all: intros (? & ? & ?); discriminate.
Qed.

Lemma truthy_dict_nonempty {V} (d : option (gmap string V)) :
  truthy_dict d = true <-> exists m, d = Some m /\ m <> ∅.
Proof.
  destruct d as [m|]; simpl.
  - rewrite negb_true_iff, bool_decide_eq_false. split; [eauto|].
    intros (m' & [= <-] & Hne). exact Hne.
  - split; [discriminate|]. intros (? & ? & ?). discriminate.
Qed.

(** Devices: an access that finds the slot fresh answers from it. *)
Lemma devices_fresh (self : Self) (api : Backend) :
  spotify self = Some api ->
  truthy_list (device_list self) = true ->
  (now self - devices_fetched self <= 60)%Q ->
  Ocp.devices self = (Ret (default [] (device_list self)), self).
Proof.
  intros Hc Ht Hn. unfold Ocp.devices. rewrite Hc, Ht.
  apply Qltb_ge in Hn. rewrite Hn. reflexivity.
Qed.

(** Devices: an access that finds the slot stale asks the backend. *)
Lemma devices_stale (self : Self) (api : Backend) :
  spotify self = Some api ->
  truthy_list (device_list self) = false \/ (60 < now self - devices_fetched self)%Q ->
  Ocp.devices self =
    (Ret (api_devices api (calls self)),
     set_devices_fetched (now self)
       (set_device_list (Some (api_devices api (calls self))) (log CallDevices self))).
Proof.
  intros Hc Hs. unfold Ocp.devices. rewrite Hc.
  destruct Hs as [Ht|Hn]; [rewrite Ht; reflexivity|].
  apply Qltb_lt in Hn. rewrite Hn, orb_true_r. reflexivity.
Qed.

Lemma playlists_fresh (self : Self) (api : Backend) :
  spotify self = Some api ->
  truthy_dict (_playlists self) = true ->
  (now self - playlists_fetched self <= 5 * 60)%Q ->
  Ocp.playlists self = (Ret (default ∅ (_playlists self)), self).
Proof.
  intros Hc Ht Hn. unfold Ocp.playlists. rewrite Hc, Ht.
  apply Qltb_ge in Hn. rewrite Hn. reflexivity.
Qed.

Lemma playlists_stale (self : Self) (api : Backend) :
  spotify self = Some api ->
  truthy_dict (_playlists self) = false \/ (5 * 60 < now self - playlists_fetched self)%Q ->
  Ocp.playlists self =
    (Ret (by_lower_name (api_current_user_playlists api (calls self))),
     set_playlists_fetched (now self)
       (set_playlists (Some (by_lower_name (api_current_user_playlists api (calls self))))
                      (log CallCurrentUserPlaylists self))).
Proof.
  intros Hc Hs. unfold Ocp.playlists. rewrite Hc.
  destruct Hs as [Ht|Hn]; [rewrite Ht; reflexivity|].
  apply Qltb_lt in Hn. rewrite Hn, orb_true_r. reflexivity.
Qed.

(** The page loop returns when the backend serves a last page in time; it
    sends at least one request and touches nothing but the request log. *)
Lemma saved_tracks_loop_returns (n : nat) (api : Backend) :
  forall (offset : nat) (acc : list Item) (self : Self),
    Skill.last_page_within n api (calls self) offset = true ->
    exists tracks more,
      Skill.saved_tracks_loop (S n) api offset acc self =
        (Ret tracks,
         {| spotify := spotify self; _playlists := _playlists self;
            playlists_fetched := playlists_fetched self;
            device_list := device_list self; devices_fetched := devices_fetched self;
            saved_tracks := saved_tracks self;
            saved_tracks_fetched := saved_tracks_fetched self;
            now := now self;
            calls := calls self ++ CallSavedTracks 50 offset :: more |}).
Proof.
  induction n as [|n IH]; intros offset acc self Hl.
  - simpl in *. destruct (negb (b_next _)); [|discriminate].
    eexists _, []. reflexivity.
  - change (Skill.last_page_within (S n) api (calls self) offset)
      with (if negb (b_next (api_current_user_saved_tracks api (calls self) 50 offset))
            then true
            else Skill.last_page_within n api (calls self ++ [CallSavedTracks 50 offset])
                                        (offset + 50)) in Hl.
    change (Skill.saved_tracks_loop (S (S n)) api offset acc self)
      with (if negb (b_next (api_current_user_saved_tracks api (calls self) 50 offset))
            then (Ret (acc ++ b_items (api_current_user_saved_tracks api (calls self) 50 offset)),
                  log (CallSavedTracks 50 offset) self)
            else Skill.saved_tracks_loop (S n) api (offset + 50)
                   (acc ++ b_items (api_current_user_saved_tracks api (calls self) 50 offset))
                   (log (CallSavedTracks 50 offset) self)).
    destruct (negb (b_next _)).
    + eexists _, []. reflexivity.
    + destruct (IH (offset + 50)%nat
                   (acc ++ b_items (api_current_user_saved_tracks api (calls self) 50 offset))
                   (log (CallSavedTracks 50 offset) self) Hl) as (tracks & more & ->).
      exists tracks, (CallSavedTracks 50 (offset + 50) :: more).
      simpl. rewrite <- app_assoc. reflexivity.
Qed.

Lemma saved_tracks_fresh (fuel : nat) (self : Self) (api : Backend) :
  spotify self = Some api ->
  truthy_list (saved_tracks self) = true ->
  (now self - saved_tracks_fetched self <= 4 * 60 * 60)%Q ->
  Skill.refresh_saved_tracks fuel self = (Ret None, self).
Proof.
  intros Hc Ht Hn. unfold Skill.refresh_saved_tracks. rewrite Hc, Ht.
  apply Qltb_ge in Hn. rewrite Hn. reflexivity.
Qed.

Lemma saved_tracks_stale (n : nat) (self : Self) (api : Backend) :
  spotify self = Some api ->
  truthy_list (saved_tracks self) = false
  \/ (4 * 60 * 60 < now self - saved_tracks_fetched self)%Q ->
  Skill.last_page_within n api (calls self) 0 = true ->
  exists tracks self1 more,
    Skill.saved_tracks_loop (S n) api 0 [] self = (Ret tracks, self1)
    /\ calls self1 = calls self ++ CallSavedTracks 50 0 :: more
    /\ Skill.refresh_saved_tracks (S n) self =
         (Ret None,
          set_saved_tracks_fetched (now self) (set_saved_tracks (Some tracks) self1)).
Proof.
  intros Hc Hs Hl.
  destruct (saved_tracks_loop_returns n api 0%nat [] self Hl) as (tracks & more & Hloop).
  match type of Hloop with _ = (_, ?s1) => remember s1 as self1 eqn:E1 end.
  exists tracks, self1, more. split; [exact Hloop|]. split; [rewrite E1; reflexivity|].
  unfold Skill.refresh_saved_tracks. rewrite Hc.
  assert (Hcond : negb (truthy_list (saved_tracks self))
                  || Qltb (4 * 60 * 60) (now self - saved_tracks_fetched self) = true).
  { destruct Hs as [Ht|Hn]; [rewrite Ht; reflexivity|].
    apply Qltb_lt in Hn. rewrite Hn. apply orb_true_r. }
  rewrite Hcond, Hloop. reflexivity.
Qed.

(** C7, amended.  With a connection, each cached collection (devices 60 s,
    playlists 300 s, saved tracks 14400 s) is served from the cache, without
    a request, when the cached value is non-empty and no more than the TTL
    has passed since it was fetched; when nothing is cached, the cached value
    is empty or more than the TTL has passed, the backend is asked, the
    answer is stored with the current time and returned
    ([refresh_saved_tracks] leaves it in [saved_tracks] and returns [None]).
    The loop over the pages of saved tracks returns as soon as the backend
    serves a page without successor. *)
Theorem cache_within_ttl (self : Self) (api : Backend) :
  spotify self = Some api ->
  (forall d l,
      device_list self = Some (d :: l) ->
      (now self - devices_fetched self <= 60)%Q ->
      Ocp.devices self = (Ret (d :: l), self))
  /\ (device_list self = None \/ device_list self = Some []
      \/ (60 < now self - devices_fetched self)%Q ->
      Ocp.devices self =
        (Ret (api_devices api (calls self)),
         set_devices_fetched (now self)
           (set_device_list (Some (api_devices api (calls self))) (log CallDevices self))))
  /\ (forall m,
        _playlists self = Some m -> m <> ∅ ->
        (now self - playlists_fetched self <= 300)%Q ->
        Ocp.playlists self = (Ret m, self))
  /\ (_playlists self = None \/ _playlists self = Some ∅
      \/ (300 < now self - playlists_fetched self)%Q ->
      Ocp.playlists self =
        (Ret (by_lower_name (api_current_user_playlists api (calls self))),
         set_playlists_fetched (now self)
           (set_playlists (Some (by_lower_name (api_current_user_playlists api (calls self))))
                          (log CallCurrentUserPlaylists self))))
  /\ (forall fuel t l,
        saved_tracks self = Some (t :: l) ->
        (now self - saved_tracks_fetched self <= 14400)%Q ->
        Skill.refresh_saved_tracks fuel self = (Ret None, self))
  /\ (forall n,
        saved_tracks self = None \/ saved_tracks self = Some []
        \/ (14400 < now self - saved_tracks_fetched self)%Q ->
        Skill.last_page_within n api (calls self) 0 = true ->
        exists tracks self1 more,
          Skill.saved_tracks_loop (S n) api 0 [] self = (Ret tracks, self1)
          /\ calls self1 = calls self ++ CallSavedTracks 50 0 :: more
          /\ Skill.refresh_saved_tracks (S n) self =
               (Ret None,
                set_saved_tracks_fetched (now self) (set_saved_tracks (Some tracks) self1))).
Proof.
  intros Hc. repeat apply conj.
  - intros d l Hd Hn. rewrite (devices_fresh self api Hc); [rewrite Hd; reflexivity| |exact Hn].
    rewrite Hd. reflexivity.
  - intros Hs. apply devices_stale; [exact Hc|].
    destruct Hs as [->|[->|Hn]]; auto.
  - intros m Hm Hne Hn. rewrite (playlists_fresh self api Hc); [rewrite Hm; reflexivity| |lra].
    apply truthy_dict_nonempty. eauto.
  - intros Hs. apply playlists_stale; [exact Hc|].
    destruct Hs as [->|[->|Hn]]; [left; reflexivity|left; reflexivity|right; lra].
  - intros fuel t l Ht Hn. apply (saved_tracks_fresh fuel self api Hc); [|lra].
    rewrite Ht. reflexivity.
  - intros n Hs Hl. apply (saved_tracks_stale n self api Hc); [|exact Hl].
    destruct Hs as [->|[->|Hn]]; [left; reflexivity|left; reflexivity|right; lra].
Qed.

(** C10.  With a connection, a cached empty device list or an empty
    playlist dictionary is never served: the access asks the backend again,
    whatever the time.  In particular the access that follows a fetch that
    returned nothing fetches again.  An access that sends no request found a
    non-empty cached value within its TTL. *)
Theorem empty_collection_is_refetched (self : Self) (api : Backend) :
  spotify self = Some api ->
  (device_list self = Some [] ->
   Ocp.devices self =
     (Ret (api_devices api (calls self)),
      set_devices_fetched (now self)
        (set_device_list (Some (api_devices api (calls self))) (log CallDevices self))))
  /\ (_playlists self = Some ∅ ->
      Skill.playlists self =
        (Ret (by_lower_name (api_current_user_playlists api (calls self))),
         set_playlists_fetched (now self)
           (set_playlists (Some (by_lower_name (api_current_user_playlists api (calls self))))
                          (log CallCurrentUserPlaylists self))))
  /\ (forall t,
        api_devices api (calls self) = [] ->
        truthy_list (device_list self) = false ->
        calls (snd (Ocp.devices (set_now t (snd (Ocp.devices self)))))
        = calls self ++ [CallDevices; CallDevices])
  /\ (forall t,
        api_current_user_playlists api (calls self) = [] ->
        truthy_dict (_playlists self) = false ->
        calls (snd (Skill.playlists (set_now t (snd (Skill.playlists self)))))
        = calls self ++ [CallCurrentUserPlaylists; CallCurrentUserPlaylists])
  /\ (calls (snd (Ocp.devices self)) = calls self ->
      exists d l, device_list self = Some (d :: l)
                  /\ (now self - devices_fetched self <= 60)%Q)
  /\ (calls (snd (Skill.playlists self)) = calls self ->
      exists m, _playlists self = Some m /\ m <> ∅
                /\ (now self - playlists_fetched self <= 300)%Q).
Proof.
  intros Hc. repeat apply conj.
  - intros Hd. apply devices_stale; [exact Hc|]. left. rewrite Hd. reflexivity.
  - intros Hp. apply playlists_stale; [exact Hc|]. left. rewrite Hp. reflexivity.
  - intros t He Ht. rewrite (devices_stale self api Hc) by (left; exact Ht).
    rewrite He. simpl snd.
    rewrite (devices_stale _ api) by (try exact Hc; left; reflexivity).
    simpl. rewrite <- app_assoc. reflexivity.
  - intros t He Ht. unfold Skill.playlists.
    rewrite (playlists_stale self api Hc) by (left; exact Ht).
    rewrite He. simpl snd.
    rewrite (playlists_stale _ api) by (try exact Hc; left; reflexivity).
    simpl. rewrite <- app_assoc. reflexivity.
  - intros Hcalls.
    destruct (truthy_list (device_list self)) eqn:Ht.
    + destruct (Qlt_le_dec 60 (now self - devices_fetched self)) as [Hn|Hn].
      * rewrite (devices_stale self api Hc) in Hcalls by (right; exact Hn).
        simpl in Hcalls. exfalso. apply (f_equal (@length _)) in Hcalls.
        rewrite length_app in Hcalls. simpl in Hcalls. lia.
      * apply truthy_list_cons in Ht as (d & l & Hd). eauto.
    + rewrite (devices_stale self api Hc) in Hcalls by (left; exact Ht).
      simpl in Hcalls. exfalso. apply (f_equal (@length _)) in Hcalls.
      rewrite length_app in Hcalls. simpl in Hcalls. lia.
  - intros Hcalls. unfold Skill.playlists in Hcalls.
    destruct (truthy_dict (_playlists self)) eqn:Ht.
    + destruct (Qlt_le_dec (5 * 60) (now self - playlists_fetched self)) as [Hn|Hn].
      * rewrite (playlists_stale self api Hc) in Hcalls by (right; exact Hn).
        simpl in Hcalls. exfalso. apply (f_equal (@length _)) in Hcalls.
        rewrite length_app in Hcalls. simpl in Hcalls. lia.
      * apply truthy_dict_nonempty in Ht as (m & Hm & Hne).
        exists m. split; [exact Hm|]. split; [exact Hne|]. lra.
    + rewrite (playlists_stale self api Hc) in Hcalls by (left; exact Ht).
      simpl in Hcalls. exfalso. apply (f_equal (@length _)) in Hcalls.
      rewrite length_app in Hcalls. simpl in Hcalls. lia.
Qed.

(** ** Continue playback *)

(** C4, amended.  [continue_playback] answers kind continue with confidence
    1.0, that is 100 percent, exactly when the phrase without the marker and
    without surrounding whitespace is the word "spotify"; in particular for
    the bare phrase "spotify".  The check comes first: when it succeeds the
    specific and the generic query are not consulted and the state is
    untouched.  For any other phrase, the empty one included,
    [continue_playback] finds nothing and the specific query is consulted. *)
Theorem continue_playback_precedence
        (on_spotify : string -> string)
        (specific_query : string -> Q -> M (option result))
        (generic_query : string -> Q -> M result)
        (phrase : string) (bonus : Q) (s : Self) :
  let continue := (VNum 1, VMedia {| m_data := DNone; m_name := None; m_type := "continue" |}) in
  Skill.continue_playback "spotify" bonus = continue
  /\ (strip (on_spotify phrase) = "spotify" ->
      Skill.continue_playback (on_spotify phrase) bonus = continue
      /\ Skill.match_query_phrase_resolution on_spotify specific_query generic_query phrase s
         = (Ret continue, s))
  /\ (strip (on_spotify phrase) <> "spotify" ->
      Skill.continue_playback (on_spotify phrase) bonus = Skill.NOTHING_FOUND
      /\ Skill.match_query_phrase_resolution on_spotify specific_query generic_query phrase s
         = match specific_query (on_spotify phrase)
                   (if contains "spotify" phrase then 1 # 10 else 0)%Q s with
           | (Ret None, s') => (Raise TypeError, s')
           | (Ret (Some (confidence, data)), s') =>
               if truthy data then (Ret (confidence, data), s')
               else generic_query (on_spotify phrase)
                      (if contains "spotify" phrase then 1 # 10 else 0)%Q s'
           | (Raise e, s') => (Raise e, s')
           end).
Proof.
  intros continue. split; [reflexivity|]. split.
  - intros Hs. unfold Skill.match_query_phrase_resolution, Skill.continue_playback.
    rewrite Hs. simpl. split; reflexivity.
  - intros Hs. unfold Skill.match_query_phrase_resolution, Skill.continue_playback.
    apply String.eqb_neq in Hs. rewrite Hs. simpl. split; [reflexivity|].
    unfold bind.
    destruct (specific_query _ _ s) as [[[[confidence data]|]|e] s']; try reflexivity.
    destruct (truthy data); reflexivity.
Qed.

(** ** Empty result sets *)

Lemma search_run (q : string) (ty : SearchType) (self : Self) (api : Backend) :
  spotify self = Some api ->
  search q ty self = (Ret (api_search api (calls self) q ty), log (CallSearch q ty) self).
Proof. intros Hc. unfold search. rewrite Hc. reflexivity. Qed.

Section EmptyResults.
Context `{FuzzyLib}.
Variables (self : Self) (api : Backend).
Hypothesis connected : spotify self = Some api.

(** [query_show] falls off its end when the search has no items: it
    returns [None], not [NOTHING_FOUND]. *)
Lemma query_show_empty (podcast : string) :
  no_items (api_search api (calls self) podcast TShow) ->
  Skill.query_show podcast self = (Ret None, log (CallSearch podcast TShow) self).
Proof.
  intros Hn. unfold Skill.query_show, bind. rewrite (search_run _ _ _ _ connected).
  destruct Hn as [-> | ->]; reflexivity.
Qed.

Lemma query_artist_empty (artist : string) (bonus : Q) :
  no_items (api_search api (calls self) artist TArtist) ->
  Client.query_artist artist bonus self
    = (Ret Client.NOTHING_FOUND, log (CallSearch artist TArtist) self)
  /\ Ocp.query_artist artist self
     = (Ret Ocp.NOTHING_FOUND, log (CallSearch artist TArtist) self).
Proof.
  intros Hn. unfold Client.query_artist, Ocp.query_artist, bind.
  rewrite (search_run _ _ _ _ connected).
  destruct Hn as [-> | ->]; split; reflexivity.
Qed.

Lemma get_best_public_playlist_empty (playlist : string) :
  no_items (api_search api (calls self) playlist TPlaylist) ->
  Skill.get_best_public_playlist playlist self
    = (Ret Skill.NOTHING_FOUND, log (CallSearch playlist TPlaylist) self).
Proof.
  intros Hn. unfold Skill.get_best_public_playlist, bind.
  rewrite (search_run _ _ _ _ connected).
  destruct Hn as [-> | ->]; reflexivity.
Qed.

(** Songs and albums without the word by: the phrase itself is searched. *)
Lemma query_song_empty (song : string) (bonus : Q) :
  length (split " by " song) = 1%nat ->
  no_items (api_search api (calls self) song TTrack) ->
  Client.query_song song bonus self
    = (Ret Client.NOTHING_FOUND, log (CallSearch song TTrack) self)
  /\ Ocp.query_song song self
     = (Ret Ocp.NOTHING_FOUND, log (CallSearch song TTrack) self).
Proof.
  intros Hl Hn. unfold Client.query_song, Ocp.query_song, bind, ret. rewrite Hl. simpl.
  rewrite (search_run _ _ _ _ connected).
  destruct Hn as [-> | ->]; split; reflexivity.
Qed.

Lemma query_album_empty (album : string) (bonus : Q) :
  length (split " by " album) = 1%nat ->
  no_items (api_search api (calls self) album TAlbum) ->
  Client.query_album album bonus self
    = (Ret Client.NOTHING_FOUND, log (CallSearch album TAlbum) self)
  /\ Ocp.query_album album self
     = (Ret Ocp.NOTHING_FOUND, log (CallSearch album TAlbum) self).
Proof.
  intros Hl Hn. unfold Client.query_album, Ocp.query_album, bind, ret. rewrite Hl. simpl.
  rewrite (search_run _ _ _ _ connected).
  destruct Hn as [-> | ->]; split; reflexivity.
Qed.

(** A user without playlists. *)
Lemma get_best_user_playlist_empty (playlist : string) :
  _playlists self = None ->
  api_current_user_playlists api (calls self) = [] ->
  fst (Client.get_best_user_playlist playlist self) = Ret Client.NOTHING_FOUND
  /\ fst (Ocp.get_best_user_playlist playlist self) = Ret Ocp.NOTHING_FOUND.
Proof.
  intros Hp He. unfold Client.get_best_user_playlist, Ocp.get_best_user_playlist, bind.
  unfold Client.playlists.
  rewrite (playlists_stale self api connected) by (left; rewrite Hp; reflexivity).
  rewrite He. split; reflexivity.
Qed.
End EmptyResults.

(** ** The range of the confidences *)

Lemma py_int_nonneg (x : Q) : (0 <= x)%Q -> (0 <= py_int x)%Z.
Proof. intros Hx. change 0%Z with (py_int 0). apply py_int_mono, Hx. Qed.

Lemma last_sort_by_elem_of {A K} (ltb : K -> K -> bool) (key : A -> K)
      (l : list A) (x : A) :
  last (sort_by ltb key l) = Some x -> x ∈ l.
Proof.
  intros Hl. apply last_Some_elem_of in Hl.
  revert Hl. generalize x. clear x. induction l as [|y l IH]; intros x; simpl.
  - intros Hx. inversion Hx.
  - intros Hx. assert (Hin : x = y \/ x ∈ sort_by ltb key l).
    { clear IH. induction (sort_by ltb key l) as [|z s IHs]; simpl in Hx.
      - apply list_elem_of_singleton in Hx. auto.
      - destruct (ltb (key z) (key y)).
        + apply elem_of_cons in Hx as [->|Hx]; [right; left|].
          destruct (IHs Hx) as [->|Hs]; [left; reflexivity|right; right; exact Hs].
        + apply elem_of_cons in Hx as [->|Hx]; [left; reflexivity|right; exact Hx]. }
    destruct Hin as [->|Hin]; [left|right; apply IH, Hin].
Qed.

Lemma elem_of_rev {A} (x : A) (l : list A) : x ∈ rev l <-> x ∈ l.
Proof. rewrite !list_elem_of_In. symmetry. apply in_rev. Qed.

Lemma py_int_percent (a : Q) : (0 <= a <= 1)%Q -> (0 <= py_int (a * 100) <= 100)%Z.
Proof.
  intros Ha. split; [apply py_int_nonneg; lra|].
  change (py_int (a * 100) <= py_int 100)%Z. apply py_int_mono. lra.
Qed.

Section Ranges.
Context `{HR : FuzzyRange}.

Lemma Ocp_best_confidence_range (title query : string) :
  (0 <= Ocp.best_confidence title query <= 100)%Z.
Proof.
  unfold Ocp.best_confidence. rewrite py_int_Qmax.
  pose proof (py_int_percent _ (fuzzy_match_range (lower title) query
                                  DAMERAU_LEVENSHTEIN_SIMILARITY)).
  pose proof (py_int_percent _ (fuzzy_match_range (strip (strip_qualifier (lower title)))
                                  query DAMERAU_LEVENSHTEIN_SIMILARITY)).
  lia.
Qed.

Lemma inject_Z_range (z : Z) : (0 <= z <= 100)%Z -> (0 <= inject_Z z <= 100)%Q.
Proof.
  intros [H0 H1]. split.
  - change 0%Q with (inject_Z 0). rewrite <- Zle_Qle. exact H0.
  - change 100%Q with (inject_Z 100). rewrite <- Zle_Qle. exact H1.
Qed.

(** X10.  On the 0-100 scale all three queries clamp: whatever they return as
    confidence lies between 0 and 100. *)
Lemma Ocp_confidence_range (phrase : string) (self self' : Self) (c : Q) (d : value) :
  Ocp.query_artist phrase self = (Ret (VNum c, d), self')
  \/ Ocp.query_album phrase self = (Ret (VNum c, d), self')
  \/ Ocp.query_song phrase self = (Ret (VNum c, d), self') ->
  (0 <= c <= 100)%Q.
Proof.
  intros [Hq|[Hq|Hq]].
  - unfold Ocp.query_artist, bind in Hq.
    destruct (search phrase TArtist self) as [[[[|top items]|]|e] s1]; try discriminate;
      unfold ret in Hq; simpl in Hq; injection Hq as <- _ _; try lra.
    pose proof (fuzzy_match_range (it_name top) (lower phrase)
                                  DAMERAU_LEVENSHTEIN_SIMILARITY) as Hr.
    split; [apply Q.min_glb; lra | apply Q.le_min_r].
  - unfold Ocp.query_album, bind in Hq.
    destruct (if (1 <? length (split " by " phrase))%nat then _ else _)
      as [[[[album album_search] bonus]|e] s0] eqn:Hsp; [|discriminate].
    assert (Hb : (0 <= bonus <= 10)%Z).
    { destruct (1 <? length (split " by " phrase))%nat.
      - unfold bind, unpack2, ret, raise in Hsp.
        destruct (split " by " phrase) as [|a [|b [|? ?]]]; try discriminate.
        injection Hsp as _ _ <- _. lia.
      - unfold ret in Hsp. injection Hsp as _ _ <- _. lia. }
    destruct (search album_search TAlbum s0) as [[[[|top items]|]|e] s1]; try discriminate;
      unfold ret in Hq; simpl in Hq; injection Hq as <- _ _; try lra.
    apply inject_Z_range.
    pose proof (Ocp_best_confidence_range (lower (it_name top)) album). lia.
  - unfold Ocp.query_song, bind in Hq.
    destruct (if (1 <? length (split " by " phrase))%nat then _ else _)
      as [[[song song_search]|e] s0]; [|discriminate].
    destruct (search song_search TTrack s0) as [[[[|top items]|]|e] s1]; try discriminate;
      unfold ret in Hq; simpl in Hq; try (injection Hq as <- _ _; lra).
    revert Hq.
    set (tracks := rev _). destruct tracks as [|first rest] eqn:Ht; [discriminate|].
    destruct (last _) as [winner|] eqn:Hl; [|discriminate].
    destruct (it_artists winner.2) as [|artist_name ?]; [discriminate|].
    intros [= <- _ _]. apply inject_Z_range.
    apply last_sort_by_elem_of, list_elem_of_filter in Hl as [_ Hl].
    rewrite <- Ht in Hl. unfold tracks in Hl.
    rewrite elem_of_rev in Hl.
    change (insert_by Z.ltb fst (Ocp.best_confidence (it_name top) song, top)
              (sort_by Z.ltb fst (map (fun d => (Ocp.best_confidence (it_name d) song, d)) items)))
      with (sort_by Z.ltb fst (map (fun d => (Ocp.best_confidence (it_name d) song, d)) (top :: items)))
      in Hl.
    rewrite sort_by_elem_of in Hl. apply list_elem_of_In, in_map_iff in Hl as (t & <- & _).
    simpl.
    pose proof (Ocp_best_confidence_range (it_name t) song).
    pose proof (py_int_percent _ (fuzzy_match_range song_search artist_name TOKEN_SET_RATIO)).
    lia.
Qed.
End Ranges.

(** ** Two callers of the playlists property *)

Lemma playlist_fetches_log (l : list Call) :
  playlist_fetches (l ++ [CallCurrentUserPlaylists]) = S (playlist_fetches l).
Proof.
  unfold playlist_fetches. rewrite List.filter_app, length_app. simpl. lia.
Qed.

Lemma run_cons (who : bool) (schedule : list bool) (c : Config) :
  run (who :: schedule) c = run schedule (sched_step who c).
Proof. reflexivity. Qed.

(** One statement of a caller that is past the freshness test: no lock is
    consulted, the request is sent at [PcFetch] whatever the other caller did. *)
Lemma step_past_test (t : Caller) (self : Self) (api : Backend) :
  spotify self = Some api ->
  past_test (pc t) = true ->
  let '(t', self') := step t self in
  spotify self' = Some api
  /\ past_test (pc t') = true
  /\ statements_left (pc t') = pred (statements_left (pc t))
  /\ (playlist_fetches (calls self') + owes_fetch (pc t')
      = playlist_fetches (calls self) + owes_fetch (pc t))%nat.
Proof.
  intros Hc Hp. unfold step.
  destruct (pc t) eqn:Epc; try discriminate; simpl; try rewrite Hc; simpl;
    repeat split; try assumption; try lia.
  all: try (rewrite playlist_fetches_log; lia).
  all: rewrite Epc; reflexivity.
Qed.

(** Once both callers have found the slot stale, every schedule that lets
    both finish sends one request for each caller that has not sent its
    request yet. *)
Lemma run_past_test (schedule : list bool) :
  forall (c : Config) (api : Backend),
    spotify (shared c) = Some api ->
    past_test (pc (first c)) = true ->
    past_test (pc (second c)) = true ->
    (statements_left (pc (first c)) <= length (List.filter negb schedule))%nat ->
    (statements_left (pc (second c)) <= length (List.filter (fun b => b) schedule))%nat ->
    playlist_fetches (calls (shared (run schedule c)))
    = (playlist_fetches (calls (shared c))
       + owes_fetch (pc (first c)) + owes_fetch (pc (second c)))%nat
    /\ pc (first (run schedule c)) = PcDone
    /\ pc (second (run schedule c)) = PcDone.
Proof.
  induction schedule as [|who schedule IH]; intros c api Hc H1 H2 L1 L2.
  - simpl in *.
    destruct (pc (first c)); try discriminate; simpl in L1; try lia.
    destruct (pc (second c)); try discriminate; simpl in L2; try lia.
    simpl. repeat split. lia.
  - rewrite run_cons.
    destruct who; unfold sched_step.
    + pose proof (step_past_test (second c) (shared c) api Hc H2) as Hs.
      destruct (step (second c) (shared c)) as [t' self'].
      destruct Hs as (Hc' & Hp' & Hl' & Hf').
      simpl in L1, L2.
      destruct (IH {| first := first c; second := t'; shared := self' |} api)
        as (Hf & Hd1 & Hd2); simpl; try assumption; try lia.
      simpl in Hf. repeat split; try assumption. lia.
    + pose proof (step_past_test (first c) (shared c) api Hc H1) as Hs.
      destruct (step (first c) (shared c)) as [t' self'].
      destruct Hs as (Hc' & Hp' & Hl' & Hf').
      simpl in L1, L2.
      destruct (IH {| first := t'; second := second c; shared := self' |} api)
        as (Hf & Hd1 & Hd2); simpl; try assumption; try lia.
      simpl in Hf. repeat split; try assumption. lia.
Qed.

(** One scheduled statement, for callers whose program counters are known. *)
Ltac sched_one :=
  match goal with
  | |- context [run (?w :: ?sch) ?c] =>
      rewrite (run_cons w sch c);
      unfold sched_step;
      cbv beta iota zeta delta [first second shared];
      unfold step;
      cbv beta iota zeta
          delta [pc at_pc t_now t_playlists t_result t_calls enter first second shared]
  end.

(** A caller that runs alone performs the property as [playlists] does. *)
Lemma run_alone_is_playlists (self : Self) (other : Caller) :
  let c := run (replicate 9 false) {| first := enter; second := other; shared := self |} in
  shared c = snd (Ocp.playlists self)
  /\ pc (first c) = PcDone
  /\ second c = other
  /\ Ret (default ∅ (t_result (first c))) = fst (Ocp.playlists self).
Proof.
  unfold Ocp.playlists. cbv zeta.
  change (replicate 9 false)
    with [false; false; false; false; false; false; false; false; false].
  destruct (spotify self) as [api|] eqn:Hc.
  - sched_one. rewrite Hc. sched_one. sched_one.
    destruct (negb (truthy_dict (_playlists self))
              || Qltb (5 * 60) (now self - playlists_fetched self)) eqn:Et.
    + sched_one. sched_one.
      replace (spotify (set_playlists (Some ∅) self)) with (Some api) by (symmetry; exact Hc).
      do 4 sched_one.
      unfold run. simpl. repeat split.
    + do 6 sched_one. unfold run. simpl. repeat split.
  - sched_one. rewrite Hc. do 8 sched_one. unfold run. simpl. repeat split.
Qed.

Lemma run_alone_second_is_playlists (self : Self) (other : Caller) :
  let c := run (replicate 9 true) {| first := other; second := enter; shared := self |} in
  shared c = snd (Ocp.playlists self)
  /\ pc (second c) = PcDone
  /\ first c = other
  /\ Ret (default ∅ (t_result (second c))) = fst (Ocp.playlists self).
Proof.
  unfold Ocp.playlists. cbv zeta.
  change (replicate 9 true)
    with [true; true; true; true; true; true; true; true; true].
  destruct (spotify self) as [api|] eqn:Hc.
  - sched_one. rewrite Hc. sched_one. sched_one.
    destruct (negb (truthy_dict (_playlists self))
              || Qltb (5 * 60) (now self - playlists_fetched self)) eqn:Et.
    + sched_one. sched_one.
      replace (spotify (set_playlists (Some ∅) self)) with (Some api) by (symmetry; exact Hc).
      do 4 sched_one.
      unfold run. simpl. repeat split.
    + do 6 sched_one. unfold run. simpl. repeat split.
  - sched_one. rewrite Hc. do 8 sched_one. unfold run. simpl. repeat split.
Qed.

Lemma run_app (l1 l2 : list bool) (c : Config) : run (l1 ++ l2) c = run l2 (run l1 c).
Proof. unfold run. apply foldl_app. Qed.


(** ** The track picked by [query_song] *)

Section SortMaxFacts.
Context {A K : Type} (ltb : K -> K -> bool) (key : A -> K).
Hypothesis ltb_asym : forall a b, ltb a b = true -> ltb b a = false.
Hypothesis ltb_trans : forall a b c, ltb a b = true -> ltb b c = true -> ltb a c = true.
Hypothesis geb_trans : forall a b c, ltb b a = false -> ltb c b = false -> ltb c a = false.
Hypothesis ltb_geb_trans : forall a b c, ltb b a = false -> ltb b c = true -> ltb a c = true.

(** The last element of the sorted list is in the list and no element has a
    greater key. *)
Lemma last_sort_by_max (l : list A) (x : A) :
  last (sort_by ltb key l) = Some x ->
  x ∈ l /\ forall y, y ∈ l -> ltb (key x) (key y) = false.
Proof.
  intros Hl.
  destruct (last_sort_by_split ltb key ltb_asym ltb_trans geb_trans ltb_geb_trans l x Hl)
    as (l1 & l2 & -> & H1 & H2).
  split; [apply elem_of_app; right; left|].
  intros y Hy. apply elem_of_app in Hy as [Hy|Hy].
  - rewrite Forall_forall in H1. apply H1, Hy.
  - apply elem_of_cons in Hy as [->|Hy].
    + destruct (ltb (key x) (key x)) eqn:E; [|reflexivity].
      rewrite (ltb_asym _ _ E) in E. discriminate.
    + rewrite Forall_forall in H2. apply ltb_asym, H2, Hy.
Qed.
End SortMaxFacts.

Lemma head_rev_last {A} (l : list A) (x : A) (rest : list A) :
  rev l = x :: rest -> last l = Some x.
Proof.
  intros Hr. rewrite <- (rev_involutive l), Hr. simpl. apply last_snoc.
Qed.

Section SongSelection.
Context `{FuzzyLib}.

End SongSelection.

Lemma percent_band_is_equality (best s : Z) :
  (inject_Z best - (1 # 10) < inject_Z s)%Q -> (best <= s)%Z.
Proof.
  intros Hlt. destruct (Z_le_gt_dec best s) as [Hle|Hgt]; [exact Hle|].
  exfalso. assert (Hs : (s + 1 <= best)%Z) by lia.
  rewrite Zle_Qle, inject_Z_plus in Hs.
  change (inject_Z 1) with 1%Q in Hs. lra.
Qed.

Section SongSelectionPercent.
Context `{FuzzyLib}.

End SongSelectionPercent.

(** X11.  On the unit scale [query_artist] and [query_album] clamp at 1.0. *)
Lemma Client_artist_album_clamped `{FuzzyLib} (phrase : string) (bonus : Q)
      (self self' : Self) (c : Q) (d : value) :
  Client.query_artist phrase bonus self = (Ret (VNum c, d), self')
  \/ Client.query_album phrase bonus self = (Ret (VNum c, d), self') ->
  (c <= 1)%Q.
Proof.
  intros [Hq|Hq].
  - unfold Client.query_artist, bind in Hq.
    destruct (search phrase TArtist self) as [[[[|top items]|]|e] s1]; try discriminate;
      unfold ret in Hq; simpl in Hq; injection Hq as <- _ _.
    apply Q.le_min_r.
  - unfold Client.query_album, bind in Hq.
    destruct (if (1 <? length (split " by " phrase))%nat then _ else _)
      as [[[[album album_search] bonus']|e] s0]; [|discriminate].
    destruct (search album_search TAlbum s0) as [[[[|top items]|]|e] s1]; try discriminate;
      unfold ret in Hq; simpl in Hq; injection Hq as <- _ _.
    apply Q.le_min_r.
Qed.

(** * Further properties of the queries and the caches *)

(** ** The word by *)

(** X1.  A phrase that holds the word by more than once cannot be unpacked
    into a title and an artist: the album and the song query of both clients
    raise [ValueError], and no request is sent. *)
Theorem several_by_words_raise `{FuzzyLib} (phrase : string) (bonus : Q) (self : Self) :
  (2 < length (split " by " phrase))%nat ->
  Ocp.query_album phrase self = (Raise ValueError, self)
  /\ Ocp.query_song phrase self = (Raise ValueError, self)
  /\ Client.query_album phrase bonus self = (Raise ValueError, self)
  /\ Client.query_song phrase bonus self = (Raise ValueError, self).
Proof.
  intros Hl.
  assert (Hlt : (1 <? length (split " by " phrase))%nat = true) by (apply Nat.ltb_lt; lia).
  assert (Hu : forall s, unpack2 (split " by " phrase) s = (Raise ValueError, s)).
  { intros s. destruct (split " by " phrase) as [|a [|b [|c l]]]; simpl in Hl; try lia.
    reflexivity. }
  unfold Ocp.query_album, Ocp.query_song, Client.query_album, Client.query_song.
  rewrite Hlt. unfold bind. rewrite !Hu. repeat split.
Qed.

(** ** What a query sends and what it leaves alone *)

Lemma frame_refl (s : Self) : frame s s.
Proof. repeat split. Qed.

Lemma frame_log (c : Call) (s : Self) : frame s (log c s).
Proof. repeat split. Qed.

Lemma frame_trans (s1 s2 s3 : Self) : frame s1 s2 -> frame s2 s3 -> frame s1 s3.
Proof.
  unfold frame. intros (A1 & A2 & A3 & A4 & A5 & A6 & A7 & A8)
                       (B1 & B2 & B3 & B4 & B5 & B6 & B7 & B8).
  repeat split; congruence.
Qed.

Lemma search_one_search (q : string) (ty : SearchType) (s : Self) :
  one_search ty s (snd (search q ty s)).
Proof.
  unfold search. destruct (spotify s); simpl.
  - split; [apply frame_log|]. right. exists q. reflexivity.
  - split; [apply frame_refl|]. left. reflexivity.
Qed.

(** A computation that searches once and then only computes. *)
Lemma bind_search_one_search {A} (q : string) (ty : SearchType)
      (k : option (list Item) -> M A) (s : Self) :
  (forall d s1, snd (k d s1) = s1) ->
  one_search ty s (snd (bind (search q ty) k s)).
Proof.
  intros Hk. unfold bind.
  pose proof (search_one_search q ty s) as Hs.
  destruct (search q ty s) as [[d|e] s1]; simpl in *; [rewrite Hk|]; exact Hs.
Qed.

Lemma one_search_refl (ty : SearchType) (s : Self) : one_search ty s s.
Proof. split; [apply frame_refl|left; reflexivity]. Qed.

Lemma Ocp_query_artist_one_search `{FuzzyLib} (phrase : string) (self : Self) :
  one_search TArtist self (snd (Ocp.query_artist phrase self)).
Proof.
  unfold Ocp.query_artist. apply bind_search_one_search.
    intros [[|top items]|] s1; reflexivity.
Qed.

Lemma Ocp_query_album_one_search `{FuzzyLib} (phrase : string) (self : Self) :
  one_search TAlbum self (snd (Ocp.query_album phrase self)).
Proof.
  unfold Ocp.query_album.
    destruct (1 <? length (split " by " phrase))%nat.
    + unfold bind at 1. unfold bind at 1.
      destruct (split " by " phrase) as [|a [|b [|c l]]]; simpl; try apply one_search_refl.
      apply bind_search_one_search. intros [[|top items]|] s1; reflexivity.
    + unfold bind at 1. simpl.
      apply bind_search_one_search. intros [[|top items]|] s1; reflexivity.
Qed.

Lemma Ocp_query_song_one_search `{FuzzyLib} (phrase : string) (self : Self) :
  one_search TTrack self (snd (Ocp.query_song phrase self)).
Proof.
  unfold Ocp.query_song.
    assert (Hk : forall song song_search d s1,
               snd (match d with
                    | Some ((_ :: _) as items) =>
                        let tracks := map (fun d => (Ocp.best_confidence (it_name d) song, d)) items in
                        let tracks := sort_by Z.ltb fst tracks in
                        let tracks := rev tracks in
                        match tracks with
                        | [] => raise IndexError
                        | first :: _ =>
                            let tracks :=
                              filter (fun t => Qltb (inject_Z (fst first) - (1 # 10))
                                                    (inject_Z (fst t)) = true) tracks in
                            let tracks := sort_by Z.ltb (fun x => it_popularity (snd x)) tracks in
                            match last tracks with
                            | None => raise IndexError
                            | Some winner =>
                                match it_artists (snd winner) with
                                | [] => raise IndexError
                                | artist_name :: _ =>
                                    let bonus := py_int (fuzzy_match song_search artist_name
                                                                     TOKEN_SET_RATIO * 100) in
                                    ret (VNum (inject_Z (Z.min 100 (fst winner + bonus))),
                                          media_of [snd winner] "track")
                                end
                            end
                        end
                    | _ => ret Ocp.NOTHING_FOUND
                    end s1) = s1).
    { intros song song_search [[|top items]|] s1; try reflexivity.
      cbv zeta. destruct (rev _); [reflexivity|].
      destruct (last _) as [w|]; [|reflexivity].
      destruct (it_artists w.2); reflexivity. }
    destruct (1 <? length (split " by " phrase))%nat.
    + unfold bind at 1. unfold bind at 1.
      destruct (split " by " phrase) as [|a [|b [|c l]]]; simpl; try apply one_search_refl.
      apply bind_search_one_search. intros d s1. apply Hk.
    + unfold bind at 1. simpl.
      apply bind_search_one_search. intros d s1. apply Hk.
Qed.

Lemma Client_query_artist_one_search `{FuzzyLib} (phrase : string) (bonus : Q) (self : Self) :
  one_search TArtist self (snd (Client.query_artist phrase bonus self)).
Proof.
  unfold Client.query_artist. apply bind_search_one_search.
    intros [[|top items]|] s1; reflexivity.
Qed.

Lemma Client_query_album_one_search `{FuzzyLib} (phrase : string) (bonus : Q) (self : Self) :
  one_search TAlbum self (snd (Client.query_album phrase bonus self)).
Proof.
  unfold Client.query_album.
    destruct (1 <? length (split " by " phrase))%nat.
    + unfold bind at 1. unfold bind at 1.
      destruct (split " by " phrase) as [|a [|b [|c l]]]; simpl; try apply one_search_refl.
      apply bind_search_one_search. intros [[|top items]|] s1; reflexivity.
    + unfold bind at 1. simpl.
      apply bind_search_one_search. intros [[|top items]|] s1; reflexivity.
Qed.

Lemma Client_query_song_one_search `{FuzzyLib} (phrase : string) (bonus : Q) (self : Self) :
  one_search TTrack self (snd (Client.query_song phrase bonus self)).
Proof.
  unfold Client.query_song.
    assert (Hk : forall song d s1,
               snd (match d with
                    | Some ((_ :: _) as items) =>
                        let tracks := map (fun d => (Client.best_confidence (it_name d) song, d)) items in
                        let tracks := sort_by Qltb fst tracks in
                        let tracks := rev tracks in
                        match tracks with
                        | [] => raise IndexError
                        | first :: _ =>
                            let tracks :=
                              filter (fun t => Qltb (fst first - (1 # 10)) (fst t) = true) tracks in
                            let tracks := sort_by Z.ltb (fun x => it_popularity (snd x)) tracks in
                            match last tracks with
                            | None => raise IndexError
                            | Some winner =>
                                ret (VNum (fst winner + bonus), media_of [snd winner] "track")
                            end
                        end
                    | _ => ret Client.NOTHING_FOUND
                    end s1) = s1).
    { intros song [[|top items]|] s1; try reflexivity.
      cbv zeta. destruct (rev _); [reflexivity|].
      destruct (last _) as [w|]; reflexivity. }
    destruct (1 <? length (split " by " phrase))%nat.
    + unfold bind at 1. unfold bind at 1.
      destruct (split " by " phrase) as [|a [|b [|c l]]]; simpl; try apply one_search_refl.
      apply bind_search_one_search. intros d s1. apply Hk.
    + unfold bind at 1. simpl.
      apply bind_search_one_search. intros d s1. apply Hk.
Qed.

(** X2.  Each query of the two clients sends at most one request, a search
    of its own type, and changes nothing else: the cached playlists, devices
    and saved tracks, their time stamps and the connection stay as they
    were. *)
Theorem queries_send_one_search `{FuzzyLib} (phrase : string) (bonus : Q) (self : Self) :
  one_search TArtist self (snd (Ocp.query_artist phrase self))
  /\ one_search TAlbum self (snd (Ocp.query_album phrase self))
  /\ one_search TTrack self (snd (Ocp.query_song phrase self))
  /\ one_search TArtist self (snd (Client.query_artist phrase bonus self))
  /\ one_search TAlbum self (snd (Client.query_album phrase bonus self))
  /\ one_search TTrack self (snd (Client.query_song phrase bonus self)).
Proof.
  split; [apply Ocp_query_artist_one_search|].
  split; [apply Ocp_query_album_one_search|].
  split; [apply Ocp_query_song_one_search|].
  split; [apply Client_query_artist_one_search|].
  split; [apply Client_query_album_one_search|].
  apply Client_query_song_one_search.
Qed.

(** ** Without a connection *)

(** X3.  Without a connection the cached collections answer empty and send
    nothing, and the user playlist lookup finds nothing; a search has no
    client to ask and raises [AttributeError], and so does the generic query,
    whose second lookup is a search. *)
Theorem not_connected `{FuzzyLib} (get_best_public_playlist : string -> M result)
        (phrase : string) (bonus : Q) (fuel : nat) (self : Self) :
  spotify self = None ->
  Ocp.devices self = (Ret [], self)
  /\ Ocp.playlists self = (Ret ∅, self)
  /\ Skill.refresh_saved_tracks fuel self = (Ret (Some []), self)
  /\ Ocp.get_best_user_playlist phrase self = (Ret Ocp.NOTHING_FOUND, self)
  /\ Client.get_best_user_playlist phrase self = (Ret Client.NOTHING_FOUND, self)
  /\ Ocp.query_artist phrase self = (Raise AttributeError, self)
  /\ Client.query_artist phrase bonus self = (Raise AttributeError, self)
  /\ Client.generic_query get_best_public_playlist phrase bonus self
     = (Raise AttributeError, self).
Proof.
  intros Hc.
  assert (Hd : Ocp.devices self = (Ret [], self)).
  { unfold Ocp.devices. rewrite Hc. reflexivity. }
  assert (Hp : Ocp.playlists self = (Ret ∅, self)).
  { unfold Ocp.playlists. rewrite Hc. reflexivity. }
  assert (Hs : forall q ty, search q ty self = (Raise AttributeError, self)).
  { intros q ty. unfold search. rewrite Hc. reflexivity. }
  assert (Hu : Client.get_best_user_playlist phrase self = (Ret Client.NOTHING_FOUND, self)).
  { unfold Client.get_best_user_playlist, Client.playlists, bind. rewrite Hp. reflexivity. }
  assert (Ha : Client.query_artist phrase 0 self = (Raise AttributeError, self)).
  { unfold Client.query_artist, bind. rewrite Hs. reflexivity. }
  split; [exact Hd|]. split; [exact Hp|].
  split; [unfold Skill.refresh_saved_tracks; rewrite Hc; reflexivity|].
  split; [unfold Ocp.get_best_user_playlist, bind; rewrite Hp; reflexivity|].
  split; [exact Hu|].
  split; [unfold Ocp.query_artist, bind; rewrite Hs; reflexivity|].
  split; [unfold Client.query_artist, bind; rewrite Hs; reflexivity|].
  unfold Client.generic_query. unfold bind at 1. rewrite Hu.
  cbv beta iota delta [Client.NOTHING_FOUND truthy]. unfold bind at 1. unfold ret at 1.
  cbv beta iota.
  unfold bind at 1. unfold lift at 1. simpl exceeds. cbv beta iota.
  unfold bind at 1. unfold lift at 1. cbv beta iota.
  unfold bind at 1. rewrite Ha. reflexivity.
Qed.

(** ** The user playlist lookup *)


(** ** The pages of saved tracks *)

Lemma page_requests_S (offset k : nat) :
  page_requests offset (S k) = CallSavedTracks 50 offset :: page_requests (offset + 50) k.
Proof.
  unfold page_requests. simpl seq. rewrite <- seq_shift. simpl map. rewrite map_map.
  f_equal; [f_equal; lia|]. apply map_ext. intros i. f_equal. lia.
Qed.

Lemma page_0 (api : Backend) (hist : list Call) (offset : nat) :
  page api hist offset 0 = api_current_user_saved_tracks api hist 50 offset.
Proof.
  unfold page, page_requests. simpl. rewrite app_nil_r. f_equal. lia.
Qed.

Lemma page_S (api : Backend) (hist : list Call) (offset i : nat) :
  page api hist offset (S i)
  = page api (hist ++ [CallSavedTracks 50 offset]) (offset + 50) i.
Proof.
  unfold page. rewrite page_requests_S, <- app_assoc. simpl. f_equal. lia.
Qed.

Lemma pages_items_S (api : Backend) (hist : list Call) (offset k : nat) :
  pages_items api hist offset (S k)
  = b_items (api_current_user_saved_tracks api hist 50 offset)
    ++ pages_items api (hist ++ [CallSavedTracks 50 offset]) (offset + 50) k.
Proof.
  unfold pages_items. simpl seq. rewrite <- seq_shift. simpl map. rewrite map_map.
  simpl concat. rewrite page_0. f_equal. f_equal. apply map_ext. intros i.
  rewrite page_S. reflexivity.
Qed.

Lemma log_all_cons (c : Call) (cs : list Call) (s : Self) :
  log_all (c :: cs) s = log_all cs (log c s).
Proof. reflexivity. Qed.

Lemma calls_log_all (cs : list Call) (s : Self) : calls (log_all cs s) = calls s ++ cs.
Proof.
  revert s. induction cs as [|c cs IH]; intros s.
  - simpl. rewrite app_nil_r. reflexivity.
  - rewrite log_all_cons, IH. simpl. rewrite <- app_assoc. reflexivity.
Qed.

Lemma frame_log_all (cs : list Call) (s : Self) : frame s (log_all cs s).
Proof.
  revert s. induction cs as [|c cs IH]; intros s; [apply frame_refl|].
  rewrite log_all_cons. eapply frame_trans; [apply frame_log|apply IH].
Qed.

(** The page loop in closed form: when page [k] is the first without a
    successor, the loop sends the requests for the pages 0 to [k] and returns
    the tracks of these pages, in order, after what it was given. *)
Lemma saved_tracks_loop_pages (api : Backend) (k : nat) :
  forall (offset : nat) (acc : list Item) (self : Self) (fuel : nat),
    (forall i, (i < k)%nat -> b_next (page api (calls self) offset i) = true) ->
    b_next (page api (calls self) offset k) = false ->
    (k < fuel)%nat ->
    Skill.saved_tracks_loop fuel api offset acc self
    = (Ret (acc ++ pages_items api (calls self) offset (S k)),
       log_all (page_requests offset (S k)) self).
Proof.
  induction k as [|k IH]; intros offset acc self fuel Hnext Hlast Hfuel.
  - destruct fuel as [|fuel]; [lia|].
    rewrite page_0 in Hlast. simpl Skill.saved_tracks_loop. rewrite Hlast. simpl negb.
    cbv iota. rewrite pages_items_S, page_requests_S.
    unfold pages_items, page_requests. simpl. rewrite app_nil_r. reflexivity.
  - destruct fuel as [|fuel]; [lia|].
    assert (H0 : b_next (api_current_user_saved_tracks api (calls self) 50 offset) = true).
    { rewrite <- page_0. apply Hnext. lia. }
    simpl Skill.saved_tracks_loop. rewrite H0. simpl negb. cbv iota.
    rewrite (IH (offset + 50)%nat _ (log (CallSavedTracks 50 offset) self) fuel).
    + rewrite (pages_items_S api (calls self) offset (S k)).
      rewrite (page_requests_S offset (S k)), log_all_cons, <- app_assoc. reflexivity.
    + intros i Hi. simpl calls. rewrite <- page_S. apply Hnext. lia.
    + simpl calls. rewrite <- page_S. exact Hlast.
    + lia.
Qed.

(** X5.  When the cached saved tracks are missing, empty or older than four
    hours, [refresh_saved_tracks] asks for pages of 50 tracks at the offsets
    0, 50, 100, ... up to the first page that announces no successor, and
    stores the tracks of all these pages, in order, with the current time.
    An empty page does not end the loop. *)
Theorem saved_tracks_are_all_pages (api : Backend) (self : Self) (k fuel : nat) :
  spotify self = Some api ->
  truthy_list (saved_tracks self) = false
  \/ (4 * 60 * 60 < now self - saved_tracks_fetched self)%Q ->
  (forall i, (i < k)%nat -> b_next (page api (calls self) 0 i) = true) ->
  b_next (page api (calls self) 0 k) = false ->
  (k < fuel)%nat ->
  let self' := snd (Skill.refresh_saved_tracks fuel self) in
  fst (Skill.refresh_saved_tracks fuel self) = Ret None
  /\ saved_tracks self' = Some (pages_items api (calls self) 0 (S k))
  /\ calls self' = calls self ++ map (fun i => CallSavedTracks 50 (50 * i)) (seq 0 (S k))
  /\ saved_tracks_fetched self' = now self
  /\ _playlists self' = _playlists self /\ device_list self' = device_list self.
Proof.
  intros Hc Hs Hnext Hlast Hfuel.
  assert (Hcond : negb (truthy_list (saved_tracks self))
                  || Qltb (4 * 60 * 60) (now self - saved_tracks_fetched self) = true).
  { destruct Hs as [Ht|Hn]; [rewrite Ht; reflexivity|].
    apply Qltb_lt in Hn. rewrite Hn. apply orb_true_r. }
  unfold Skill.refresh_saved_tracks. rewrite Hc, Hcond.
  rewrite (saved_tracks_loop_pages api k 0%nat [] self fuel Hnext Hlast Hfuel).
  pose proof (frame_log_all (page_requests 0 (S k)) self) as (_ & F2 & _ & F4 & _).
  cbv zeta. unfold set_saved_tracks_fetched, set_saved_tracks.
  cbn [fst snd saved_tracks calls saved_tracks_fetched _playlists device_list].
  rewrite calls_log_all.
  split; [reflexivity|]. split; [reflexivity|]. split; [reflexivity|].
  split; [reflexivity|]. split; [exact F2|exact F4].
Qed.

(** ** Searches without items *)

(** X6.  A search that answers nothing, or a response without items, makes
    the artist, album and song query of both clients and the public playlist
    lookup return their [NOTHING_FOUND], after the one request. *)
Theorem empty_search_finds_nothing `{FuzzyLib} (self : Self) (api : Backend)
        (phrase : string) (bonus : Q) :
  spotify self = Some api ->
  length (split " by " phrase) = 1%nat ->
  (forall ty, no_items (api_search api (calls self) phrase ty)) ->
  Ocp.query_artist phrase self
    = (Ret Ocp.NOTHING_FOUND, log (CallSearch phrase TArtist) self)
  /\ Ocp.query_album phrase self
     = (Ret Ocp.NOTHING_FOUND, log (CallSearch phrase TAlbum) self)
  /\ Ocp.query_song phrase self
     = (Ret Ocp.NOTHING_FOUND, log (CallSearch phrase TTrack) self)
  /\ Client.query_artist phrase bonus self
     = (Ret Client.NOTHING_FOUND, log (CallSearch phrase TArtist) self)
  /\ Client.query_album phrase bonus self
     = (Ret Client.NOTHING_FOUND, log (CallSearch phrase TAlbum) self)
  /\ Client.query_song phrase bonus self
     = (Ret Client.NOTHING_FOUND, log (CallSearch phrase TTrack) self)
  /\ Skill.get_best_public_playlist phrase self
     = (Ret Skill.NOTHING_FOUND, log (CallSearch phrase TPlaylist) self).
Proof.
  intros Hc Hl Hn.
  destruct (query_artist_empty self api Hc phrase bonus (Hn TArtist)) as [A1 A2].
  destruct (query_album_empty self api Hc phrase bonus Hl (Hn TAlbum)) as [B1 B2].
  destruct (query_song_empty self api Hc phrase bonus Hl (Hn TTrack)) as [C1 C2].
  pose proof (get_best_public_playlist_empty self api Hc phrase (Hn TPlaylist)) as D.
  split; [exact A2|]. split; [exact B2|]. split; [exact C2|].
  split; [exact A1|]. split; [exact B1|]. split; [exact C1|exact D].
Qed.

(** ** Scores in the unit interval *)

Lemma Bounded_similarity_range (a b : string) : (0 <= Bounded.similarity a b <= 1)%Q.
Proof.
  unfold Bounded.similarity. split; [apply Q.le_max_l|].
  apply Q.max_lub; [discriminate|apply Q.le_min_l].
Qed.

Lemma Bounded_range : @FuzzyRange Bounded.scorer.
Proof.
  split.
  - intros a b st. apply Bounded_similarity_range.
  - intros q m st. simpl. unfold Bounded.best_key.
    induction (map_to_list m) as [|kv l IH]; simpl; [split; discriminate|].
    destruct (Qltb _ _); [apply Bounded_similarity_range|exact IH].
Qed.

(** X7.  On the 0-100 scale the user playlist lookup reports a whole
    percentage between 70 and 100 with the playlist it found, for a scorer
    with scores in the unit interval; otherwise it returns [NOTHING_FOUND]. *)
Theorem Ocp_user_playlist_percentage `{FuzzyRange} (phrase : string) (self self' : Self)
        (r : result) :
  Ocp.get_best_user_playlist phrase self = (Ret r, self') ->
  r = Ocp.NOTHING_FOUND
  \/ exists n : Z, snd r = VNum (inject_Z n) /\ (70 <= n <= 100)%Z.
Proof.
  unfold Ocp.get_best_user_playlist, bind.
  destruct (Ocp.playlists self) as [[playlists|e] s1]; [|discriminate].
  destruct (0 <? size playlists)%nat; [|intros [= <- _]; left; reflexivity].
  pose proof (match_one_range (lower phrase) playlists TOKEN_SET_RATIO) as Hr.
  destruct (match_one (lower phrase) playlists TOKEN_SET_RATIO) as [k c]. simpl in Hr.
  destruct (Qltb (7 # 10) c) eqn:Hc; [|intros [= <- _]; left; reflexivity].
  intros [= <- _]. right. exists (py_int (c * 100)). split; [reflexivity|].
  apply Qltb_lt in Hc. split; [|apply py_int_percent, Hr].
  change 70%Z with (py_int 70). apply py_int_mono. lra.
Qed.

(** * The credentials and the Spotify Connect client *)

Section ConnectFacts.
Import Connect.

Lemma request_run {A} (r : Request) (answer : list Request -> reply A) (c : Conn) :
  request r answer c
  = (answer (sent c),
     {| access_token := access_token c; expiration_time := expiration_time c;
        clock := clock c; sent := sent c ++ [r] |}).
Proof. reflexivity. Qed.

(** [get_token] by the answers of the token service. *)
Lemma get_token_cases (acct : Account) (c : Conn) :
  let r := fst (get_token acct c) in
  let c' := snd (get_token acct c) in
  (access_token c' = access_token c /\ expiration_time c' = expiration_time c
   /\ clock c' = clock c)
  /\ (forall d, r = Answer d -> jtruthy d = true)
  /\ match oauth_token acct (sent c) with
     | Fails (HTTPError status_code) =>
         if ((status_code =? 404) || (status_code =? 401))%Z
         then r = Fails SpotifyNotAuthorizedError /\ sent c' = sent c ++ [ReqToken]
         else sent c' = sent c ++ [ReqToken; ReqToken]
              /\ match oauth_token acct (sent c ++ [ReqToken]) with
                 | Fails e => r = Fails e
                 | Answer d =>
                     r = if jtruthy d then Answer d else Fails SpotifyNotAuthorizedError
                 end
     | Fails e => r = Fails e /\ sent c' = sent c ++ [ReqToken]
     | Answer d =>
         r = (if jtruthy d then Answer d else Fails SpotifyNotAuthorizedError)
         /\ sent c' = sent c ++ [ReqToken]
     end.
Proof.
  unfold get_token, request. cbv zeta.
  destruct (oauth_token acct (sent c)) as [d|[e|status_code|]] eqn:E1.
  - cbn -[jtruthy]. destruct (jtruthy d) eqn:Ed; cbn -[jtruthy].
    + repeat split. intros d' [= <-]. exact Ed.
    + repeat split. intros d' [=].
  - cbn. repeat split. intros d' [=].
  - destruct (status_code =? 404)%Z eqn:E404; [cbn; repeat split; intros d' [=]|].
    destruct (status_code =? 401)%Z eqn:E401; [cbn; repeat split; intros d' [=]|].
    cbn -[jtruthy].
    destruct (oauth_token acct (sent c ++ [ReqToken])) as [d|e] eqn:E2.
    + destruct (jtruthy d) eqn:Ed; cbn -[jtruthy]; rewrite <- app_assoc.
      * repeat split. intros d' [= <-]. exact Ed.
      * repeat split. intros d' [=].
    + cbn. rewrite <- app_assoc. repeat split. intros d' [=].
  - cbn. repeat split. intros d' [=].
Qed.


Lemma classic_401 {A} (a : reply A) :
  a = Fails (HTTPError 401) \/ a <> Fails (HTTPError 401).
Proof.
  destruct a as [x|[e|status_code|]]; try (right; discriminate).
  destruct (Z.eq_dec status_code 401%Z) as [->|Hne]; [left; reflexivity|].
  right. intros [= E]. contradiction.
Qed.

(** [get_token] sends at least one request. *)
Lemma get_token_sent (acct : Account) (c : Conn) :
  exists more, sent (snd (get_token acct c)) = sent c ++ ReqToken :: more.
Proof.
  pose proof (get_token_cases acct c) as (_ & _ & Hcases). cbv zeta in Hcases.
  destruct (oauth_token acct (sent c)) as [d|[e|status_code|]].
  - exists []. apply Hcases.
  - exists []. apply Hcases.
  - destruct ((status_code =? 404) || (status_code =? 401))%Z.
    + exists []. apply Hcases.
    + exists [ReqToken]. apply Hcases.
  - exists []. apply Hcases.
Qed.

Lemma snoc_ne_snoc2 {A} (l : list A) (x y z : A) : l ++ [x] <> l ++ [y; z].
Proof.
  intros E. apply (f_equal (@length _)) in E. rewrite !length_app in E. simpl in E. lia.
Qed.

(** X12.  [get_token] asks the token service once, and a second time exactly
    when the first answer is an HTTP error other than 404 and 401; these two
    raise [SpotifyNotAuthorizedError] at once.  What the second request
    raises is passed on as it is.  A token that is returned is never empty,
    and the credentials are not touched. *)
Theorem get_token_single_retry (acct : Account) (c : Conn) :
  let r := fst (get_token acct c) in
  let c' := snd (get_token acct c) in
  (access_token c' = access_token c /\ expiration_time c' = expiration_time c
   /\ clock c' = clock c)
  /\ (forall d, r = Answer d -> jtruthy d = true)
  /\ (sent c' = sent c ++ [ReqToken] \/ sent c' = sent c ++ [ReqToken; ReqToken])
  /\ (sent c' = sent c ++ [ReqToken; ReqToken]
      <-> exists status_code,
            oauth_token acct (sent c) = Fails (HTTPError status_code)
            /\ status_code <> 404%Z /\ status_code <> 401%Z)
  /\ (forall status_code,
        oauth_token acct (sent c) = Fails (HTTPError status_code) ->
        status_code = 404%Z \/ status_code = 401%Z ->
        r = Fails SpotifyNotAuthorizedError)
  /\ (forall e,
        sent c' = sent c ++ [ReqToken; ReqToken] ->
        oauth_token acct (sent c ++ [ReqToken]) = Fails e ->
        r = Fails e).
Proof.
  intros r c'. pose proof (get_token_cases acct c) as (Hsame & Htruthy & Hcases).
  fold r c' in Hsame, Htruthy, Hcases.
  split; [exact Hsame|]. split; [exact Htruthy|].
  destruct (oauth_token acct (sent c)) as [d|[e|status_code|]] eqn:E1.
  - destruct Hcases as [_ Hs]. split; [left; exact Hs|]. split; [|split].
    + rewrite Hs. split; [intros E; destruct (snoc_ne_snoc2 _ _ _ _ E)|].
      intros (st & [=] & _).
    + intros st [=].
    + rewrite Hs. intros e E. destruct (snoc_ne_snoc2 _ _ _ _ E).
  - destruct Hcases as [_ Hs]. split; [left; exact Hs|]. split; [|split].
    + rewrite Hs. split; [intros E; destruct (snoc_ne_snoc2 _ _ _ _ E)|].
      intros (st & [=] & _).
    + intros st [=].
    + rewrite Hs. intros e' E. destruct (snoc_ne_snoc2 _ _ _ _ E).
  - destruct ((status_code =? 404) || (status_code =? 401))%Z eqn:Est.
    + destruct Hcases as [Hr Hs]. split; [left; exact Hs|]. split; [|split].
      * rewrite Hs. split; [intros E; destruct (snoc_ne_snoc2 _ _ _ _ E)|].
        intros (st & [= <-] & H404 & H401).
        apply orb_true_iff in Est as [E|E]; apply Z.eqb_eq in E; contradiction.
      * intros st _ _. exact Hr.
      * rewrite Hs. intros e E. destruct (snoc_ne_snoc2 _ _ _ _ E).
    + destruct Hcases as [Hs Hr]. split; [right; exact Hs|]. split; [|split].
      * split; [|intros _; exact Hs]. intros _. exists status_code.
        apply orb_false_iff in Est as [E4 E1']. apply Z.eqb_neq in E4, E1'.
        split; [reflexivity|]. split; assumption.
      * intros st [= <-] [->| ->]; discriminate Est.
      * intros e _ E2. rewrite E2 in Hr. exact Hr.
  - destruct Hcases as [_ Hs]. split; [left; exact Hs|]. split; [|split].
    + rewrite Hs. split; [intros E; destruct (snoc_ne_snoc2 _ _ _ _ E)|].
      intros (st & [=] & _).
    + intros st [=].
    + rewrite Hs. intros e' E. destruct (snoc_ne_snoc2 _ _ _ _ E).
Qed.


(** *** The cached access token *)

(** A call that finds a token and a time of expiry that has not passed
    answers from the cache. *)
Lemma get_access_token_cached (acct : Account) (c : Conn) (e : Q) :
  jtruthy (access_token c) = true ->
  expiration_time c = JNum e ->
  (clock c <= e)%Q ->
  get_access_token acct false c = (Answer (access_token c), c).
Proof.
  intros Ht He Hle. unfold get_access_token. rewrite Ht, He. simpl negb. cbv iota.
  unfold after. apply Qltb_ge in Hle. rewrite Hle. reflexivity.
Qed.

(** What a call returns is what it leaves in [self.access_token]. *)
Lemma get_access_token_stored (acct : Account) (force : bool) (c c1 : Conn) (tok : json) :
  get_access_token acct force c = (Answer tok, c1) ->
  access_token c1 = tok.
Proof.
  unfold get_access_token.
  destruct (if negb (jtruthy (access_token c)) then _ else _) as [[|]|e].
  - unfold cbind, clift. destruct (get_token acct c) as [[d|e] c0]; [|discriminate].
    destruct (getitem d "access_token") as [token|e]; [|discriminate].
    destruct (jget d "expiration") as [expiration|e]; [|discriminate].
    intros [= <- <-]. reflexivity.
  - intros [= <- <-]. reflexivity.
  - discriminate.
Qed.

(** X13.  The token that [get_access_token] returns is the one it keeps, and
    while the time of expiry it keeps has not passed a call without [force]
    returns that token again without a request. *)
Theorem access_token_reused_until_expiry (acct : Account) (force : bool) (c c1 : Conn)
        (tok : json) (e : Q) :
  get_access_token acct force c = (Answer tok, c1) ->
  jtruthy tok = true ->
  expiration_time c1 = JNum e ->
  access_token c1 = tok
  /\ forall t, (t <= e)%Q ->
       get_access_token acct false (set_clock t c1) = (Answer tok, set_clock t c1).
Proof.
  intros Hg Ht He. pose proof (get_access_token_stored acct force c c1 tok Hg) as Hs.
  split; [exact Hs|]. intros t Hle.
  rewrite (get_access_token_cached acct (set_clock t c1) e).
  - simpl. rewrite Hs. reflexivity.
  - simpl. rewrite Hs. exact Ht.
  - exact He.
  - exact Hle.
Qed.

(** X14.  A first call, with nothing cached, asks the token service; when the
    answer names a token and no time of expiry, the token is kept for 3600
    seconds from now: up to then it is returned without a request, after
    that the next call asks the service again. *)
Theorem access_token_default_lifetime (acct : Account) (c : Conn)
        (d : list (string * json)) (tok : json) :
  jtruthy (access_token c) = false ->
  oauth_token acct (sent c) = Answer (JDict d) ->
  assoc "access_token" d = Some tok ->
  jtruthy tok = true ->
  jtruthy (default JNull (assoc "expiration" d)) = false ->
  let c1 := snd (get_access_token acct false c) in
  fst (get_access_token acct false c) = Answer tok
  /\ sent c1 = sent c ++ [ReqToken]
  /\ expiration_time c1 = JNum (clock c + 3600)
  /\ (forall t, (t <= clock c + 3600)%Q ->
        get_access_token acct false (set_clock t c1) = (Answer tok, set_clock t c1))
  /\ (forall t, (clock c + 3600 < t)%Q ->
        exists more,
          sent (snd (get_access_token acct false (set_clock t c1)))
          = sent c1 ++ ReqToken :: more).
Proof.
  intros Hnone Hans Htok Ht Hexp.
  assert (Hd : jtruthy (JDict d) = true) by (destruct d; [discriminate|reflexivity]).
  assert (Hget : get_token acct c
                 = (Answer (JDict d),
                    {| access_token := access_token c; expiration_time := expiration_time c;
                       clock := clock c; sent := sent c ++ [ReqToken] |})).
  { unfold get_token, request. cbv zeta. rewrite Hans, Hd. reflexivity. }
  assert (Hrun : get_access_token acct false c
                 = (Answer tok,
                    {| access_token := tok; expiration_time := JNum (clock c + 3600);
                       clock := clock c; sent := sent c ++ [ReqToken] |})).
  { unfold get_access_token. rewrite Hnone. simpl negb. cbv iota.
    unfold cbind, clift. rewrite Hget. unfold getitem, jget. rewrite Htok, Hexp.
    reflexivity. }
  rewrite Hrun. cbv zeta. simpl fst. simpl snd.
  split; [reflexivity|]. split; [reflexivity|]. split; [reflexivity|]. split.
  - intros t Hle.
    rewrite (get_access_token_cached acct _ (clock c + 3600)); simpl; try reflexivity;
      assumption.
  - intros t Hlt.
    remember (set_clock t {| access_token := tok;
                             expiration_time := JNum (clock c + 3600);
                             clock := clock c; sent := sent c ++ [ReqToken] |}) as c2 eqn:E2.
    assert (Ha : jtruthy (access_token c2) = true) by (rewrite E2; exact Ht).
    assert (He : expiration_time c2 = JNum (clock c + 3600)) by (rewrite E2; reflexivity).
    assert (Hc : clock c2 = t) by (rewrite E2; reflexivity).
    assert (Hs : sent c2 = sent c ++ [ReqToken]) by (rewrite E2; reflexivity).
    rewrite <- Hs. clear E2 Hs.
    unfold get_access_token. rewrite Ha, He, Hc.
    simpl negb. cbv iota. unfold after.
    apply Qltb_lt in Hlt. rewrite Hlt.
    destruct (get_token_sent acct c2) as (more & Hmore).
    unfold cbind, clift.
    destruct (get_token acct c2) as [[d'|e'] c3]; simpl in Hmore; [|exists more; exact Hmore].
    destruct (getitem d' "access_token") as [token|e]; [|exists more; exact Hmore].
    destruct (jget d' "expiration") as [expiration|e]; exists more; exact Hmore.
Qed.


(** *** The decorator *)

(** The requests of [get_access_token]: none, one or two for a token. *)
Lemma get_access_token_sent (acct : Account) (force : bool) (c : Conn) :
  exists toks,
    sent (snd (get_access_token acct force c)) = sent c ++ toks
    /\ (toks = [] \/ toks = [ReqToken] \/ toks = [ReqToken; ReqToken]).
Proof.
  unfold get_access_token.
  destruct (if negb (jtruthy (access_token c)) then _ else _) as [[|]|e].
  - pose proof (get_token_cases acct c) as (_ & _ & Hcases). cbv zeta in Hcases.
    assert (Hs : exists toks, sent (snd (get_token acct c)) = sent c ++ toks
                              /\ (toks = [] \/ toks = [ReqToken] \/ toks = [ReqToken; ReqToken])).
    { destruct (oauth_token acct (sent c)) as [d|[e|status_code|]].
      - exists [ReqToken]. split; [apply Hcases|auto].
      - exists [ReqToken]. split; [apply Hcases|auto].
      - destruct ((status_code =? 404) || (status_code =? 401))%Z.
        + exists [ReqToken]. split; [apply Hcases|auto].
        + exists [ReqToken; ReqToken]. split; [apply Hcases|auto].
      - exists [ReqToken]. split; [apply Hcases|auto]. }
    destruct Hs as (toks & Hs & Ht). exists toks. split; [|exact Ht].
    unfold cbind, clift. destruct (get_token acct c) as [[d|e] c0]; simpl in Hs; [|exact Hs].
    destruct (getitem d "access_token") as [token|e]; [|exact Hs].
    destruct (jget d "expiration") as [expiration|e]; exact Hs.
  - exists []. split; [simpl; rewrite app_nil_r; reflexivity|auto].
  - exists []. split; [simpl; rewrite app_nil_r; reflexivity|auto].
Qed.

Lemma is_request_refl (r : Request) : is_request r r = true.
Proof.
  destruct r as [| | |d f|s]; simpl; try reflexivity.
  - rewrite String.eqb_refl. destruct f; reflexivity.
  - destruct s; reflexivity.
Qed.

Lemma is_request_token (r : Request) : r <> ReqToken -> is_request r ReqToken = false.
Proof. intros Hr. destruct r; try reflexivity. contradiction. Qed.

Lemma count_requests_app (r : Request) (l1 l2 : list Request) :
  count_requests r (l1 ++ l2) = (count_requests r l1 + count_requests r l2)%nat.
Proof. unfold count_requests. rewrite List.filter_app, length_app. reflexivity. Qed.

(** A decorated request by the answer to its first attempt. *)
Lemma wrapped_request_cases {A} (acct : Account) (r : Request)
      (answer : list Request -> reply A) (c : Conn) :
  let wrapped := refresh_spotify_oauth acct (request r answer) in
  (answer (sent c) <> Fails (HTTPError 401) -> wrapped c = request r answer c)
  /\ (answer (sent c) = Fails (HTTPError 401) ->
      exists toks,
        (toks = [] \/ toks = [ReqToken] \/ toks = [ReqToken; ReqToken])
        /\ ((sent (snd (wrapped c)) = sent c ++ r :: toks
             /\ exists e, fst (wrapped c) = Fails e)
            \/ (sent (snd (wrapped c)) = sent c ++ r :: toks ++ [r]
                /\ fst (wrapped c) = answer (sent c ++ r :: toks)))).
Proof.
  intros wrapped. unfold wrapped, refresh_spotify_oauth. rewrite request_run. split.
  - intros Hne. destruct (answer (sent c)) as [a|[e|status_code|]]; try reflexivity.
    destruct (status_code =? 401)%Z eqn:E; [|reflexivity].
    apply Z.eqb_eq in E. subst. contradiction.
  - intros ->. simpl Z.eqb. cbv iota. unfold cbind.
    match goal with |- context [get_access_token acct true ?c1] =>
      destruct (get_access_token_sent acct true c1) as (toks & Hs & Ht);
      destruct (get_access_token acct true c1) as [[tok|e] c2] end.
    + exists toks. split; [exact Ht|]. right. simpl in Hs. rewrite request_run.
      simpl. rewrite Hs, <- !app_assoc. split; reflexivity.
    + exists toks. split; [exact Ht|]. left. simpl in Hs. simpl.
      rewrite Hs, <- app_assoc. split; [reflexivity|]. exists e. reflexivity.
Qed.



(** *** Devices and playback state *)

Lemma first_with_id_Some (device : string) (devices : list Device) (d : Device) :
  first_with_id device devices = Some d
  <-> exists l1 l2, devices = l1 ++ d :: l2 /\ dev_id d = device
                    /\ Forall (fun x => dev_id x <> device) l1.
Proof.
  induction devices as [|x devices IH]; simpl.
  - split; [discriminate|]. intros (l1 & l2 & E & _). destruct l1; discriminate.
  - destruct (String.eqb (dev_id x) device) eqn:Ex.
    + apply String.eqb_eq in Ex. split.
      * intros [= <-]. exists [], devices. split; [reflexivity|]. split; [exact Ex|constructor].
      * intros (l1 & l2 & E & Hd & Hl). destruct l1 as [|y l1].
        -- injection E as -> _. reflexivity.
        -- injection E as <- _. inversion Hl; subst. contradiction.
    + apply String.eqb_neq in Ex. rewrite IH. split.
      * intros (l1 & l2 & -> & Hd & Hl). exists (x :: l1), l2.
        split; [reflexivity|]. split; [exact Hd|]. constructor; assumption.
      * intros (l1 & l2 & E & Hd & Hl). destruct l1 as [|y l1].
        -- injection E as -> _. contradiction.
        -- injection E as <- ->. inversion Hl; subst. exists l1, l2. auto.
Qed.

Lemma first_with_id_None (device : string) (devices : list Device) :
  first_with_id device devices = None <-> Forall (fun x => dev_id x <> device) devices.
Proof.
  induction devices as [|x devices IH]; simpl.
  - split; [constructor|reflexivity].
  - destruct (String.eqb (dev_id x) device) eqn:Ex.
    + apply String.eqb_eq in Ex. split; [discriminate|].
      intros Hl. inversion Hl; subst. contradiction.
    + apply String.eqb_neq in Ex. rewrite IH. split.
      * intros Hl. constructor; assumption.
      * intros Hl. inversion Hl; subst. assumption.
Qed.

(** X16.  [get_device] asks for the devices as [get_devices] does and
    returns the first device of the answer that has the id, [None] when no
    device has it; what [get_devices] raises is passed on. *)
Theorem get_device_first_match (acct : Account) (device : string) (c : Conn) :
  match get_devices acct c with
  | (Answer devices, c') =>
      get_device acct device c = (Answer (first_with_id device devices), c')
      /\ (forall d, first_with_id device devices = Some d ->
                    exists l1 l2, devices = l1 ++ d :: l2 /\ dev_id d = device
                                  /\ Forall (fun x => dev_id x <> device) l1)
      /\ (first_with_id device devices = None <->
          Forall (fun x => dev_id x <> device) devices)
  | (Fails e, c') => get_device acct device c = (Fails e, c')
  end.
Proof.
  unfold get_device, cbind.
  destruct (get_devices acct c) as [[devices|e] c']; [|reflexivity].
  split; [reflexivity|]. split; [|apply first_with_id_None].
  intros d Hd. apply first_with_id_Some, Hd.
Qed.

(** [is_playing_body] never raises. *)
Lemma is_playing_body_answers (acct : Account) (device : option string) (c : Conn) :
  exists v, fst (is_playing_body acct device c) = Answer v.
Proof.
  unfold is_playing_body. cbv zeta.
  destruct (cbind _ _ c) as [[v|e] c']; [exists v|exists (JBool false)]; reflexivity.
Qed.

(** X17.  [is_playing] never raises: whatever goes wrong inside is answered
    [False], so the decorator around it has nothing to retry.  A true answer
    means that the status was fetched and reports playback; for a given
    device it means moreover that the first device with that id in the list
    then fetched is active. *)
Theorem is_playing_never_raises (acct : Account) (device : option string) (c : Conn) :
  is_playing acct device c = is_playing_body acct device c
  /\ exists v,
       fst (is_playing acct device c) = Answer v
       /\ (jtruthy v = true ->
           exists st playing,
             fst (status acct c) = Answer st
             /\ getitem st "is_playing" = Answer playing
             /\ jtruthy playing = true
             /\ match device with
                | None => v = playing
                | Some id =>
                    exists devices dev,
                      fst (get_devices acct (snd (status acct c))) = Answer devices
                      /\ first_with_id id devices = Some dev
                      /\ dev_is_active dev = true
                      /\ v = JBool true
                end).
Proof.
  assert (Hsame : is_playing acct device c = is_playing_body acct device c).
  { unfold is_playing, refresh_spotify_oauth.
    destruct (is_playing_body_answers acct device c) as (v & Hv).
    destruct (is_playing_body acct device c) as [[v'|e] c']; [reflexivity|discriminate]. }
  split; [exact Hsame|]. rewrite Hsame.
  unfold is_playing_body. cbv zeta. unfold cbind at 1.
  destruct (status acct c) as [[st|e] c1] eqn:Est.
  2:{ exists (JBool false). split; [reflexivity|discriminate]. }
  unfold cbind at 1. unfold clift at 1.
  destruct (getitem st "is_playing") as [playing|e] eqn:Eplay.
  2:{ exists (JBool false). split; [reflexivity|discriminate]. }
  destruct device as [id|].
  - destruct (jtruthy playing) eqn:Etr; cbn [negb]; cbv iota.
    + unfold get_device, cbind.
      destruct (get_devices acct c1) as [[devices|e] c2] eqn:Edev.
      2:{ exists (JBool false). split; [reflexivity|discriminate]. }
      unfold cret. destruct (first_with_id id devices) as [dev|] eqn:Ef.
      * exists (JBool (dev_is_active dev)). split; [reflexivity|]. simpl. intros Hact.
        exists st, playing. split; [reflexivity|]. split; [exact Eplay|].
        split; [exact Etr|]. exists devices, dev. simpl snd. rewrite Edev, Hact.
        repeat split. exact Ef.
      * exists JNull. split; [reflexivity|discriminate].
    + unfold cret. exists playing. split; [reflexivity|]. rewrite Etr. discriminate.
  - unfold cret. exists playing. split; [reflexivity|]. intros Hv.
    exists st, playing. split; [reflexivity|]. split; [exact Eplay|].
    split; [exact Hv|reflexivity].
Qed.

(** *** Status information *)

(** X18.  [status_info] never fails: when the status is not a dictionary,
    has no item, or its item is not a dictionary (nothing is playing), track,
    artist and album are all reported as 'unknown'. *)
Theorem status_info_unknown (status : json) :
  (forall item, getitem status "item" = Answer item -> forall d, item <> JDict d) ->
  status_info status = (JStr "unknown", JStr "unknown", JStr "unknown").
Proof.
  intros Hitem. unfold status_info.
  destruct (getitem status "item") as [item|e] eqn:E; [|reflexivity].
  specialize (Hitem item eq_refl).
  destruct item as [| | | | |d]; try reflexivity.
  destruct (Hitem d eq_refl).
Qed.

End ConnectFacts.

(** * The search handlers of the skill *)

Section OcpSkillFacts.
Import OcpSkill.
Context `{FuzzyLib}.

(** ** Configured players *)

Lemma configured_devices_elem_of (backends : list AudioBackend) (ids : list string) :
  configured_devices backends = Ret ids ->
  forall i, i ∈ ids <-> exists d, d ∈ backends /\ is_spotify_backend d = true
                                  /\ ab_identifier d = Some i.
Proof.
  revert ids. induction backends as [|d ds IH]; intros ids; simpl.
  - intros [= <-] i. split; [intros Hi; inversion Hi|].
    intros (d & Hd & _). inversion Hd.
  - destruct (is_spotify_backend d) eqn:Ed.
    + destruct (ab_identifier d) as [identifier|] eqn:Ei; [|discriminate].
      destruct (configured_devices ds) as [rest|e]; [|discriminate].
      intros [= <-] i. rewrite elem_of_cons, (IH rest eq_refl i). split.
      * intros [->|(d' & Hd' & Hs & Hi)].
        -- exists d. split; [left|]. split; assumption.
        -- exists d'. split; [right; exact Hd'|]. split; assumption.
      * intros (d' & Hd' & Hs & Hi). apply elem_of_cons in Hd' as [->|Hd'].
        -- left. congruence.
        -- right. exists d'. split; [exact Hd'|]. split; assumption.
    + intros Hids i. rewrite (IH ids Hids i). split.
      * intros (d' & Hd' & Hs & Hi). exists d'. split; [right; exact Hd'|]. split; assumption.
      * intros (d' & Hd' & Hs & Hi). apply elem_of_cons in Hd' as [->|Hd'].
        -- congruence.
        -- exists d'. split; [exact Hd'|]. split; assumption.
Qed.

Lemma existsb_name (name : string) (ids : list string) :
  existsb (String.eqb name) ids = true <-> name ∈ ids.
Proof.
  rewrite existsb_exists. split.
  - intros (x & Hx & E). apply String.eqb_eq in E. subst. apply list_elem_of_In, Hx.
  - intros Hn. exists name. split; [apply list_elem_of_In, Hn|apply String.eqb_refl].
Qed.

(** X19.  [has_configured_players] reads the configured backends first: the
    identifiers of those whose type names spotify and that are not switched
    off.  Without any, it answers [False] and does not ask for the devices.
    Otherwise it asks for the devices once and answers [True] exactly when a
    device that is online carries one of the identifiers as its name.  A
    configured spotify backend without identifier raises [KeyError]. *)
Theorem has_configured_players_spec (backends : list AudioBackend) (self : Self) :
  (configured_devices backends = Ret [] ->
   has_configured_players backends self = (Ret false, self))
  /\ (forall id ids,
        configured_devices backends = Ret (id :: ids) ->
        exists b,
          has_configured_players backends self = (Ret b, snd (Ocp.devices self))
          /\ (b = true <->
              exists dev devices,
                fst (Ocp.devices self) = Ret devices /\ dev ∈ devices
                /\ exists d, d ∈ backends /\ is_spotify_backend d = true
                             /\ ab_identifier d = Some (dev_name dev)))
  /\ (forall e, configured_devices backends = Raise e ->
                e = KeyError /\ has_configured_players backends self = (Raise KeyError, self)).
Proof.
  unfold has_configured_players, bind, lift. split; [|split].
  - intros ->. reflexivity.
  - intros id ids Hc. rewrite Hc.
    assert (Hd : exists devices, Ocp.devices self = (Ret devices, snd (Ocp.devices self))).
    { unfold Ocp.devices. destruct (spotify self); [|eexists; reflexivity].
      cbv zeta. destruct (_ || _); eexists; reflexivity. }
    destruct Hd as (devices & Hd). rewrite Hd. simpl snd. unfold ret.
    eexists. split; [reflexivity|].
    rewrite existsb_exists. split.
    + intros (dev & Hdev & Hn). apply existsb_name in Hn.
      apply (configured_devices_elem_of backends _ Hc) in Hn.
      exists dev, devices. split; [reflexivity|]. split; [apply list_elem_of_In, Hdev|exact Hn].
    + intros (dev & devices' & [= <-] & Hdev & Hn).
      exists dev. split; [apply list_elem_of_In, Hdev|].
      apply existsb_name, (configured_devices_elem_of backends _ Hc), Hn.
  - intros e Hc. rewrite Hc.
    assert (He : forall ds e', configured_devices ds = Raise e' -> e' = KeyError).
    { induction ds as [|d ds IH]; simpl; [discriminate|]. intros e'.
      destruct (is_spotify_backend d); [|apply IH].
      destruct (ab_identifier d); [|intros [= <-]; reflexivity].
      destruct (configured_devices ds) as [rest|e0]; [discriminate|].
      intros [= <-]. apply IH. reflexivity. }
    rewrite (He backends e Hc). split; reflexivity.
Qed.


(** ** The entries of a playlist *)

(** The loop that fills a playlist stops after the entry that makes it
    longer than 25. *)
Lemma fill_length (entry : Item -> outcome MediaEntry) (tracks : list Item) :
  forall playlist : list MediaEntry,
    (length playlist <= 25)%nat ->
    (length (fst (fill entry playlist tracks)) <= 26)%nat.
Proof.
  induction tracks as [|t tracks IH]; intros playlist Hl; simpl; [lia|].
  destruct (entry t) as [e|ex]; simpl; [|lia].
  destruct (25 <? length (playlist ++ [e]))%nat eqn:E.
  - simpl. rewrite length_app. simpl. lia.
  - apply IH. apply Nat.ltb_ge in E. exact E.
Qed.

(** When every entry can be built, the playlist holds the first tracks of
    the listing, up to 26 with those it had. *)
Lemma fill_take (entry : Item -> outcome MediaEntry) (make : Item -> MediaEntry)
      (tracks : list Item) :
  (forall t, entry t = Ret (make t)) ->
  forall playlist : list MediaEntry,
    (length playlist <= 25)%nat ->
    fill entry playlist tracks
    = (playlist ++ map make (take (26 - length playlist) tracks), Ret tt).
Proof.
  intros He. induction tracks as [|t tracks IH]; intros playlist Hl; simpl.
  - rewrite take_nil. simpl. rewrite app_nil_r. reflexivity.
  - rewrite He. destruct (25 <? length (playlist ++ [make t]))%nat eqn:E.
    + apply Nat.ltb_lt in E. rewrite length_app in E. simpl in E.
      assert (Hp : length playlist = 25%nat) by lia. rewrite Hp.
      simpl. reflexivity.
    + apply Nat.ltb_ge in E. rewrite (IH _ E). rewrite length_app in *. simpl in *.
      destruct (26 - length playlist)%nat as [|n] eqn:En; [lia|].
      simpl. rewrite <- app_assoc. simpl.
      replace (26 - (length playlist + 1))%nat with n by lia. reflexivity.
Qed.

(** Every playlist of the loop over artists or albums is one that [build]
    filled. *)
Lemma playlists_of_entries (build : Item -> M (list MediaEntry * outcome unit))
      (title : Item -> string) (image : Item -> string) (skill_id skill_icon : string)
      (score : value) (P : list MediaEntry -> Prop) :
  (forall x s entries ending s', build x s = (Ret (entries, ending), s') -> P entries) ->
  forall items s,
    Forall (fun p => P (pl_entries p))
           (fst (fst (playlists_of image skill_id skill_icon build title score items s))).
Proof.
  intros Hb. induction items as [|x items IH]; intros s; simpl; [constructor|].
  destruct (build x s) as [[[entries [u|e]]|e] s1] eqn:Eb; simpl; try constructor.
  specialize (IH s1).
  destruct (playlists_of image skill_id skill_icon build title score items s1)
    as [[rest ending] s2].
  simpl in *. constructor; [|exact IH]. simpl. eapply Hb, Eb.
Qed.

(** X20.  No playlist built by [search_artists], [search_albums] or
    [search_playlists] holds more than 26 entries: the loop that appends the
    tracks leaves after the entry that makes the playlist longer than 25. *)
Theorem playlists_hold_at_most_26 (listings : Listings) (image : Item -> string)
        (duration_ms : Item -> Q) (skill_id skill_icon : string)
        (query : string) (self : Self) :
  let short := Forall (fun p => (length (pl_entries p) <= 26)%nat) in
  short (fst (fst (search_artists listings image duration_ms skill_id skill_icon query self)))
  /\ short (fst (fst (search_albums listings image duration_ms skill_id skill_icon query self)))
  /\ short (fst (fst (search_playlists listings image duration_ms skill_id skill_icon
                                       query self))).
Proof.
  intros short. unfold short. split; [|split].
  - unfold search_artists.
    destruct (Ocp.query_artist query self) as [[[score data]|e] s1]; [|constructor].
    destruct (negb (truthy data)); [constructor|].
    destruct (items_of data) as [items|e]; [|constructor].
    apply (playlists_of_entries _ _ _ _ _ _ (fun entries => (length entries <= 26)%nat)).
    intros x s entries ending s'.
    unfold bind, tracks_from_artist, bind.
    destruct (connection s) as [[u|e] s2]; [|discriminate].
    unfold ret. intros [= Hf _].
    pose proof (fill_length (fun t => new_entry duration_ms skill_id skill_icon t (image x)
                                                (Some (it_name x)) score)
                            (artist_top_tracks listings (it_uri x)) [] (Nat.le_0_l 25)) as Hl.
    rewrite Hf in Hl. exact Hl.
  - unfold search_albums.
    destruct (Ocp.query_album query self) as [[[score data]|e] s1]; [|constructor].
    destruct (negb (truthy data)); [constructor|].
    destruct (items_of data) as [items|e]; [|constructor].
    apply (playlists_of_entries _ _ _ _ _ _ (fun entries => (length entries <= 26)%nat)).
    intros x s entries ending s'.
    unfold bind, tracks_from_album, bind.
    destruct (connection s) as [[u|e] s2]; [|discriminate].
    unfold ret. intros [= Hf _].
    match type of Hf with fill ?en _ ?tr = _ =>
      pose proof (fill_length en tr [] (Nat.le_0_l 25)) as Hl end.
    rewrite Hf in Hl. exact Hl.
  - unfold search_playlists.
    destruct (Ocp.get_best_user_playlist query self) as [[[data score]|e] s1]; [|constructor].
    destruct (negb (truthy data)); [constructor|].
    destruct data as [| | | | |data]; try constructor.
    destruct (tracks_from_playlist listings (it_uri data) s1) as [[tracks|e] s2];
      [|constructor].
    match goal with |- context [fill ?en [] ?tr] =>
      pose proof (fill_length en tr [] (Nat.le_0_l 25)) as Hl;
      destruct (fill en [] tr) as [entries [u|e]] end; constructor; [exact Hl|constructor].
Qed.


(** The album and the song query on a phrase with several words by. *)
Lemma several_by_words_helper (phrase : string) (self : Self) :
  (2 < length (split " by " phrase))%nat ->
  Ocp.query_album phrase self = (Raise ValueError, self)
  /\ Ocp.query_song phrase self = (Raise ValueError, self).
Proof.
  intros Hl.
  assert (Hlt : (1 <? length (split " by " phrase))%nat = true) by (apply Nat.ltb_lt; lia).
  assert (Hu : forall s, unpack2 (split " by " phrase) s = (Raise ValueError, s)).
  { intros s. destruct (split " by " phrase) as [|a [|b [|c l]]]; simpl in Hl; try lia.
    reflexivity. }
  unfold Ocp.query_album, Ocp.query_song.
  rewrite Hlt. unfold bind. rewrite !Hu. split; reflexivity.
Qed.

(** ** The handlers *)

Variable backends : list AudioBackend.
Variable listings : Listings.
Variable image : Item -> string.
Variable duration_ms : Item -> Q.
Variables skill_id skill_icon : string.
Variable voc_match : string -> bool.
Variable remove_voc : string -> string.

Local Abbreviation search_artists :=
  (search_artists listings image duration_ms skill_id skill_icon).
Local Abbreviation featured_playlist :=
  (featured_playlist listings image duration_ms skill_id skill_icon).
Local Abbreviation search_tracks := (search_tracks image duration_ms skill_id skill_icon).
Local Abbreviation search_spotify_artist :=
  (search_spotify_artist backends listings image duration_ms skill_id skill_icon
                         voc_match remove_voc).
Local Abbreviation search_spotify_album :=
  (search_spotify_album backends listings image duration_ms skill_id skill_icon
                        voc_match remove_voc).
Local Abbreviation search_spotify_tracks :=
  (search_spotify_tracks backends image duration_ms skill_id skill_icon
                         voc_match remove_voc).
Local Abbreviation search_spotify_playlists :=
  (search_spotify_playlists backends listings image duration_ms skill_id skill_icon
                            voc_match remove_voc).


Lemma connection_ok (s : Self) (api : Backend) :
  spotify s = Some api -> connection s = (Ret tt, s).
Proof. intros Hc. unfold connection. rewrite Hc. reflexivity. Qed.



(** What [relay] yields carries a confidence of at most 100. *)
Lemma relay_capped {A} (confidence : A -> value) (update : value -> A -> A) (base : Q)
      (results : list A) (ending : outcome unit) :
  (forall v a, confidence (update v a) = v) ->
  Forall (fun r => exists q, confidence r = VNum q /\ (q <= 100)%Q)
         (fst (relay confidence update base results ending)).
Proof.
  intros Hu. induction results as [|res results IH]; simpl; [constructor|].
  destruct (num (confidence res)) as [q|e]; simpl; [|constructor].
  destruct (relay confidence update base results ending) as [rest ending'].
  simpl in *. constructor; [|exact IH].
  exists (Qmin 100 (q + base)). split; [apply Hu|apply Q.le_min_l].
Qed.

Lemma handler_capped {A} (confidence : A -> value) (update : value -> A -> A)
      (search : string -> Gen A) (guarded : bool) (phrase : string) (media_type : MediaType)
      (self : Self) :
  (forall v a, confidence (update v a) = v) ->
  Forall (fun r => exists q, confidence r = VNum q /\ (q <= 100)%Q)
         (fst (fst (handler backends voc_match remove_voc confidence update search guarded
                            phrase media_type self))).
Proof.
  intros Hu. unfold handler.
  destruct (has_configured_players backends self) as [[[|]|e] s1]; try constructor.
  cbv zeta. destruct (search (remove_voc phrase) s1) as [[results ending] s2].
  pose proof (relay_capped confidence update (base_score voc_match phrase media_type)
                           results ending Hu) as Hr.
  destruct (relay confidence update _ results ending) as [yielded ending'].
  exact Hr.
Qed.

(** X22.  The base score of a handler is 0, 15, 30 or 45: 30 for a phrase
    that names Spotify, 15 more for a music request.  Whatever a handler
    yields carries a confidence of at most 100, the sum of the confidence of
    the search and the base score cut off at 100. *)
Theorem handlers_cap_confidence (phrase : string) (media_type : MediaType) (self : Self) :
  let capped_playlists :=
    Forall (fun r => exists q, pl_match_confidence r = VNum q /\ (q <= 100)%Q) in
  let capped_entries :=
    Forall (fun r => exists q, me_match_confidence r = VNum q /\ (q <= 100)%Q) in
  (base_score voc_match phrase media_type
   = (if voc_match phrase then 30 else 0)
     + match media_type with MUSIC => 15 | _ => 0 end)%Q
  /\ capped_playlists (fst (fst (search_spotify_artist phrase media_type self)))
  /\ capped_playlists (fst (fst (search_spotify_album phrase media_type self)))
  /\ capped_entries (fst (fst (search_spotify_tracks phrase media_type self)))
  /\ capped_playlists (fst (fst (search_spotify_playlists phrase media_type self))).
Proof.
  intros capped_playlists capped_entries.
  split; [|split; [|split; [|split]]].
  - unfold base_score. destruct (voc_match phrase), media_type; reflexivity.
  - apply handler_capped. reflexivity.
  - apply handler_capped. reflexivity.
  - apply handler_capped. reflexivity.
  - apply handler_capped. reflexivity.
Qed.

(** [has_configured_players] sends nothing but, at most, one request for
    the devices. *)
Lemma has_configured_players_calls (self : Self) :
  calls (snd (has_configured_players backends self)) = calls self
  \/ calls (snd (has_configured_players backends self)) = calls self ++ [CallDevices].
Proof.
  unfold has_configured_players, bind, lift.
  destruct (configured_devices backends) as [[|id ids]|e]; try (left; reflexivity).
  unfold Ocp.devices. destruct (spotify self); [|left; reflexivity].
  cbv zeta. destruct (_ || _); [right|left]; reflexivity.
Qed.

Lemma handler_no_player {A} (confidence : A -> value) (update : value -> A -> A)
      (search : string -> Gen A) (guarded : bool) (phrase : string) (media_type : MediaType)
      (self : Self) :
  fst (has_configured_players backends self) = Ret false ->
  handler backends voc_match remove_voc confidence update search guarded phrase media_type self
  = (([], Ret tt), snd (has_configured_players backends self)).
Proof.
  unfold handler. destruct (has_configured_players backends self) as [[[|]|e] s1];
    simpl; try discriminate. reflexivity.
Qed.

(** X23.  When no configured player is online, each of the four handlers
    yields nothing and ends, and sends no search: the request log holds at
    most the request for the devices that the check for players sent. *)
Theorem no_player_no_search (phrase : string) (media_type : MediaType) (self : Self) :
  fst (has_configured_players backends self) = Ret false ->
  let after := snd (has_configured_players backends self) in
  search_spotify_artist phrase media_type self = (([], Ret tt), after)
  /\ search_spotify_album phrase media_type self = (([], Ret tt), after)
  /\ search_spotify_tracks phrase media_type self = (([], Ret tt), after)
  /\ search_spotify_playlists phrase media_type self = (([], Ret tt), after)
  /\ (calls after = calls self \/ calls after = calls self ++ [CallDevices]).
Proof.
  intros Hp after.
  split; [apply handler_no_player, Hp|]. split; [apply handler_no_player, Hp|].
  split; [apply handler_no_player, Hp|]. split; [apply handler_no_player, Hp|].
  apply has_configured_players_calls.
Qed.

Lemma handler_guarded {A} (confidence : A -> value) (update : value -> A -> A)
      (search : string -> Gen A) (phrase : string) (media_type : MediaType) (self : Self) :
  (forall e, fst (has_configured_players backends self) <> Raise e) ->
  snd (fst (handler backends voc_match remove_voc confidence update search true
                    phrase media_type self)) = Ret tt.
Proof.
  intros Hp. unfold handler.
  destruct (has_configured_players backends self) as [[[|]|e] s1]; simpl in *.
  - destruct (search (remove_voc phrase) s1) as [[results ending] s2].
    destruct (relay confidence update _ results ending) as [yielded ending']. reflexivity.
  - reflexivity.
  - destruct (Hp e eq_refl).
Qed.

Lemma handler_search_raises {A} (confidence : A -> value) (update : value -> A -> A)
      (search : string -> Gen A) (guarded : bool) (phrase : string) (media_type : MediaType)
      (self : Self) (e : exn) :
  fst (has_configured_players backends self) = Ret true ->
  search (remove_voc phrase) (snd (has_configured_players backends self))
  = (([], Raise e), snd (has_configured_players backends self)) ->
  handler backends voc_match remove_voc confidence update search guarded phrase media_type self
  = (([], if guarded then Ret tt else Raise e), snd (has_configured_players backends self)).
Proof.
  unfold handler. destruct (has_configured_players backends self) as [[[|]|e'] s1];
    simpl; try discriminate.
  intros _ ->. reflexivity.
Qed.

(** X24.  The album, track and playlist handlers end without raising once the
    check for players has passed: what the search or the update of a result
    raises is logged.  So a phrase that holds the word by more than once,
    for which the album and the song query raise [ValueError], yields no
    album and no track and sends no search. *)
Theorem guarded_handlers_end (phrase : string) (media_type : MediaType) (self : Self) :
  (forall e, fst (has_configured_players backends self) <> Raise e) ->
  (snd (fst (search_spotify_album phrase media_type self)) = Ret tt
   /\ snd (fst (search_spotify_tracks phrase media_type self)) = Ret tt
   /\ snd (fst (search_spotify_playlists phrase media_type self)) = Ret tt)
  /\ (fst (has_configured_players backends self) = Ret true ->
      (2 < length (split " by " (remove_voc phrase)))%nat ->
      let after := snd (has_configured_players backends self) in
      search_spotify_album phrase media_type self = (([], Ret tt), after)
      /\ search_spotify_tracks phrase media_type self = (([], Ret tt), after)).
Proof.
  intros Hp. split.
  - split; [apply handler_guarded, Hp|]. split; apply handler_guarded, Hp.
  - intros Ht Hl after.
    destruct (several_by_words_helper (remove_voc phrase) after Hl) as [Ha Hs].
    split.
    + apply (handler_search_raises _ _ _ true phrase media_type self ValueError Ht).
      unfold OcpSkill.search_albums. fold after. rewrite Ha. reflexivity.
    + apply (handler_search_raises _ _ _ true phrase media_type self ValueError Ht).
      unfold OcpSkill.search_tracks. fold after. rewrite Hs. reflexivity.
Qed.

(** The song query answers a number with no data or with one track. *)
Lemma Ocp_query_song_shape (song : string) (self : Self) (score data : value) (s1 : Self) :
  Ocp.query_song song self = (Ret (score, data), s1) ->
  exists c, score = VNum c /\ (data = VNone \/ exists w, data = media_of [w] "track").
Proof.
  unfold Ocp.query_song, bind.
  destruct (if (1 <? length (split " by " song))%nat then _ else _)
    as [[[song' song_search]|e] s0]; [|discriminate].
  destruct (search song_search TTrack s0) as [[[[|top items]|]|e] s2]; try discriminate;
    unfold ret; try (intros [= <- <- _]; eexists; split; [reflexivity|left; reflexivity]).
  cbv zeta. destruct (rev _) as [|first rest]; [discriminate|].
  destruct (last _) as [winner|]; [|discriminate].
  destruct (it_artists winner.2) as [|artist_name ?]; [discriminate|].
  intros [= <- <- _]. eexists. split; [reflexivity|]. right. eexists. reflexivity.
Qed.

(** X25.  [search_tracks] yields at most one entry: the song query leaves one
    track in its data.  The entry carries the uri and the name of that track
    and the confidence of the query cut off at 100. *)
Theorem search_tracks_yields_one (query : string) (self : Self) :
  let yielded := fst (fst (search_tracks query self)) in
  yielded = []
  \/ exists c w,
       fst (Ocp.query_song query self) = Ret (VNum c, media_of [w] "track")
       /\ yielded
          = [{| me_media_type := MUSIC; me_uri := it_uri w; me_title := it_name w;
                me_playback := AUDIO_SERVICE; me_image := image w; me_skill_id := skill_id;
                me_artist := None; me_match_confidence := VNum (Qmin 100 c);
                me_length := (duration_ms w / 1000)%Q; me_skill_icon := skill_icon |}].
Proof.
  intros yielded. unfold yielded, OcpSkill.search_tracks.
  destruct (Ocp.query_song query self) as [[[score data]|e] s1] eqn:Eq; [|left; reflexivity].
  destruct (Ocp_query_song_shape query self score data s1 Eq) as (c & -> & [->|(w & ->)]).
  - left. reflexivity.
  - right. exists c, w. split; reflexivity.
Qed.


(** ** The playlist id *)

(** Nothing is removed from a text in which [old] does not occur. *)
Lemma remove_absent (old s : string) : contains old s = false -> remove old s = s.
Proof.
  unfold remove. induction s as [|c s IH]; [reflexivity|].
  simpl contains. intros Hc. apply orb_false_iff in Hc as [Hp Hs].
  simpl remove_go. rewrite Hp, (IH Hs). reflexivity.
Qed.

Lemma prefix_append (old s : string) : String.prefix old (old ++ s)%string = true.
Proof.
  induction old as [|c old IH]; simpl; [destruct s; reflexivity|].
  destruct (ascii_dec c c) as [_|Hne]; [exact IH|contradiction].
Qed.

(** The characters of an occurrence that are still to be dropped. *)
Lemma remove_go_skip (old k s : string) :
  remove_go old (String.length k) (k ++ s)%string = remove_go old 0 s.
Proof. induction k as [|c k IH]; [reflexivity|]. simpl. exact IH. Qed.

(** X30.  [tracks_from_playlist] asks for the tracks by the bare id: the
    prefix spotify:playlist: in front of an id is removed before the request,
    and an id without it is passed on as it is. *)
Theorem tracks_from_playlist_bare_id (id : string) (self : Self) (api : Backend) :
  spotify self = Some api ->
  contains "spotify:playlist:" id = false ->
  tracks_from_playlist listings ("spotify:playlist:" ++ id) self
  = (Ret (playlist_tracks listings id), self)
  /\ tracks_from_playlist listings id self = (Ret (playlist_tracks listings id), self).
Proof.
  intros Hc Hid.
  assert (Hp : remove "spotify:playlist:" ("spotify:playlist:" ++ id) = id).
  { rewrite <- (remove_absent "spotify:playlist:" id Hid) at 2.
    unfold remove.
    change ("spotify:playlist:" ++ id)%string
      with (String "s" ("potify:playlist:" ++ id)%string) at 1.
    cbn [remove_go].
    change (String "s" ("potify:playlist:" ++ id)%string)
      with ("spotify:playlist:" ++ id)%string.
    rewrite prefix_append.
    exact (remove_go_skip "spotify:playlist:" "potify:playlist:" id). }
  unfold tracks_from_playlist, bind. rewrite (connection_ok self api Hc).
  rewrite Hp, (remove_absent _ _ Hid). split; reflexivity.
Qed.

End OcpSkillFacts.

(** * The search handler, the idle check and the regular expressions *)

Section LegacyFacts.
Import Legacy.
Context `{FuzzyLib}.
Variable skill_icon : string.
Variable on_spotify : string -> string.
Variable specific_query : string -> Q -> M (option result).
Variable generic_query : string -> Q -> M result.

Local Abbreviation match_query_phrase :=
  (match_query_phrase skill_icon on_spotify specific_query generic_query).
Local Abbreviation resolution :=
  (Skill.match_query_phrase_resolution on_spotify specific_query generic_query).

(** X26.  Without a connection [match_query_phrase] consults no query and
    sends nothing: it returns [None] for a phrase that does not name spotify,
    and for one that does it raises [UnboundLocalError], because the response
    it builds reads [level] before any value was assigned to it. *)
Theorem match_query_phrase_not_connected (phrase : string) (self : Self) :
  spotify self = None ->
  match_query_phrase phrase self
  = (if contains "spotify" phrase then Raise UnboundLocalError else Ret None, self).
Proof.
  intros Hc. unfold Legacy.match_query_phrase. rewrite Hc.
  destruct (contains "spotify" phrase); reflexivity.
Qed.

(** X27.  With a connection, a result that the resolution chain finds is
    answered only when its data is a single item: the response names the uri
    of that item, with confidence 100 when the phrase names spotify and the
    kind is known, the confidence of the query when it does not, and 70 for
    an unknown kind.  A result whose data is a search response raises
    [KeyError] and one without data raises [TypeError]; so the request to
    continue playback, whose result has no data, is never answered. *)
Theorem match_query_phrase_answers_items_only (phrase : string) (self : Self)
        (api : Backend) :
  spotify self = Some api ->
  (forall confidence m self',
      resolution phrase self = (Ret (confidence, VMedia m), self') ->
      match_query_phrase phrase self
      = (match m_data m with
         | DItem i =>
             Ret (Some [{| r_match_confidence :=
                             if existsb (String.eqb (m_type m)) playable
                             then (if contains "spotify" phrase then VNum 100 else confidence)
                             else if String.eqb (m_type m) "continue"
                             then (if contains "spotify" phrase then VNum 100 else VNum 70)
                             else VNum 70;
                           r_uri := "spotify://" ++ it_uri i;
                           r_media_type := OcpSkill.MUSIC;
                           r_playback := AUDIO;
                           r_skill_icon := skill_icon |}])
         | DSearch _ => Raise KeyError
         | DNone => Raise TypeError
         end, self'))
  /\ (strip (on_spotify phrase) = "spotify" ->
      match_query_phrase phrase self = (Raise TypeError, self)).
Proof.
  intros Hc.
  assert (Hm : forall confidence m self',
             resolution phrase self = (Ret (confidence, VMedia m), self') ->
             match_query_phrase phrase self
             = (match m_data m with
                | DItem i =>
                    Ret (Some [{| r_match_confidence :=
                                    if existsb (String.eqb (m_type m)) playable
                                    then (if contains "spotify" phrase
                                          then VNum 100 else confidence)
                                    else if String.eqb (m_type m) "continue"
                                    then (if contains "spotify" phrase
                                          then VNum 100 else VNum 70)
                                    else VNum 70;
                                  r_uri := "spotify://" ++ it_uri i;
                                  r_media_type := OcpSkill.MUSIC;
                                  r_playback := AUDIO;
                                  r_skill_icon := skill_icon |}])
                | DSearch _ => Raise KeyError
                | DNone => Raise TypeError
                end, self')).
  { intros confidence m self' Hr. unfold Legacy.match_query_phrase. rewrite Hc.
    cbv zeta. unfold bind at 1. rewrite Hr. simpl truthy. cbv iota.
    unfold bind at 1. unfold lift at 1. simpl get_type. cbv iota.
    unfold bind at 1. unfold lift at 1. unfold data_uri.
    destruct (m_data m) as [|items|i]; try reflexivity.
    unfold ret. f_equal. f_equal. f_equal. f_equal. f_equal.
    assert (He : forall l, existsb (fun t => bool_decide (Some (m_type m) = Some t)) l
                           = existsb (String.eqb (m_type m)) l).
    { induction l as [|t l IH]; [reflexivity|]. simpl. rewrite IH. f_equal.
      destruct (String.eqb (m_type m) t) eqn:E.
      - apply String.eqb_eq in E. subst. apply bool_decide_eq_true. reflexivity.
      - apply String.eqb_neq in E. apply bool_decide_eq_false. intros [= E']. contradiction. }
    rewrite He.
    assert (Hcont : bool_decide (Some (m_type m) = Some "continue")
                    = String.eqb (m_type m) "continue").
    { destruct (String.eqb (m_type m) "continue") eqn:E.
      - apply String.eqb_eq in E. rewrite E. apply bool_decide_eq_true. reflexivity.
      - apply String.eqb_neq in E. apply bool_decide_eq_false. intros [= E']. contradiction. }
    rewrite Hcont. reflexivity. }
  split; [exact Hm|].
  intros Hs.
  assert (Hr : resolution phrase self
               = (Ret (VNum 1, VMedia {| m_data := DNone; m_name := None;
                                         m_type := "continue" |}), self)).
  { unfold Skill.match_query_phrase_resolution, Skill.continue_playback.
    rewrite Hs. reflexivity. }
  rewrite (Hm _ _ _ Hr). reflexivity.
Qed.


(** ** The idle check *)

(** The test of the display: the second alternative never adds anything,
    the count goes up whenever the display reports something. *)
Lemma display_test (active : string) :
  negb (String.eqb active "") || String.eqb active "SpotifySkill"
  = negb (String.eqb active "").
Proof.
  destruct (String.eqb active "") eqn:E; [|reflexivity].
  apply String.eqb_eq in E. subst. reflexivity.
Qed.

Lemma resumes_app (l1 l2 : list Event) :
  resumes (l1 ++ l2) = (resumes l1 + resumes l2)%nat.
Proof. unfold resumes. rewrite List.filter_app, length_app. reflexivity. Qed.

Lemma idle_checks_cons (active : string) (actives : list string) (st : Idle) :
  idle_checks (active :: actives) st = idle_checks actives (check_for_idle active st).
Proof. reflexivity. Qed.

(** Once ducking is over, a check cancels the event and nothing else. *)
Lemma idle_checks_not_ducking (actives : list string) :
  forall st, ducking st = false ->
    ducking (idle_checks actives st) = false
    /\ idle_count (idle_checks actives st) = idle_count st
    /\ resumes (events (idle_checks actives st)) = resumes (events st).
Proof.
  induction actives as [|active actives IH]; intros st Hd; [repeat split; exact Hd|].
  rewrite idle_checks_cons.
  assert (Hs : check_for_idle active st
               = {| ducking := ducking st; idle_count := idle_count st;
                    events := events st ++ [CancelIdleCheck] |}).
  { unfold check_for_idle. rewrite Hd. reflexivity. }
  rewrite Hs.
  destruct (IH {| ducking := ducking st; idle_count := idle_count st;
                  events := events st ++ [CancelIdleCheck] |} Hd) as (H1 & H2 & H3).
  split; [exact H1|]. split; [exact H2|].
  rewrite H3. simpl events. rewrite resumes_app.
  change (resumes [CancelIdleCheck]) with 0%nat. lia.
Qed.

(** While ducking, a check keeps the count between 0 and 4 and sends
    nothing, or ends ducking with one call of [resume]. *)
Lemma check_for_idle_ducking (active : string) (st : Idle) :
  ducking st = true -> (0 <= idle_count st < 5)%Z ->
  let st' := check_for_idle active st in
  (ducking st' = true /\ (0 <= idle_count st' < 5)%Z /\ events st' = events st
   /\ idle_count st' = if String.eqb active "" then 0%Z else (idle_count st + 1)%Z)
  \/ (ducking st' = false /\ active <> "" /\ idle_count st = 4%Z
      /\ idle_count st' = 5%Z /\ events st' = events st ++ [CancelIdleCheck; Resume]).
Proof.
  intros Hd Hc. unfold check_for_idle. rewrite Hd, display_test. simpl negb at 1. cbv iota.
  destruct (String.eqb active "") eqn:Ea; simpl negb; cbv iota zeta.
  - left. simpl. repeat split; lia.
  - apply String.eqb_neq in Ea. simpl idle_count.
    destruct (5 <=? idle_count st + 1)%Z eqn:E5.
    + apply Z.leb_le in E5. right. simpl. repeat split; try assumption; lia.
    + apply Z.leb_gt in E5. left. simpl. repeat split; try assumption; lia.
Qed.

Lemma idle_checks_ducking (actives : list string) :
  forall st, ducking st = true -> (0 <= idle_count st < 5)%Z ->
    let st' := idle_checks actives st in
    (ducking st' = true /\ (0 <= idle_count st' < 5)%Z /\ events st' = events st)
    \/ (ducking st' = false /\ resumes (events st') = S (resumes (events st))).
Proof.
  induction actives as [|active actives IH]; intros st Hd Hc; [left; auto|].
  cbv zeta. rewrite idle_checks_cons.
  destruct (check_for_idle_ducking active st Hd Hc)
    as [(Hd' & Hc' & He' & _)|(Hd' & _ & _ & _ & He')].
  - destruct (IH _ Hd' Hc') as [(A1 & A2 & A3)|(A1 & A2)].
    + left. split; [exact A1|]. split; [exact A2|]. rewrite A3. exact He'.
    + right. split; [exact A1|]. rewrite A2, He'. reflexivity.
  - destruct (idle_checks_not_ducking actives _ Hd') as (A1 & _ & A3).
    right. split; [exact A1|]. rewrite A3, He', resumes_app.
    change (resumes [CancelIdleCheck; Resume]) with 1%nat. lia.
Qed.

(** Busy checks in a row, from a count of [c]: the count goes up by one at
    each while it stays below 5. *)
Lemma busy_checks (actives : list string) :
  forall st, ducking st = true -> (0 <= idle_count st)%Z ->
    Forall (fun a => a <> "") actives ->
    (idle_count st + Z.of_nat (length actives) < 5)%Z ->
    idle_checks actives st
    = {| ducking := true; idle_count := idle_count st + Z.of_nat (length actives);
         events := events st |}.
Proof.
  induction actives as [|active actives IH]; intros st Hd Hc Ha Hl.
  - simpl. destruct st as [d c e]. simpl in *. subst. f_equal. lia.
  - rewrite idle_checks_cons. inversion Ha as [|? ? Hne Ha']; subst.
    simpl length in Hl. rewrite Nat2Z.inj_succ in Hl.
    destruct (check_for_idle_ducking active st Hd ltac:(lia))
      as [(Hd' & Hc' & He' & Hi')|(_ & _ & H4 & _)]; [|lia].
    apply String.eqb_neq in Hne. rewrite Hne in Hi'.
    rewrite (IH _ Hd' ltac:(lia) Ha' ltac:(lia)). rewrite He', Hi'.
    simpl length. rewrite Nat2Z.inj_succ. f_equal. lia.
Qed.

(** X28.  While ducking, with a count from 0 to 4, the idle check counts the
    checks at which the display reports something (any answer but the empty
    one) and starts again from 0 at an empty answer; the fifth such check in
    a row ends ducking, cancels the repeating event and resumes playback.
    Whatever the display answers, playback is resumed at most once, and
    until then the count stays below 5 and nothing is sent. *)
Theorem idle_check_resumes_once (st : Idle) (actives : list string) :
  ducking st = true ->
  (0 <= idle_count st < 5)%Z ->
  let st' := idle_checks actives st in
  ((ducking st' = true /\ (0 <= idle_count st' < 5)%Z /\ events st' = events st)
   \/ (ducking st' = false /\ resumes (events st') = S (resumes (events st))))
  /\ check_for_idle "" st = {| ducking := true; idle_count := 0; events := events st |}
  /\ (idle_count st = 0%Z -> length actives = 5%nat -> Forall (fun a => a <> "") actives ->
      st' = {| ducking := false; idle_count := 5;
               events := events st ++ [CancelIdleCheck; Resume] |}).
Proof.
  intros Hd Hc st'. split; [apply idle_checks_ducking; assumption|]. split.
  - unfold check_for_idle. rewrite Hd. reflexivity.
  - intros H0 Hl Ha. unfold st'.
    destruct actives as [|a front _] using rev_ind; [discriminate|].
    rewrite length_app in Hl. simpl in Hl.
    apply Forall_app in Ha as [Hf Hlast]. inversion Hlast as [|? ? Hne _]; subst.
    unfold idle_checks. rewrite foldl_app. fold (idle_checks front st). simpl foldl.
    rewrite (busy_checks front st Hd ltac:(lia) Hf ltac:(lia)).
    replace (length front) with 4%nat by lia. rewrite H0. simpl Z.add.
    unfold check_for_idle. simpl ducking. simpl negb at 1. cbv iota.
    rewrite display_test. apply String.eqb_neq in Hne. rewrite Hne. reflexivity.
Qed.

(** ** Regular expressions *)

Variable find_resource : string -> option string.
Variable read : list string -> string -> string.

(** A text that is kept is returned as it is. *)
Lemma translate_regex_kept (find : string -> option string)
      (rd : list string -> string -> string) (regex string : string) (self : Resources) :
  regexes self !! regex = Some string ->
  translate_regex find rd regex self = (Ret string, self).
Proof. intros Hk. unfold translate_regex. rewrite Hk. cbv zeta. rewrite Hk. reflexivity. Qed.

(** X29.  [translate_regex] reads a resource once: the text of the file,
    without surrounding whitespace, is kept under the name asked for, and
    every later call returns it without opening a file, whatever the file
    holds then.  A name that is neither kept nor found as a resource raises
    [KeyError] and changes nothing; the texts kept under other names are
    never touched. *)
Theorem translate_regex_reads_once (regex : string) (self : Resources) :
  let r := fst (translate_regex find_resource read regex self) in
  let self' := snd (translate_regex find_resource read regex self) in
  (forall string, regexes self !! regex = Some string -> r = Ret string /\ self' = self)
  /\ (regexes self !! regex = None ->
      match find_resource (regex ++ ".regex") with
      | Some path =>
          if String.eqb path "" then r = Raise KeyError /\ self' = self
          else r = Ret (strip (read (opened self) path))
               /\ opened self' = opened self ++ [path]
      | None => r = Raise KeyError /\ self' = self
      end)
  /\ (forall string, r = Ret string ->
      regexes self' !! regex = Some string
      /\ forall find_resource' read',
           translate_regex find_resource' read' regex self' = (Ret string, self'))
  /\ (forall other, other <> regex -> regexes self' !! other = regexes self !! other).
Proof.
  intros r self'.
  assert (Hkept : forall string, r = Ret string -> regexes self' !! regex = Some string).
  { unfold r, self', translate_regex. cbv zeta.
    destruct (regexes self !! regex) as [kept|] eqn:Ek.
    - rewrite Ek. simpl. intros string [= <-]. exact Ek.
    - destruct (find_resource (regex ++ ".regex")) as [path|].
      + destruct (String.eqb path ""); simpl negb; cbv iota.
        * rewrite Ek. discriminate.
        * simpl regexes. rewrite lookup_insert_eq. simpl. intros string [= <-].
          apply lookup_insert_eq.
      + rewrite Ek. discriminate. }
  split; [|split; [|split]].
  - intros string Hk. unfold r, self'.
    rewrite (translate_regex_kept _ _ _ _ _ Hk). split; reflexivity.
  - intros Ek. unfold r, self', translate_regex. cbv zeta. rewrite Ek.
    destruct (find_resource (regex ++ ".regex")) as [path|].
    + destruct (String.eqb path ""); simpl negb; cbv iota.
      * rewrite Ek. split; reflexivity.
      * simpl regexes. rewrite lookup_insert_eq. split; reflexivity.
    + rewrite Ek. split; reflexivity.
  - intros string Hr. split; [apply Hkept, Hr|].
    intros find_resource' read'. apply translate_regex_kept, Hkept, Hr.
  - intros other Hne. unfold self', translate_regex. cbv zeta.
    destruct (regexes self !! regex) as [kept|] eqn:Ek.
    + rewrite Ek. reflexivity.
    + destruct (find_resource (regex ++ ".regex")) as [path|].
      * destruct (String.eqb path ""); simpl negb; cbv iota.
        -- rewrite Ek. reflexivity.
        -- simpl regexes at 1. rewrite lookup_insert_eq. simpl.
           apply lookup_insert_ne. congruence.
      * rewrite Ek. reflexivity.
Qed.

End LegacyFacts.

(** * Runs of the model *)

#[local] Existing Instance Sample.scorer.

Lemma first_max_of_two {A} (a b x : Q * A) (l1 l2 : list (Q * A)) :
  [a; b] = l1 ++ x :: l2 ->
  Forall (fun y => (fst y <= fst x)%Q) l2 ->
  (fst a < fst b)%Q ->
  x = b.
Proof.
  intros Hl H2 Hab. destruct l1 as [|y1 [|y2 l1]]; simpl in Hl.
  - injection Hl as <- <-. inversion H2 as [|? ? Hy _]; subst. lra.
  - injection Hl as <- <- <-. reflexivity.
  - injection Hl as <- <- Hl. destruct l1; discriminate.
Qed.


(** C7, as stated, fails: a device list fetched empty at time 0 is cached,
    the access at time 10 is within the 60 seconds, and the backend is asked
    again. *)
Lemma cached_empty_devices_not_reused :
  let s1 := set_now 10 (snd (Ocp.devices Sample.empty_account)) in
  device_list s1 = Some []
  /\ devices_fetched s1 = 0%Q
  /\ (now s1 - devices_fetched s1 <= 60)%Q
  /\ calls s1 = [CallDevices]
  /\ calls (snd (Ocp.devices s1)) = [CallDevices; CallDevices]
  /\ Ocp.devices s1 <> (Ret [], s1).
Proof.
  intros s1. repeat apply conj; try (vm_compute; reflexivity).
  - apply Qle_bool_iff. vm_compute. reflexivity.
  - intros E. apply (f_equal (fun p => length (calls (snd p)))) in E.
    vm_compute in E. discriminate.
Qed.

(** The first access of a connected instance fetches the device, the
    playlist and both pages of saved tracks; accesses 30 seconds later are
    served from the cache. *)
Lemma cache_within_ttl_witness :
  let s0 := Sample.home in
  let s1 := set_now 30 (snd (Ocp.devices s0)) in
  let p1 := set_now 30 (snd (Ocp.playlists s0)) in
  let t1 := set_now 30 (snd (Skill.refresh_saved_tracks 2 s0)) in
  spotify s0 = Some Sample.household
  /\ Ocp.devices s0 = (Ret [Sample.phone], snd (Ocp.devices s0))
  /\ calls (snd (Ocp.devices s0)) = [CallDevices]
  /\ Ocp.devices s1 = (Ret [Sample.phone], s1)
  /\ Ocp.playlists p1 = (Ret (by_lower_name [Sample.item "Workout" 0 ""]), p1)
  /\ saved_tracks t1 = Some [Sample.item "one" 1 "a"; Sample.item "two" 2 "b"]
  /\ calls t1 = [CallSavedTracks 50 0; CallSavedTracks 50 50]
  /\ Skill.refresh_saved_tracks 2 t1 = (Ret None, t1).
Proof.
  intros s0 s1 p1 t1.
  assert (H0 : spotify s0 = Some Sample.household) by reflexivity.
  assert (H1 : spotify s1 = Some Sample.household) by reflexivity.
  assert (H2 : spotify p1 = Some Sample.household) by reflexivity.
  assert (H3 : spotify t1 = Some Sample.household) by reflexivity.
  split; [exact H0|].
  split.
  { rewrite (proj1 (proj2 (cache_within_ttl s0 Sample.household H0))) by (left; reflexivity).
    reflexivity. }
  split; [vm_compute; reflexivity|].
  split.
  { apply (proj1 (cache_within_ttl s1 Sample.household H1)); [reflexivity|].
    apply Qle_bool_iff. vm_compute. reflexivity. }
  split.
  { apply (proj1 (proj2 (proj2 (cache_within_ttl p1 Sample.household H2)))).
    - reflexivity.
    - intros E. apply (f_equal (fun m : gmap string Item => m !! "workout")) in E.
      vm_compute in E. discriminate.
    - apply Qle_bool_iff. vm_compute. reflexivity. }
  split; [vm_compute; reflexivity|].
  split; [vm_compute; reflexivity|].
  apply (proj1 (proj2 (proj2 (proj2 (proj2 (cache_within_ttl t1 Sample.household H3))))) 2%nat
           (Sample.item "one" 1 "a") [Sample.item "two" 2 "b"]).
  - vm_compute. reflexivity.
  - apply Qle_bool_iff. vm_compute. reflexivity.
Defined.

(** An account without devices and playlists: the access at time 10 finds
    the empty collections cached at time 0 and fetches again. *)
Lemma empty_collection_is_refetched_witness :
  let s1 := set_now 10 (snd (Ocp.devices Sample.empty_account)) in
  let p1 := set_now 10 (snd (Skill.playlists Sample.empty_account)) in
  spotify s1 = Some Sample.nothing
  /\ device_list s1 = Some []
  /\ _playlists p1 = Some ∅
  /\ calls (snd (Ocp.devices s1)) = [CallDevices; CallDevices]
  /\ calls (snd (Skill.playlists p1)) = [CallCurrentUserPlaylists; CallCurrentUserPlaylists].
Proof.
  intros s1 p1.
  assert (H1 : spotify s1 = Some Sample.nothing) by reflexivity.
  assert (H2 : spotify p1 = Some Sample.nothing) by reflexivity.
  assert (Hd : device_list s1 = Some []) by reflexivity.
  assert (Hp : _playlists p1 = Some ∅) by reflexivity.
  split; [exact H1|]. split; [exact Hd|]. split; [exact Hp|].
  split.
  - rewrite (proj1 (empty_collection_is_refetched s1 Sample.nothing H1) Hd). reflexivity.
  - rewrite (proj1 (proj2 (empty_collection_is_refetched p1 Sample.nothing H2)) Hp).
    reflexivity.
Defined.

(** C4, as stated, fails: a phrase that is empty or blank once the marker is
    gone is not a request to continue; the specific and the generic query are
    consulted, and when they find nothing the answer is [NOTHING_FOUND].  (A
    substitution of the marker leaves the empty phrase as it is.) *)
Lemma empty_phrase_is_not_continue :
  let find_nothing_specific : string -> Q -> M (option result) :=
    fun _ _ => ret (Some Skill.NOTHING_FOUND) in
  let find_nothing_generic : string -> Q -> M result :=
    fun _ _ => ret Skill.NOTHING_FOUND in
  Skill.continue_playback "" 0 = Skill.NOTHING_FOUND
  /\ Skill.continue_playback "   " 0 = Skill.NOTHING_FOUND
  /\ Skill.match_query_phrase_resolution (fun p => p) find_nothing_specific find_nothing_generic
       "" Sample.empty_account
     = (Ret Skill.NOTHING_FOUND, Sample.empty_account)
  /\ Skill.match_query_phrase_resolution (fun p => p) find_nothing_specific find_nothing_generic
       "   " Sample.empty_account
     = (Ret Skill.NOTHING_FOUND, Sample.empty_account).
Proof. repeat split. Qed.

(** The phrase " spotify " continues playback; the specific and the generic
    query, which would raise here, are not consulted. *)
Lemma continue_playback_precedence_witness :
  strip " spotify " = "spotify"
  /\ Skill.match_query_phrase_resolution (fun p => p)
       (fun _ _ => raise AttributeError) (fun _ _ => raise AttributeError)
       " spotify " Sample.home
     = (Ret (VNum 1, VMedia {| m_data := DNone; m_name := None; m_type := "continue" |}),
        Sample.home).
Proof.
  split; [reflexivity|].
  apply (proj1 (proj2 (continue_playback_precedence (fun p => p)
                         (fun _ _ => raise AttributeError) (fun _ _ => raise AttributeError)
                         " spotify " 0 Sample.home))).
  reflexivity.
Defined.

(** C2.  On the unit scale [query_song] adds the bonus without clamping:
    for the song "hello", the bonus 0.1 and a catalogue whose only track is
    "Hello", the confidence is 1.0 + 0.1, above the top of the scale, while
    [query_artist] and [query_album] clamp to 1.0 and [query_song] of
    [src/spotify.py] clamps to 100. *)
Theorem query_song_bonus_not_clamped :
  exists c d,
    fst (Client.query_song "hello" (1 # 10) Sample.adele) = Ret (VNum c, d)
    /\ (c == 11 # 10)%Q /\ (1 < c)%Q
    /\ fst (Ocp.query_song "hello" Sample.adele)
       = Ret (VNum 100, media_of [Sample.item "Hello" 10 "Adele"] "track").
Proof.
  exists (55 # 50), (media_of [Sample.item "Hello" 10 "Adele"] "track").
  split; [vm_compute; reflexivity|].
  split; [reflexivity|]. split; [reflexivity|]. vm_compute. reflexivity.
Qed.

(** C3.  On the 0-100 scale the band around the best score is still 0.1:
    the exact title scores 100, the more popular near match scores 96, within
    10 points, and is dropped; [query_song] of [src/spotify.py] answers the
    exact title with popularity 10.  On the unit scale the same search
    answers the near match with popularity 90. *)
Theorem query_song_band_on_percent_scale :
  Ocp.best_confidence (it_name Sample.exact_title) "the gods made heavy metal" = 100%Z
  /\ Ocp.best_confidence (it_name Sample.popular_cover) "the gods made heavy metal" = 96%Z
  /\ (it_popularity Sample.exact_title < it_popularity Sample.popular_cover)%Z
  /\ fst (Ocp.query_song "the gods made heavy metal" Sample.gods)
     = Ret (VNum 100, media_of [Sample.exact_title] "track")
  /\ fst (Client.query_song "the gods made heavy metal" 0 Sample.gods)
     = Ret (VNum (25 # 26), media_of [Sample.popular_cover] "track").
Proof.
  split; [vm_compute; reflexivity|].
  split; [vm_compute; reflexivity|].
  split; [reflexivity|].
  split; vm_compute; reflexivity.
Qed.

(** C6.  A podcast search without items: [query_show] returns [None], not
    [NOTHING_FOUND], and the resolution chain that unpacks the answer
    raises; the artist query on the same account returns [NOTHING_FOUND]. *)
Theorem query_show_empty_returns_None :
  fst (Skill.query_show "x" Sample.empty_account) = Ret None
  /\ fst (Skill.query_show "x" Sample.empty_account) <> Ret (Some Skill.NOTHING_FOUND)
  /\ fst (Skill.match_query_phrase_resolution (fun p => p)
            (fun phrase _ => Skill.query_show phrase) (fun _ _ => ret Skill.NOTHING_FOUND)
            "x" Sample.empty_account)
     = Raise TypeError
  /\ fst (Client.query_artist "x" 0 Sample.empty_account) = Ret Client.NOTHING_FOUND.
Proof.
  split; [vm_compute; reflexivity|].
  split; [vm_compute; discriminate|].
  split; vm_compute; reflexivity.
Qed.



Lemma several_by_words_raise_witness :
  split " by " "stand by me by ben e king" = ["stand"; "me"; "ben e king"]
  /\ Ocp.query_song "stand by me by ben e king" Sample.adele = (Raise ValueError, Sample.adele)
  /\ Client.query_album "stand by me by ben e king" 0 Sample.adele
     = (Raise ValueError, Sample.adele).
Proof.
  split; [reflexivity|].
  assert (Hl : (2 < length (split " by " "stand by me by ben e king"))%nat) by (simpl; lia).
  pose proof (several_by_words_raise "stand by me by ben e king" 0 Sample.adele Hl)
    as (_ & Hs & Ha & _).
  split; [exact Hs|exact Ha].
Defined.

(** A skill that is not connected. *)
Lemma not_connected_witness :
  Ocp.devices LegacySample.offline = (Ret [], LegacySample.offline)
  /\ Client.generic_query Skill.get_best_public_playlist "metallica" 0 LegacySample.offline
     = (Raise AttributeError, LegacySample.offline).
Proof.
  pose proof (not_connected Skill.get_best_public_playlist "metallica" 0 1
                LegacySample.offline eq_refl)
    as (Hd & _ & _ & _ & _ & _ & _ & Hg).
  split; [exact Hd|exact Hg].
Defined.


(** The household account serves two pages of saved tracks. *)
Lemma saved_tracks_are_all_pages_witness :
  let self' := snd (Skill.refresh_saved_tracks 2 Sample.home) in
  saved_tracks self' = Some (pages_items Sample.household [] 0 2)
  /\ pages_items Sample.household [] 0 2 = [Sample.item "one" 1 "a"; Sample.item "two" 2 "b"]
  /\ calls self' = [CallSavedTracks 50 0; CallSavedTracks 50 50].
Proof.
  intros self'.
  assert (Hnext : forall i, (i < 1)%nat -> b_next (page Sample.household (calls Sample.home) 0 i) = true).
  { intros i Hi. assert (i = 0%nat) as -> by lia. reflexivity. }
  pose proof (saved_tracks_are_all_pages Sample.household Sample.home 1 2 eq_refl
                (or_introl eq_refl) Hnext eq_refl (Nat.lt_succ_diag_r 1))
    as (_ & Hs & Hcalls & _).
  split; [exact Hs|]. split; [reflexivity|exact Hcalls].
Defined.

(** An account whose searches answer no items. *)
Lemma empty_search_finds_nothing_witness :
  Ocp.query_song "x" Sample.empty_account
  = (Ret Ocp.NOTHING_FOUND, log (CallSearch "x" TTrack) Sample.empty_account)
  /\ Client.query_album "x" 0 Sample.empty_account
     = (Ret Client.NOTHING_FOUND, log (CallSearch "x" TAlbum) Sample.empty_account)
  /\ Skill.get_best_public_playlist "x" Sample.empty_account
     = (Ret Skill.NOTHING_FOUND, log (CallSearch "x" TPlaylist) Sample.empty_account).
Proof.
  assert (Hn : forall ty, no_items (api_search Sample.nothing (calls Sample.empty_account) "x" ty)).
  { intros ty. right. destruct ty; reflexivity. }
  pose proof (empty_search_finds_nothing Sample.empty_account Sample.nothing "x" 0
                eq_refl eq_refl Hn) as (_ & _ & Hs & _ & Ha & _ & Hp).
  split; [exact Hs|]. split; [exact Ha|exact Hp].
Defined.

(** With scores cut off at 0 and 1, "work out" finds the playlist Workout
    at 87 percent. *)
Lemma Ocp_user_playlist_percentage_witness :
  let s' := snd (@Ocp.get_best_user_playlist Bounded.scorer "work out" Sample.metallica) in
  @Ocp.get_best_user_playlist Bounded.scorer "work out" Sample.metallica
  = (Ret (VStr "workout", VNum 87), s')
  /\ ((VStr "workout", VNum 87) = @Ocp.NOTHING_FOUND
      \/ exists n : Z, VNum 87 = VNum (inject_Z n) /\ (70 <= n <= 100)%Z).
Proof.
  intros s'.
  assert (Hr : @Ocp.get_best_user_playlist Bounded.scorer "work out" Sample.metallica
               = (Ret (VStr "workout", VNum 87), s')) by (vm_compute; reflexivity).
  split; [exact Hr|].
  exact (@Ocp_user_playlist_percentage Bounded.scorer Bounded_range "work out"
           Sample.metallica s' _ Hr).
Defined.



(** With scores cut off at 0 and 1, the song "hello" is found at 100. *)
Lemma Ocp_confidence_range_witness :
  let d := media_of [Sample.item "Hello" 10 "Adele"] "track" in
  let s' := snd (@Ocp.query_song Bounded.scorer "hello" Sample.adele) in
  @Ocp.query_song Bounded.scorer "hello" Sample.adele = (Ret (VNum 100, d), s')
  /\ (0 <= 100 <= 100)%Q.
Proof.
  intros d s'.
  assert (Hr : @Ocp.query_song Bounded.scorer "hello" Sample.adele = (Ret (VNum 100, d), s'))
    by (vm_compute; reflexivity).
  split; [exact Hr|].
  exact (@Ocp_confidence_range Bounded.scorer Bounded_range "hello" Sample.adele s' 100 d
           (or_intror (or_intror Hr))).
Defined.

(** The artist Metallica is found at 8/9 + 0.1, below 1. *)
Lemma Client_artist_album_clamped_witness :
  let d := media_of [Sample.item "Metallica" 80 "Metallica"] "artist" in
  let s' := snd (Client.query_artist "metallica" 0 Sample.metallica) in
  Client.query_artist "metallica" 0 Sample.metallica = (Ret (VNum (89 # 90), d), s')
  /\ (89 # 90 <= 1)%Q.
Proof.
  intros d s'.
  assert (Hr : Client.query_artist "metallica" 0 Sample.metallica = (Ret (VNum (89 # 90), d), s'))
    by (vm_compute; reflexivity).
  split; [exact Hr|].
  exact (Client_artist_album_clamped "metallica" 0 Sample.metallica s' (89 # 90) d
           (or_introl Hr)).
Defined.

(** ** Runs of the Connect client *)

Section ConnectRuns.
Import Connect.

(** A token kept until time 100 is returned again at time 50. *)
Lemma access_token_reused_until_expiry_witness :
  let c := {| access_token := JStr "old"; expiration_time := JNum 100; clock := 10;
              sent := [] |} in
  get_access_token ConnectSample.account false c = (Answer (JStr "old"), c)
  /\ get_access_token ConnectSample.account false (set_clock 50 c)
     = (Answer (JStr "old"), set_clock 50 c).
Proof.
  intros c.
  assert (Hg : get_access_token ConnectSample.account false c = (Answer (JStr "old"), c))
    by reflexivity.
  split; [exact Hg|].
  apply (proj2 (access_token_reused_until_expiry ConnectSample.account false c c
                  (JStr "old") 100 Hg eq_refl eq_refl)).
  discriminate.
Defined.

(** The first token of [ConnectSample.account] is kept from time 10 to time
    3610. *)
Lemma access_token_default_lifetime_witness :
  let c1 := snd (get_access_token ConnectSample.account false ConnectSample.fresh) in
  fst (get_access_token ConnectSample.account false ConnectSample.fresh)
  = Answer (JStr "fresh")
  /\ sent c1 = [ReqToken]
  /\ expiration_time c1 = JNum (10 + 3600)
  /\ get_access_token ConnectSample.account false (set_clock 3610 c1)
     = (Answer (JStr "fresh"), set_clock 3610 c1).
Proof.
  intros c1.
  pose proof (access_token_default_lifetime ConnectSample.account ConnectSample.fresh
                ConnectSample.token (JStr "fresh") eq_refl eq_refl eq_refl eq_refl eq_refl)
    as (H1 & H2 & H3 & H4 & _).
  split; [exact H1|]. split; [exact H2|]. split; [exact H3|].
  apply H4. discriminate.
Defined.


(** Nothing is playing: the item of the status is [None]. *)
Lemma status_info_unknown_witness :
  status_info (JDict [("is_playing", JBool false); ("item", JNull)])
  = (JStr "unknown", JStr "unknown", JStr "unknown")
  /\ status_info JNull = (JStr "unknown", JStr "unknown", JStr "unknown").
Proof.
  split.
  - apply status_info_unknown. intros item [= <-] d. discriminate.
  - apply status_info_unknown. intros item [=].
Defined.

End ConnectRuns.

(** ** Runs of the search handlers *)

Section OcpSkillRuns.
Import OcpSkill OcpSkillSample.


(** Only the backend vlc is configured: no spotify player. *)
Lemma no_player_no_search_witness :
  search_spotify_tracks [vlc] image duration_ms "skill" "icon" names_spotify keep
                        "hello" MUSIC Sample.adele
  = (([], Ret tt), Sample.adele).
Proof.
  exact (proj1 (proj2 (proj2 (no_player_no_search [vlc] listings image duration_ms
                                "skill" "icon" names_spotify keep "hello" MUSIC Sample.adele
                                eq_refl)))).
Defined.

(** The player phone is configured and online; the phrase holds the word by
    twice. *)
Lemma guarded_handlers_end_witness :
  let after := snd (has_configured_players [speaker] online) in
  fst (has_configured_players [speaker] online) = Ret true
  /\ search_spotify_album [speaker] listings image duration_ms "skill" "icon"
                          names_spotify keep "stand by me by ben e king" GENERIC online
     = (([], Ret tt), after)
  /\ calls after = [CallDevices].
Proof.
  intros after.
  assert (Hp : forall e, fst (has_configured_players [speaker] online) <> Raise e)
    by (intros e; discriminate).
  assert (Hl : (2 < length (split " by " (keep "stand by me by ben e king")))%nat)
    by (simpl; lia).
  split; [reflexivity|]. split; [|reflexivity].
  exact (proj1 (proj2 (guarded_handlers_end [speaker] listings image duration_ms
                         "skill" "icon" names_spotify keep "stand by me by ben e king"
                         GENERIC online Hp) eq_refl Hl)).
Defined.


(** The uri of a playlist and its bare id. *)
Lemma tracks_from_playlist_bare_id_witness :
  tracks_from_playlist listings "spotify:playlist:37i9dQZF1DX" online
  = (Ret (playlist_tracks listings "37i9dQZF1DX"), online)
  /\ tracks_from_playlist listings "37i9dQZF1DX" online
     = (Ret (playlist_tracks listings "37i9dQZF1DX"), online).
Proof.
  exact (tracks_from_playlist_bare_id listings "37i9dQZF1DX" online catalogue
           eq_refl eq_refl).
Defined.

End OcpSkillRuns.

(** ** Runs of the search handler and of the idle check *)

Section LegacyRuns.
Import Legacy LegacySample.

Lemma match_query_phrase_not_connected_witness :
  match_query_phrase "icon" keep unused_specific unused_generic
                     "play metallica on spotify" offline
  = (Raise UnboundLocalError, offline)
  /\ match_query_phrase "icon" keep unused_specific unused_generic "play metallica" offline
     = (Ret None, offline).
Proof.
  split.
  - exact (match_query_phrase_not_connected "icon" keep unused_specific unused_generic
             "play metallica on spotify" offline eq_refl).
  - exact (match_query_phrase_not_connected "icon" keep unused_specific unused_generic
             "play metallica" offline eq_refl).
Defined.

(** The playlist Workout is answered with its uri and the confidence of the
    query; the request to continue is not answered. *)
Lemma match_query_phrase_answers_items_only_witness :
  match_query_phrase "icon" keep finds_workout unused_generic "workout" Sample.home
  = (Ret (Some [{| r_match_confidence := VNum (9 # 10);
                   r_uri := "spotify://spotify:Workout";
                   r_media_type := OcpSkill.MUSIC;
                   r_playback := AUDIO;
                   r_skill_icon := "icon" |}]), Sample.home)
  /\ match_query_phrase "icon" keep finds_workout unused_generic " spotify " Sample.home
     = (Raise TypeError, Sample.home).
Proof.
  split.
  - exact (proj1 (match_query_phrase_answers_items_only "icon" keep finds_workout
                    unused_generic "workout" Sample.home Sample.household eq_refl)
                 (VNum (9 # 10))
                 {| m_data := DItem workout; m_name := Some "Workout"; m_type := "playlist" |}
                 Sample.home eq_refl).
  - exact (proj2 (match_query_phrase_answers_items_only "icon" keep finds_workout
                    unused_generic " spotify " Sample.home Sample.household eq_refl)
                 eq_refl).
Defined.

(** Five checks with a busy display end ducking; an empty answer at the
    third check starts the count again. *)
Lemma idle_check_resumes_once_witness :
  let st := {| ducking := true; idle_count := 0; events := [] |} in
  idle_checks ["a"; "b"; "c"; "d"; "e"] st
  = {| ducking := false; idle_count := 5; events := [CancelIdleCheck; Resume] |}
  /\ idle_checks ["a"; "b"; ""; "d"; "e"] st
     = {| ducking := true; idle_count := 2; events := [] |}.
Proof.
  intros st. split; [|reflexivity].
  assert (Hc : (0 <= idle_count st < 5)%Z) by (simpl; lia).
  assert (Ha : Forall (fun a : string => a <> "") ["a"; "b"; "c"; "d"; "e"])
    by (repeat constructor; discriminate).
  exact (proj2 (proj2 (idle_check_resumes_once st ["a"; "b"; "c"; "d"; "e"] eq_refl Hc))
               eq_refl eq_refl Ha).
Defined.

End LegacyRuns.
